(** * Pico_NeoPixel: the grid simulations of the 8x8 LED matrix demos

    A shallow embedding of the simulation cores of the repository
    (game_of_life.py, langtons_ant.py, sand_simulation.py, hourglass.py,
    water_ripples.py) and the properties that their specification states
    about them.

    Conventions of the embedding:
    - Python integers are [Z]; [%] with a positive modulus is [Z.modulo].
    - Python lists are [list]; indexing follows Python (a negative index
      counts from the end, anything else out of range raises IndexError,
      modelled as [None]).
    - The water solver is written once over the arithmetic of its numbers
      and read twice: over the exact rationals [Q], and over IEEE binary64
      (the [float] of CPython) with Rocq's primitive floats.
    - [random] is an explicit input (a list of coin flips or a chosen value).
    - Objects shared between containers (sand grains) live in a store and
      are referred to by their index in it. *)

From Stdlib Require Import ZArith QArith Qabs Qpower Lia Lqa String Ascii.
From Stdlib Require Import Floats.PrimFloat Floats.SpecFloat Floats.FloatOps Uint63.
From Stdlib Require Import Sorting.Permutation.
From stdpp Require Import base option list.

Local Open Scope Z_scope.

(** The matrix size shared by every script. *)
Definition WIDTH : Z := 8.
Definition HEIGHT : Z := 8.

(* ===================================================================== *)
(** * Python lists and grids *)
(* ===================================================================== *)

Module PyList.

(** [l[i]] position resolution: non-negative indices count from the
    front, negative ones from the back, everything else raises. *)
Definition py_index (n : nat) (i : Z) : option nat :=
  if decide (0 <= i < Z.of_nat n) then Some (Z.to_nat i)
  else if decide (- Z.of_nat n <= i < 0) then Some (Z.to_nat (Z.of_nat n + i))
  else None.

Definition py_get {A} (l : list A) (i : Z) : option A :=
  k ← py_index (length l) i; l !! k.

Definition py_set {A} (l : list A) (i : Z) (v : A) : option (list A) :=
  k ← py_index (length l) i; Some (<[k:=v]> l).

(** [g[y][x]] and [g[y][x] = v] on a list of rows. *)
Definition grid_get {A} (g : list (list A)) (x y : Z) : option A :=
  row ← py_get g y; py_get row x.

Definition grid_set {A} (g : list (list A)) (x y : Z) (v : A)
  : option (list (list A)) :=
  row ← py_get g y; row' ← py_set row x v; py_set g y row'.

(** [[[v] * w for _ in range(h)]] *)
Definition grid_make {A} (w h : nat) (v : A) : list (list A) :=
  replicate h (replicate w v).

(** Every row has [w] cells and there are [h] rows. *)
Definition grid_shape {A} (w h : nat) (g : list (list A)) : Prop :=
  length g = h /\ Forall (fun r => length r = w) g.

Definition in_range (x y : Z) : Prop :=
  0 <= x < WIDTH /\ 0 <= y < HEIGHT.

#[export] Instance in_range_dec x y : Decision (in_range x y).
Proof. unfold in_range. apply _. Defined.

(** [range(8)] and the cells in the order of
    [for y in range(HEIGHT): for x in range(WIDTH)]. *)
Definition range8 : list Z := Z.of_nat <$> seq 0 8.

Definition all_cells : list (Z * Z) :=
  concat (map (fun y => map (fun x => (x, y)) range8) range8).

End PyList.
Import PyList.

Abbreviation shape8 := (grid_shape 8 8).

(* ===================================================================== *)
(** * The helpers shared by the scripts: pixel index and colour wheel *)
(* ===================================================================== *)

Module Display.

Definition NUM_LEDS : Z := WIDTH * HEIGHT.

(** [xy]: the index of the pixel at (x, y) on the serpentine strip. *)
Definition xy (x y : Z) : Z :=
  if decide (y `mod` 2 = 1) then y * WIDTH + (WIDTH - 1 - x)
  else y * WIDTH + x.

(** [wheel] *)
Definition wheel (pos : Z) : Z * Z * Z :=
  let pos := pos `mod` 256 in
  if decide (pos < 85) then (255 - pos * 3, pos * 3, 0)
  else if decide (pos < 170) then
    let pos := pos - 85 in (0, 255 - pos * 3, pos * 3)
  else
    let pos := pos - 170 in (pos * 3, 0, 255 - pos * 3).

End Display.

(* ===================================================================== *)
(** * Conway's Game of Life (game_of_life.py) *)
(* ===================================================================== *)

Module Life.

Definition STAGNATION_CHECK : Z := 10.

Record GameOfLife := mkGame {
  grid : list (list Z);
  generation : Z;
  population : Z;
  history : list (list (list Z))
}.

(** [GameOfLife.__init__] *)
Definition init : GameOfLife :=
  mkGame (grid_make 8 8 0) 0 0 [].

(** The cells visited by [for y, row in enumerate(pattern): for x, cell in
    enumerate(row)], with their coordinates. *)
Definition enumerate2 (pattern : list (list Z)) : list (Z * Z * Z) :=
  concat (imap (fun y row => imap (fun x cell => (Z.of_nat x, Z.of_nat y, cell)) row)
               pattern).

Definition load_cells (offset_x offset_y : Z) (g : list (list Z))
           (cells : list (Z * Z * Z)) : option (list (list Z)) :=
  foldl (fun acc c =>
           g ← acc;
           let '(x, y, cell) := c in
           let px := (x + offset_x) `mod` WIDTH in
           let py := (y + offset_y) `mod` HEIGHT in
           grid_set g px py cell)
        (Some g) cells.

(** [GameOfLife.load_pattern]: note that [population] is left as it was. *)
Definition load_pattern (pattern : list (list Z)) (offset_x offset_y : Z)
           (s : GameOfLife) : option GameOfLife :=
  g ← load_cells offset_x offset_y (grid_make 8 8 0) (enumerate2 pattern);
  Some (mkGame g 0 (population s) []).

(** [GameOfLife.randomize], the random draws given as the new grid's
    cells ([1 if random.random() < density else 0]). *)
Definition randomize (draws : list (list bool)) (s : GameOfLife) : GameOfLife :=
  mkGame (map (map (fun b : bool => if b then 1 else 0)) draws) 0 (population s) [].

(** The eight offsets in the order of the two nested loops of
    [count_neighbors], the centre skipped. *)
Definition neighbor_offsets : list (Z * Z) :=
  concat (map (fun dy => omap (fun dx =>
            if decide (dx = 0 /\ dy = 0) then None else Some (dx, dy))
          [-1; 0; 1]) [-1; 0; 1]).

(** [GameOfLife.count_neighbors] *)
Definition count_neighbors (g : list (list Z)) (x y : Z) : option Z :=
  foldl (fun acc d =>
           count ← acc;
           let '(dx, dy) := d in
           let nx := (x + dx) `mod` WIDTH in
           let ny := (y + dy) `mod` HEIGHT in
           c ← grid_get g nx ny;
           Some (count + c))
        (Some 0) neighbor_offsets.

(** The value written to [new_grid[y][x]] in the body of the loop. *)
Definition next_cell (g : list (list Z)) (x y : Z) : option Z :=
  neighbors ← count_neighbors g x y;
  alive ← grid_get g x y;
  if decide (alive <> 0)
  then Some (if decide (neighbors = 2 \/ neighbors = 3) then 1 else 0)
  else Some (if decide (neighbors = 3) then 1 else 0).

(** One iteration of the loop body of [step]: reads the old grid [g],
    writes the fresh buffer [new_grid] and accumulates the population. *)
Definition step_cell (g : list (list Z)) (acc : option (list (list Z) * Z))
           (c : Z * Z) : option (list (list Z) * Z) :=
  '(new_grid, pop) ← acc;
  let '(x, y) := c in
  v ← next_cell g x y;
  new_grid' ← grid_set new_grid x y v;
  Some (new_grid', pop + v).

(** The grid pass of [step] with the cells evaluated in a given order. *)
Definition step_cells (order : list (Z * Z)) (g : list (list Z))
  : option (list (list Z) * Z) :=
  foldl (step_cell g) (Some (grid_make 8 8 0, 0)) order.

(** The history update at the end of [step]. *)
Definition push_history (h : list (list (list Z))) (state : list (list Z))
  : list (list (list Z)) :=
  let h' := h ++ [state] in
  if decide (STAGNATION_CHECK < Z.of_nat (length h')) then tail h' else h'.

(** [GameOfLife.step] *)
Definition step (s : GameOfLife) : option GameOfLife :=
  '(new_grid, pop) ← step_cells all_cells (grid s);
  Some (mkGame new_grid (generation s + 1) pop (push_history (history s) new_grid)).

(** [GameOfLife.is_dead] *)
Definition is_dead (s : GameOfLife) : bool :=
  bool_decide (population s = 0).

(** [GameOfLife.is_stagnant] *)
Definition is_stagnant (s : GameOfLife) : bool :=
  if decide (Z.of_nat (length (history s)) < STAGNATION_CHECK) then false
  else match last (history s) with
       | Some current =>
           bool_decide (3 <= length (filter (fun st => st = current) (history s)))%nat
       | None => false
       end.

Definition GLIDER : list (list Z) := [[0; 1; 0]; [0; 0; 1]; [1; 1; 1]].
Definition BLINKER : list (list Z) := [[1; 1; 1]].
Definition BLOCK : list (list Z) := [[1; 1]; [1; 1]].

(** Number of live cells actually on the grid. *)
Definition live_cells (g : list (list Z)) : nat :=
  length (filter (fun c => c <> 0) (concat g)).

(** Cells are 0 or 1. *)
Definition grid_binary (g : list (list Z)) : Prop :=
  Forall (Forall (fun c => c = 0 \/ c = 1)) g.

(** ** The rule of Life in the words of the specification

    A cell is alive when its flag is set; its neighbourhood is the eight
    adjacent cells on the torus; a live cell survives with 2 or 3 live
    neighbours, a dead cell is born with exactly 3, all else is dead. *)
Definition alive (g : list (list Z)) (x y : Z) : bool :=
  match grid_get g x y with
  | Some c => negb (c =? 0)
  | None => false
  end.

Definition toroidal_neighbors (x y : Z) : list (Z * Z) :=
  map (fun d : Z * Z => ((x + d.1) `mod` WIDTH, (y + d.2) `mod` HEIGHT))
      [(-1, -1); (0, -1); (1, -1); (-1, 0); (1, 0); (-1, 1); (0, 1); (1, 1)].

Definition live_neighbors (g : list (list Z)) (x y : Z) : nat :=
  length (filter (fun c : Z * Z => alive g c.1 c.2 = true) (toroidal_neighbors x y)).

Definition life_rule (g : list (list Z)) (x y : Z) : bool :=
  let n := live_neighbors g x y in
  if alive g x y then (n =? 2)%nat || (n =? 3)%nat else (n =? 3)%nat.

(** ** What the loops compute on a well-shaped grid

    The value of a cell (0 where there is none), the sum that
    [count_neighbors] accumulates over a list of offsets, the value that
    the loop body writes, and the population accumulated over a list of
    cells. *)
Definition cell (g : list (list Z)) (x y : Z) : Z := default 0 (grid_get g x y).

Definition count_val (g : list (list Z)) (x y : Z) (offs : list (Z * Z)) : Z :=
  foldr (fun d acc => cell g ((x + d.1) `mod` WIDTH) ((y + d.2) `mod` HEIGHT) + acc) 0 offs.

Definition next_val (g : list (list Z)) (x y : Z) : Z :=
  let n := count_val g x y neighbor_offsets in
  if decide (cell g x y <> 0)
  then (if decide (n = 2 \/ n = 3) then 1 else 0)
  else (if decide (n = 3) then 1 else 0).

Definition sum_vals (g : list (list Z)) (order : list (Z * Z)) : Z :=
  foldr (fun c acc => next_val g c.1 c.2 + acc) 0 order.

(** The grid whose cell (x, y) is [f x y]. *)
Definition tabulate (f : Z -> Z -> Z) : list (list Z) :=
  map (fun y => map (fun x => f x y) range8) range8.

(** The blinker of the pattern catalogue at its offset (2, 3), and the
    glider at (0, 0), loaded on a new game. *)
Definition blinker_game : option GameOfLife := load_pattern BLINKER 2 3 init.
Definition glider_game : option GameOfLife := load_pattern GLIDER 0 0 init.

Definition blinker_state : GameOfLife :=
  Eval vm_compute in default init blinker_game.

(** ** The pattern catalogue and the main loop *)

Definition MAX_GENERATIONS : Z := 200.

Definition TOAD : list (list Z) := [[0; 1; 1; 1]; [1; 1; 1; 0]].
Definition BEACON : list (list Z) :=
  [[1; 1; 0; 0]; [1; 1; 0; 0]; [0; 0; 1; 1]; [0; 0; 1; 1]].
Definition R_PENTOMINO : list (list Z) := [[0; 1; 1]; [1; 1; 0]; [0; 1; 0]].
Definition DIEHARD : list (list Z) :=
  [[0; 0; 0; 0; 0; 0; 1; 0]; [1; 1; 0; 0; 0; 0; 0; 0]; [0; 1; 0; 0; 0; 1; 1; 1]].
Definition ACORN : list (list Z) :=
  [[0; 1; 0; 0; 0; 0; 0]; [0; 0; 0; 1; 0; 0; 0]; [1; 1; 0; 0; 1; 1; 1]].
Definition BEEHIVE : list (list Z) := [[0; 1; 1; 0]; [1; 0; 0; 1]; [0; 1; 1; 0]].
Definition TWO_GLIDERS : list (list Z) :=
  [[0; 1; 0; 0; 0; 0; 0; 0]; [0; 0; 1; 0; 0; 0; 0; 0]; [1; 1; 1; 0; 0; 0; 0; 0];
   [0; 0; 0; 0; 0; 0; 0; 0]; [0; 0; 0; 0; 0; 1; 1; 1]; [0; 0; 0; 0; 0; 1; 0; 0];
   [0; 0; 0; 0; 0; 0; 1; 0]].

(** The values of [PATTERNS] in the order of its keys as they are written
    ([pattern_names] indexes them). *)
Definition PATTERNS : list (list (list Z) * Z * Z) :=
  [(GLIDER, 0, 0); (BLINKER, 2, 3); (TOAD, 2, 3); (BEACON, 2, 2);
   (R_PENTOMINO, 2, 2); (DIEHARD, 0, 2); (ACORN, 0, 2); (BLOCK, 3, 3);
   (BEEHIVE, 2, 3); (TWO_GLIDERS, 0, 0)].

(** [n] calls of [step] in a row (the loop of [demo_pattern], its display
    left out). *)
Fixpoint run_steps (n : nat) (s : GameOfLife) : option GameOfLife :=
  match n with
  | O => Some s
  | S k => s' ← step s; run_steps k s'
  end.

(** The state of [run_game_of_life]: the game and the loop's variables. *)
Record Runner := mkRunner {
  game : GameOfLife;
  pattern_index : Z;
  display_mode : Z;
  ages : list (list Z)
}.

(** The ages pass of the loop: a live cell grows older, a dead one is 0. *)
Definition update_ages (g ages : list (list Z)) : option (list (list Z)) :=
  foldl (fun acc (c : Z * Z) =>
           a ← acc;
           v ← grid_get g c.1 c.2;
           if decide (v <> 0) then
             old ← grid_get a c.1 c.2; grid_set a c.1 c.2 (old + 1)
           else grid_set a c.1 c.2 0)
        (Some ages) all_cells.

(** [game.is_dead() or game.is_stagnant() or
    game.generation >= MAX_GENERATIONS] *)
Definition should_reset (s : GameOfLife) : bool :=
  is_dead s || is_stagnant s || bool_decide (generation s >= MAX_GENERATIONS).

(** The code of [run_game_of_life] before its loop, for a catalogue
    [patterns]. *)
Definition runner_start (patterns : list (list (list Z) * Z * Z)) : option Runner :=
  '(pattern, ox, oy) ← py_get patterns 0;
  g ← load_pattern pattern ox oy init;
  Some (mkRunner g 0 0 (grid_make 8 8 0)).

(** One turn of the loop of [run_game_of_life], the display and the pauses
    left out; [draws] is the grid that [randomize] would draw. The result
    tells whether the turn called [step]. *)
Definition runner_turn (patterns : list (list (list Z) * Z * Z))
           (draws : list (list bool)) (r : Runner) : option (Runner * bool) :=
  ages1 ← update_ages (grid (game r)) (ages r);
  if should_reset (game r) then
    let n := Z.of_nat (length patterns) in
    let index := (pattern_index r + 1) `mod` (n + 1) in
    g ← (if decide (index < n) then
           '(pattern, ox, oy) ← py_get patterns index;
           load_pattern pattern ox oy (game r)
         else Some (randomize draws (game r)));
    Some (mkRunner g index ((display_mode r + 1) `mod` 4) (grid_make 8 8 0), false)
  else
    g ← step (game r);
    Some (mkRunner g (pattern_index r) (display_mode r) ages1, true).

(** The turns of the loop, one grid of draws for each. *)
Fixpoint runner_turns (patterns : list (list (list Z) * Z * Z))
         (draws : list (list (list bool))) (r : Runner) : option (Runner * bool) :=
  match draws with
  | [] => Some (r, false)
  | d :: rest =>
      '(r', stepped) ← runner_turn patterns d r;
      '(r'', stepped') ← runner_turns patterns rest r';
      Some (r'', stepped || stepped')
  end.

(** The cell that [load_pattern] writes for an entry of the pattern. *)
Definition target (ox oy : Z) (c : Z * Z * Z) : Z * Z :=
  ((c.1.1 + ox) `mod` WIDTH, (c.1.2 + oy) `mod` HEIGHT).

(** What holds whenever the loop of [run_game_of_life] is at the top of a
    turn. *)
Definition runner_inv (r : Runner) : Prop :=
  population (game r) = 0 /\ generation (game r) = 0
  /\ shape8 (grid (game r)) /\ shape8 (ages r) /\ 0 <= pattern_index r.

End Life.

(* ===================================================================== *)
(** * Langton's Ant (langtons_ant.py) *)
(* ===================================================================== *)

Module Ant.

(** Exceptions that the ant code can raise, and results of fallible code. *)
Inductive exn := IndexError | ZeroDivisionError.

Inductive result (A : Type) :=
| Ok (a : A)
| Raise (e : exn).
Arguments Ok {A} a.
Arguments Raise {A} e.

Definition rbind {A B} (r : result A) (k : A -> result B) : result B :=
  match r with
  | Ok a => k a
  | Raise e => Raise e
  end.

(** An out-of-range subscript raises IndexError. *)
Definition subscript {A} (o : option A) : result A :=
  match o with
  | Some a => Ok a
  | None => Raise IndexError
  end.

Notation "'let*' x ':=' r 'in' k" := (rbind r (fun x => k))
  (at level 10, x pattern, r at level 200, k at level 200).

Definition is_ok {A} (r : result A) : Prop :=
  match r with Ok _ => True | Raise _ => False end.

(** [DIRECTIONS]: UP, RIGHT, DOWN, LEFT *)
Definition DIRECTIONS : list (Z * Z) := [(0, -1); (1, 0); (0, 1); (-1, 0)].

Definition turn_right (direction : Z) : Z := (direction + 1) `mod` 4.
Definition turn_left (direction : Z) : Z := (direction - 1) `mod` 4.

Definition ANT_COLOR : Z * Z * Z := (255, 0, 0).

(** [class Ant] *)
Record Ant := mkAnt {
  x : Z;
  y : Z;
  direction : Z;
  color : Z * Z * Z;
  steps : Z
}.

(** [Ant.__init__] with its defaults. *)
Definition new_ant (ax ay : Z) : Ant := mkAnt ax ay 0 ANT_COLOR 0.

(** [s[i]] on a Python string. *)
Definition str_get (s : string) (i : Z) : option ascii :=
  k ← py_index (String.length s) i; String.get k s.

Section Moves.
(** The module constant [WRAP_EDGES]: toroidal wrap when set, bounce
    off the walls otherwise. *)
Variable WRAP_EDGES : bool.

(** [Ant.move] *)
Definition move (a : Ant) : result Ant :=
  let* (dx, dy) := subscript (py_get DIRECTIONS (direction a)) in
  let x1 := x a + dx in
  let y1 := y a + dy in
  if WRAP_EDGES then
    Ok (mkAnt (x1 `mod` WIDTH) (y1 `mod` HEIGHT) (direction a) (color a) (steps a + 1))
  else
    let '(x2, d2) :=
      if decide (x1 < 0) then (0, turn_right (turn_right (direction a)))
      else if decide (x1 >= WIDTH) then (WIDTH - 1, turn_right (turn_right (direction a)))
      else (x1, direction a) in
    let '(y3, d3) :=
      if decide (y1 < 0) then (0, turn_right (turn_right d2))
      else if decide (y1 >= HEIGHT) then (HEIGHT - 1, turn_right (turn_right d2))
      else (y1, d2) in
    Ok (mkAnt x2 y3 d3 (color a) (steps a + 1)).

(** The two-colour rule shared by [LangtonAnt.step] and the loop body
    of [MultiAnt.step]: turn, flip the cell, move. *)
Definition classic_step (g : list (list Z)) (a : Ant)
  : result (list (list Z) * Ant) :=
  let* cell := subscript (grid_get g (x a) (y a)) in
  let '(d, v) := if decide (cell = 0) then (turn_right (direction a), 1)
                 else (turn_left (direction a), 0) in
  let* g' := subscript (grid_set g (x a) (y a) v) in
  let* a' := move (mkAnt (x a) (y a) d (color a) (steps a)) in
  Ok (g', a').

(** [class LangtonAnt]; the history keeps the recorded states themselves
    (the source stores their hashes). *)
Record LangtonAnt := mkLangton {
  l_grid : list (list Z);
  l_ant : Ant;
  l_history : list (Z * Z * Z * list (list Z))
}.

Definition langton_init : LangtonAnt :=
  mkLangton (grid_make 8 8 0) (new_ant (WIDTH `div` 2) (HEIGHT `div` 2)) [].

(** [LangtonAnt.step] *)
Definition langton_step (s : LangtonAnt) : result LangtonAnt :=
  let* (g, a) := classic_step (l_grid s) (l_ant s) in
  let h := l_history s ++ [(x a, y a, direction a, g)] in
  let h' := if decide (500 < length h)%nat then tail h else h in
  Ok (mkLangton g a h').

(** [class ExtendedAnt] *)
Record ExtendedAnt := mkExtended {
  rules : string;
  num_states : Z;
  e_grid : list (list Z);
  e_ant : Ant
}.

(** [ExtendedAnt.__init__]: the rule string is stored as it comes. *)
Definition extended_init (r : string) : result ExtendedAnt :=
  Ok (mkExtended r (Z.of_nat (String.length r)) (grid_make 8 8 0)
                 (new_ant (WIDTH `div` 2) (HEIGHT `div` 2))).

(** [a % b] raising on a zero divisor. *)
Definition py_mod (a b : Z) : result Z :=
  if decide (b = 0) then Raise ZeroDivisionError else Ok (a `mod` b).

(** [ExtendedAnt.step] *)
Definition extended_step (s : ExtendedAnt) : result ExtendedAnt :=
  let a := e_ant s in
  let* state := subscript (grid_get (e_grid s) (x a) (y a)) in
  let* rule := subscript (str_get (rules s) state) in
  let d := if Ascii.eqb rule "R" then turn_right (direction a)
           else turn_left (direction a) in
  let* v := py_mod (state + 1) (num_states s) in
  let* g' := subscript (grid_set (e_grid s) (x a) (y a) v) in
  let* a' := move (mkAnt (x a) (y a) d (color a) (steps a)) in
  Ok (mkExtended (rules s) (num_states s) g' a').

(** [class MultiAnt] *)
Record MultiAnt := mkMulti {
  m_grid : list (list Z);
  ants : list Ant
}.

(** [MultiAnt.step]: the ants step one after the other on the shared
    grid, in list order. *)
Fixpoint multi_loop (g : list (list Z)) (todo : list Ant)
  : result (list (list Z) * list Ant) :=
  match todo with
  | [] => Ok (g, [])
  | a :: rest =>
      let* (g', a') := classic_step g a in
      let* (g'', rest') := multi_loop g' rest in
      Ok (g'', a' :: rest')
  end.

Definition multi_step (s : MultiAnt) : result MultiAnt :=
  let* (g, l) := multi_loop (m_grid s) (ants s) in
  Ok (mkMulti g l).
End Moves.

(** The value of [WRAP_EDGES] in the source. *)
Definition WRAP_EDGES : bool := true.

Definition ant_in_range (a : Ant) : Prop := in_range (x a) (y a).
Definition facing_ok (a : Ant) : Prop := 0 <= direction a < 4.

(** Every paint state of the grid is below [n]. *)
Definition cells_below (n : Z) (g : list (list Z)) : Prop :=
  Forall (Forall (fun c => 0 <= c < n)) g.

(** Well-formed states of the three simulations: an 8x8 grid, every ant
    on it and facing one of the four directions; for the extended ant
    also a non-empty rule string whose length is [num_states] and paint
    states below it. *)
Definition langton_wf (s : LangtonAnt) : Prop :=
  shape8 (l_grid s) /\ ant_in_range (l_ant s) /\ facing_ok (l_ant s).

Definition extended_wf (s : ExtendedAnt) : Prop :=
  shape8 (e_grid s) /\ ant_in_range (e_ant s) /\ facing_ok (e_ant s)
  /\ num_states s = Z.of_nat (String.length (rules s)) /\ 1 <= num_states s
  /\ cells_below (num_states s) (e_grid s).

Definition multi_wf (s : MultiAnt) : Prop :=
  shape8 (m_grid s) /\ Forall (fun a => ant_in_range a /\ facing_ok a) (ants s).

(** The state that [ExtendedAnt(r)] constructs. *)
Definition constructed (r : string) : ExtendedAnt :=
  mkExtended r (Z.of_nat (String.length r)) (grid_make 8 8 0)
             (new_ant (WIDTH `div` 2) (HEIGHT `div` 2)).

(** An ant in the top left corner that faces LEFT, and a second one in
    the bottom right corner that faces DOWN. *)
Definition corner_ant : Ant := mkAnt 0 0 3 ANT_COLOR 0.
Definition far_corner_ant : Ant := mkAnt 7 7 2 (0, 255, 0) 0.

End Ant.

(* ===================================================================== *)
(** * Sand grains on a grid (shared by sand_simulation.py and hourglass.py) *)
(* ===================================================================== *)

Module Grains.

(** [class SandGrain]. A grain object is shared by the list [grains] and
    by the grid slot that holds it: the store is the list [grains], and a
    reference to a grain is its position in that list. *)
Record SandGrain := mkGrain {
  gx : Z;
  gy : Z;
  gcolor : Z * Z * Z;
  settled : bool
}.

Record world := mkWorld {
  grains : list SandGrain;
  grid : list (list (option nat))
}.

(** [self.grains = []] and [self.grid = [[None] * WIDTH ...]] *)
Definition empty_world : world := mkWorld [] (grid_make 8 8 None).

(** [grain.settled = b] *)
Definition set_settled (w : world) (i : nat) (b : bool) : option world :=
  g ← grains w !! i;
  Some (mkWorld (<[i := mkGrain (gx g) (gy g) (gcolor g) b]> (grains w)) (grid w)).

(** [move_grain(grain, new_x, new_y)]: clear the old slot, update the
    grain, set the new slot. *)
Definition move_grain (w : world) (i : nat) (new_x new_y : Z) : option world :=
  g ← grains w !! i;
  grid1 ← grid_set (grid w) (gx g) (gy g) None;
  let g' := mkGrain new_x new_y (gcolor g) (settled g) in
  grid2 ← grid_set grid1 new_x new_y (Some i);
  Some (mkWorld (<[i := g']> (grains w)) grid2).

(** [self.grains.append(grain); self.grid[y][x] = grain] *)
Definition add_grain (w : world) (g : SandGrain) : option world :=
  grid' ← grid_set (grid w) (gx g) (gy g) (Some (length (grains w)));
  Some (mkWorld (grains w ++ [g]) grid').

(** [sorted(self.grains, key=...)]: a stable sort of the grain references
    by a key computed from the grains as they are when the sort runs. *)
Fixpoint insert_by (key : nat -> Z) (i : nat) (l : list nat) : list nat :=
  match l with
  | [] => [i]
  | j :: l' => if decide (key i <= key j) then i :: j :: l'
               else j :: insert_by key i l'
  end.

Definition sorted_by (key : nat -> Z) (l : list nat) : list nat :=
  foldr (insert_by key) [] l.

Definition grain_y (w : world) (i : nat) : Z :=
  default 0 (gy <$> grains w !! i).

Definition grain_ids (w : world) : list nat := seq 0 (length (grains w)).

(** [random.randint(0, 1)]: the next coin of the stream; a stream that
    has run out keeps giving 0. *)
Definition next_coin (coins : list bool) : bool * list bool :=
  (hd false coins, tail coins).

(** The ownership invariant between the grid and the grains: every grain
    lies on the grid, the slot at its own coordinates is the one and only
    slot that refers to it, and every reference in a slot is a grain of
    the store. *)
Definition ownership (w : world) : Prop :=
  shape8 (grid w)
  /\ (forall i g, grains w !! i = Some g ->
        in_range (gx g) (gy g)
        /\ forall x y, in_range x y ->
             (grid_get (grid w) x y = Some (Some i) <-> x = gx g /\ y = gy g))
  /\ (forall x y i, in_range x y -> grid_get (grid w) x y = Some (Some i) ->
        is_Some (grains w !! i)).

End Grains.

(* ===================================================================== *)
(** * Falling sand (sand_simulation.py) *)
(* ===================================================================== *)

Module Sand.
Import Grains.

Definition SAND_COLORS : list (Z * Z * Z) :=
  [(194, 178, 128); (210, 180, 140); (139, 119, 101); (255, 200, 100); (180, 140, 100)].

Record SandSimulation := mkSand {
  sworld : world;
  grain_count : Z;
  color_index : Z
}.

(** [SandSimulation.__init__] *)
Definition init : SandSimulation := mkSand empty_world 0 0.

(** [SandSimulation.reset] *)
Definition reset (s : SandSimulation) : SandSimulation :=
  mkSand empty_world 0 (color_index s).

(** [[x for x in range(WIDTH) if self.grid[0][x] is None]] *)
Definition empty_spots (g : list (list (option nat))) : option (list Z) :=
  foldr (fun x acc =>
           l ← acc;
           c ← grid_get g x 0;
           Some (if c is None then x :: l else l))
        (Some []) range8.

(** [SandSimulation.spawn_grain] with [LAYERED_MODE] (the source's
    setting); [pick] is the draw of [random.choice]. *)
Definition spawn_grain (pick : nat) (s : SandSimulation) : option SandSimulation :=
  spots ← empty_spots (grid (sworld s));
  match spots with
  | [] => Some s
  | _ =>
      x ← spots !! (pick `mod` length spots)%nat;
      color ← py_get SAND_COLORS (color_index s `mod` Z.of_nat (length SAND_COLORS));
      let ci := if decide (grain_count s `mod` 8 = 0) then color_index s + 1
                else color_index s in
      w ← add_grain (sworld s) (mkGrain x 0 color false);
      Some (mkSand w (grain_count s + 1) ci)
  end.

(** The [for dx in directions] loop of [update]. *)
Fixpoint try_slide (w : world) (i : nat) (x y : Z) (directions : list Z)
  : option (world * bool) :=
  match directions with
  | [] => Some (w, false)
  | dx :: rest =>
      let new_x := x + dx in
      if decide (0 <= new_x < WIDTH) then
        c ← grid_get (grid w) new_x (y + 1);
        if c is None then w' ← move_grain w i new_x (y + 1); Some (w', true)
        else try_slide w i x y rest
      else try_slide w i x y rest
  end.

(** The body of the loop of [update] for one grain. *)
Definition process_grain (acc : option (world * list bool)) (i : nat)
  : option (world * list bool) :=
  '(w, coins) ← acc;
  g ← grains w !! i;
  if settled g then Some (w, coins)
  else
    let x := gx g in
    let y := gy g in
    if decide (y + 1 < HEIGHT) then
      c ← grid_get (grid w) x (y + 1);
      if c is None then w' ← move_grain w i x (y + 1); Some (w', coins)
      else
        let '(coin, coins') := next_coin coins in
        let directions := if coin then [-1; 1] else [1; -1] in
        '(w', moved) ← try_slide w i x y directions;
        if (moved : bool) then Some (w', coins')
        else w'' ← set_settled w' i true; Some (w'', coins')
    else w' ← set_settled w i true; Some (w', coins).

Definition update_world (coins : list bool) (w : world) : option (world * list bool) :=
  let grains_by_y := sorted_by (fun i => - grain_y w i) (grain_ids w) in
  foldl process_grain (Some (w, coins)) grains_by_y.

(** [SandSimulation.update] *)
Definition update (coins : list bool) (s : SandSimulation) : option SandSimulation :=
  '(w, _) ← update_world coins (sworld s);
  Some (mkSand w (grain_count s) (color_index s)).

(** States that the class reaches from construction through its methods. *)
Inductive reachable : SandSimulation -> Prop :=
| reach_init : reachable init
| reach_reset s : reachable s -> reachable (reset s)
| reach_spawn s pick s' :
    reachable s -> spawn_grain pick s = Some s' -> reachable s'
| reach_update s coins s' :
    reachable s -> update coins s = Some s' -> reachable s'.

(** A sequence of method calls. *)
Inductive op :=
| Spawn (pick : nat)
| Update (coins : list bool).

Fixpoint run_ops (ops : list op) (s : SandSimulation) : option SandSimulation :=
  match ops with
  | [] => Some s
  | Spawn pick :: rest => s' ← spawn_grain pick s; run_ops rest s'
  | Update coins :: rest => s' ← update coins s; run_ops rest s'
  end.

(** Two grains dropped in columns 0 and 1, a third in column 0 on top of
    them, then two more side by side in columns 1 and 0: the one in
    column 1 is evaluated first, falls below and beside the other one,
    which therefore settles on row 5; a tick later the first one slides
    on to column 2 and leaves the cell (1, 6) empty. *)
Definition tower_script : list op :=
  [Spawn 0; Spawn 0] ++ replicate 8 (Update []) ++
  [Spawn 0] ++ replicate 7 (Update []) ++
  [Spawn 1; Spawn 0] ++ replicate 7 (Update []).

Definition tower_state : SandSimulation :=
  Eval vm_compute in default init (run_ops tower_script init).

(** [SandSimulation.is_full]: [all(...)] over the top row, stopping at the
    first slot that is empty or holds an unsettled grain. *)
Fixpoint top_row_settled (w : world) (xs : list Z) : option bool :=
  match xs with
  | [] => Some true
  | x :: rest =>
      c ← grid_get (grid w) x 0;
      match c with
      | None => Some false
      | Some i =>
          g ← grains w !! i;
          if settled g then top_row_settled w rest else Some false
      end
  end.

Definition is_full (s : SandSimulation) : option bool :=
  top_row_settled (sworld s) range8.

(** [SandSimulation.count_active] *)
Definition count_active (s : SandSimulation) : Z :=
  Z.of_nat (length (filter (fun g => settled g = false) (grains (sworld s)))).

(** [n] ticks in a row without spawning, with the coins of each tick. *)
Fixpoint run_updates (coins : list (list bool)) (s : SandSimulation)
  : option SandSimulation :=
  match coins with
  | [] => Some s
  | c :: rest => s' ← update c s; run_updates rest s'
  end.

(** What one tick may do to a grain: a settled grain is left as it is; an
    unsettled one settles where it is, or stays unsettled and goes one row
    down, in its column or a neighbouring one. The colour is kept. *)
Definition tick_rel (g g' : SandGrain) : Prop :=
  gcolor g' = gcolor g
  /\ (settled g = true -> g' = g)
  /\ (settled g = false ->
        (gx g' = gx g /\ gy g' = gy g /\ settled g' = true)
        \/ (gx g - 1 <= gx g' <= gx g + 1 /\ gy g' = gy g + 1 /\ settled g' = false)).

(** Every unsettled grain is on row [k] or lower. *)
Definition below (k : Z) (s : SandSimulation) : Prop :=
  forall i g, grains (sworld s) !! i = Some g -> settled g = false -> k <= gy g.

(** The slot of column [x] in the top row is empty. *)
Definition top_free (g : list (list (option nat))) (x : Z) : Prop :=
  grid_get g x 0 = Some None.

#[export] Instance top_free_dec g x : Decision (top_free g x).
Proof. unfold top_free. apply _. Defined.

(** Sixty-four grains dropped one after the other, each left to come to
    rest: the grid is full. *)
Definition full_script : list op :=
  concat (replicate 64 (Spawn 0 :: replicate 8 (Update []))).

Definition full_state : SandSimulation :=
  Eval vm_compute in default init (run_ops full_script init).

End Sand.

(* ===================================================================== *)
(** * Hourglass (hourglass.py) *)
(* ===================================================================== *)

Module Hourglass.
Import Grains.

Definition SAND_COUNT : nat := 20.
Definition SAND_COLOR : Z * Z * Z := (255, 200, 100).

(** [in_hourglass]: the centre is 3.5 and the half-widths are multiples
    of one half, all exact rationals. *)
Definition in_hourglass (x y : Z) : bool :=
  let cx := (7 # 2)%Q in
  let dx := Qabs (inject_Z x - cx) in
  if decide (y < 4) then
    let max_dx := if decide (y >= 3) then 1%Q
                  else (inject_Z (4 - y) + (1 # 2))%Q in
    Qle_bool dx max_dx
  else
    let max_dx := if decide (y <= 4) then 1%Q
                  else (inject_Z (y - 3) + (1 # 2))%Q in
    Qle_bool dx max_dx.

(** [get_hourglass_cells], row by row. *)
Definition get_hourglass_cells : list (Z * Z) :=
  filter (fun c : Z * Z => in_hourglass c.1 c.2 = true)
         all_cells.

Definition get_top_chamber : list (Z * Z) :=
  filter (fun c : Z * Z => c.2 < 3) get_hourglass_cells.

Definition get_bottom_chamber : list (Z * Z) :=
  filter (fun c : Z * Z => c.2 > 4) get_hourglass_cells.

Definition clamp255 (v : Z) : Z := Z.max 0 (Z.min 255 v).

(** [SandGrain.__init__] of hourglass.py; [variation] is the draw of
    [random.randint(-20, 20)]. *)
Definition new_grain (x y variation : Z) : SandGrain :=
  let '(r, g, b) := SAND_COLOR in
  mkGrain x y (clamp255 (r + variation), clamp255 (g + variation),
               clamp255 (b + variation)) false.

Record Hourglass := mkHourglass {
  hworld : world;
  frame : Z;
  flipped : bool
}.

(** The filling loop of [fill_top] and [fill_bottom]: one settled grain
    on each of the first [SAND_COUNT] cells. *)
Definition fill_cells (variation : nat -> Z) (cells : list (Z * Z)) : option world :=
  foldl (fun acc c =>
           w ← acc;
           let g := new_grain c.1 c.2 (variation (length (grains w))) in
           add_grain w (mkGrain (gx g) (gy g) (gcolor g) true))
        (Some empty_world) (take SAND_COUNT cells).

(** [Hourglass.fill_top]; [shuffled] is the top chamber as
    [random.shuffle] leaves it. *)
Definition fill_top (variation : nat -> Z) (shuffled : list (Z * Z))
           (h : Hourglass) : option Hourglass :=
  w ← fill_cells variation shuffled;
  Some (mkHourglass w (frame h) (flipped h)).

(** [Hourglass.fill_bottom] *)
Definition fill_bottom (variation : nat -> Z) (h : Hourglass) : option Hourglass :=
  w ← fill_cells variation get_bottom_chamber;
  Some (mkHourglass w (frame h) (flipped h)).

(** [Hourglass.__init__] *)
Definition init (variation : nat -> Z) (shuffled : list (Z * Z)) : option Hourglass :=
  fill_top variation shuffled (mkHourglass empty_world 0 false).

(** [Hourglass.get_gravity_targets] *)
Definition get_gravity_targets (is_flipped coin : bool) (x y : Z) : list (Z * Z) :=
  let dy := if is_flipped then -1 else 1 in
  if coin then [(x, y + dy); (x + 1, y + dy); (x - 1, y + dy)]
  else [(x, y + dy); (x - 1, y + dy); (x + 1, y + dy)].

(** [Hourglass.can_move_to] *)
Definition can_move_to (w : world) (x y : Z) : option bool :=
  if decide (in_range x y) then
    if in_hourglass x y then
      c ← grid_get (grid w) x y;
      Some (if c is None then true else false)
    else Some false
  else Some false.

(** [any(self.can_move_to(tx, ty) for tx, ty in targets)] *)
Fixpoint any_can_move (w : world) (targets : list (Z * Z)) : option bool :=
  match targets with
  | [] => Some false
  | (tx, ty) :: rest =>
      b ← can_move_to w tx ty;
      if (b : bool) then Some true else any_can_move w rest
  end.

(** The [for tx, ty in targets] loop that moves the grain to the first
    target it can move to. *)
Fixpoint try_targets (w : world) (i : nat) (targets : list (Z * Z))
  : option (world * bool) :=
  match targets with
  | [] => Some (w, false)
  | (tx, ty) :: rest =>
      b ← can_move_to w tx ty;
      if (b : bool) then w' ← move_grain w i tx ty; Some (w', true)
      else try_targets w i rest
  end.

(** The first [if] of the loop body: a settled grain with a free target
    becomes unsettled. *)
Definition unsettle_check (is_flipped : bool) (w : world) (coins : list bool)
           (i : nat) : option (world * list bool) :=
  g ← grains w !! i;
  if settled g then
    let '(coin, coins') := next_coin coins in
    can_fall ← any_can_move w (get_gravity_targets is_flipped coin (gx g) (gy g));
    if (can_fall : bool) then w' ← set_settled w i false; Some (w', coins')
    else Some (w, coins')
  else Some (w, coins).

(** The second [if] of the loop body: an unsettled grain moves or settles. *)
Definition fall (is_flipped : bool) (w : world) (coins : list bool)
           (any_moved : bool) (i : nat) : option (world * list bool * bool) :=
  g ← grains w !! i;
  if settled g then Some (w, coins, any_moved)
  else
    let '(coin, coins') := next_coin coins in
    '(w', moved) ← try_targets w i (get_gravity_targets is_flipped coin (gx g) (gy g));
    if (moved : bool) then Some (w', coins', true)
    else w'' ← set_settled w' i true; Some (w'', coins', any_moved).

(** The body of the loop of [update] for one grain. *)
Definition process_grain (is_flipped : bool)
           (acc : option (world * list bool * bool)) (i : nat)
  : option (world * list bool * bool) :=
  '(w, coins, any_moved) ← acc;
  '(w1, coins1) ← unsettle_check is_flipped w coins i;
  fall is_flipped w1 coins1 any_moved i.

Definition sorted_grains (is_flipped : bool) (w : world) : list nat :=
  if is_flipped then sorted_by (fun i => grain_y w i) (grain_ids w)
  else sorted_by (fun i => - grain_y w i) (grain_ids w).

Definition update_world (is_flipped : bool) (coins : list bool) (w : world)
  : option (world * list bool * bool) :=
  foldl (process_grain is_flipped) (Some (w, coins, false))
        (sorted_grains is_flipped w).

(** [Hourglass.update], with the value it returns. *)
Definition update (coins : list bool) (h : Hourglass) : option (Hourglass * bool) :=
  '(w, _, any_moved) ← update_world (flipped h) coins (hworld h);
  Some (mkHourglass w (frame h + 1) (flipped h), any_moved).

(** [Hourglass.flip] *)
Definition flip (h : Hourglass) : Hourglass :=
  mkHourglass
    (mkWorld (map (fun g => mkGrain (gx g) (gy g) (gcolor g) false) (grains (hworld h)))
             (grid (hworld h)))
    (frame h) (negb (flipped h)).

(** States that the class reaches from construction through its methods. *)
Inductive reachable : Hourglass -> Prop :=
| reach_init variation shuffled h :
    shuffled ≡ₚ get_top_chamber ->
    init variation shuffled = Some h -> reachable h
| reach_fill_top variation shuffled h h' :
    reachable h -> shuffled ≡ₚ get_top_chamber ->
    fill_top variation shuffled h = Some h' -> reachable h'
| reach_fill_bottom variation h h' :
    reachable h -> fill_bottom variation h = Some h' -> reachable h'
| reach_flip h : reachable h -> reachable (flip h)
| reach_update h coins h' moved :
    reachable h -> update coins h = Some (h', moved) -> reachable h'.

(** A grain has a free target when one of the three cells that gravity
    pulls it to can be moved to. *)
Definition free_target (is_flipped : bool) (w : world) (g : SandGrain) : Prop :=
  exists tx ty, (tx, ty) ∈ get_gravity_targets is_flipped false (gx g) (gy g)
                /\ can_move_to w tx ty = Some true.

(** A new hourglass whose top chamber was left in row order and whose
    grains all have the base colour. *)
Definition fresh_hourglass : Hourglass :=
  Eval vm_compute in
    default (mkHourglass empty_world 0 false) (init (fun _ => 0) get_top_chamber).


(** What a tick may do to a grain: it comes to lie settled where it was,
    or it goes one row on in the direction of gravity, in its column or a
    neighbouring one, to a cell of the glass, and is unsettled. *)
Definition glass_rel (is_flipped : bool) (g g' : SandGrain) : Prop :=
  gcolor g' = gcolor g
  /\ ((gx g' = gx g /\ gy g' = gy g /\ settled g' = true)
      \/ (gx g - 1 <= gx g' <= gx g + 1
          /\ gy g' = gy g + (if is_flipped then -1 else 1)
          /\ settled g' = false
          /\ in_range (gx g') (gy g') /\ in_hourglass (gx g') (gy g') = true)).

(** The grain that the filling loop puts on cell [c] as grain number [k]. *)
Definition filled (variation : nat -> Z) (k : nat) (c : Z * Z) : SandGrain :=
  let v := variation k in
  mkGrain c.1 c.2 (clamp255 (255 + v), clamp255 (200 + v), clamp255 (100 + v)) true.

(** There are [SAND_COUNT] grains and each one is on a cell of the glass. *)
Definition in_glass (w : world) : Prop :=
  length (grains w) = SAND_COUNT
  /\ forall i g, grains w !! i = Some g -> in_hourglass (gx g) (gy g) = true.

(** The loop [while stable_frames < 20] of [run_hourglass], the display
    left out; [coins] holds the coins of each tick. The loop has ended in
    a state, or it is still running when the coins run out. *)
Inductive outcome :=
| Finished (h : Hourglass)
| Running (h : Hourglass) (stable_frames : Z).

Fixpoint settle_loop (coins : list (list bool)) (stable_frames : Z) (h : Hourglass)
  : option outcome :=
  if decide (stable_frames < 20) then
    match coins with
    | [] => Some (Running h stable_frames)
    | c :: rest =>
        '(h', moved) ← update c h;
        settle_loop rest (if (moved : bool) then 0 else stable_frames + 1) h'
    end
  else Some (Finished h).

(** The rows that a grain can still go in the direction of gravity, and
    their sum over the grains. *)
Definition remaining (is_flipped : bool) (g : SandGrain) : Z :=
  if is_flipped then gy g else HEIGHT - 1 - gy g.

Definition potential (h : Hourglass) : Z :=
  foldr (fun g acc => remaining (flipped h) g + acc) 0 (grains (hworld h)).

(** Every grain is settled. *)
Definition at_rest (h : Hourglass) : Prop :=
  forall i g, grains (hworld h) !! i = Some g -> settled g = true.

End Hourglass.

(* ===================================================================== *)
(** * Water ripples (water_ripples.py) *)
(* ===================================================================== *)

Module Water.

(** The arithmetic that the solver uses on its numbers: conversion from
    [int], the four operations and [abs]. *)
Class Arith (T : Type) := {
  num : Z -> T;
  add : T -> T -> T;
  sub : T -> T -> T;
  mul : T -> T -> T;
  div : T -> T -> T;
  absv : T -> T
}.

(** Exact arithmetic. *)
#[export] Instance Q_arith : Arith Q :=
  {| num := inject_Z; add := Qplus; sub := Qminus; mul := Qmult; div := Qdiv;
     absv := Qabs |}.

(** IEEE binary64 arithmetic. *)
Definition float_of_Z (z : Z) : float :=
  match z with
  | Z0 => PrimFloat.of_uint63 0
  | Zpos p => PrimFloat.of_uint63 (Uint63.of_pos p)
  | Zneg p => PrimFloat.opp (PrimFloat.of_uint63 (Uint63.of_pos p))
  end.

#[export] Instance float_arith : Arith float :=
  {| num := float_of_Z; add := PrimFloat.add; sub := PrimFloat.sub;
     mul := PrimFloat.mul; div := PrimFloat.div; absv := PrimFloat.abs |}.

Section Solver.
Context {T : Type} `{Arith T}.

(** The constants 0.5 and 0.96: the number nearest to the decimal. *)
Definition WAVE_SPEED : T := div (num 1) (num 2).
Definition DAMPING : T := div (num 96) (num 100).

Record WaterSimulation := mkWater {
  height : list (list T);
  velocity : list (list T)
}.

(** [WaterSimulation.__init__] *)
Definition init : WaterSimulation :=
  mkWater (grid_make 8 8 (num 0)) (grid_make 8 8 (num 0)).

(** [WaterSimulation.drop] *)
Definition drop (x y : Z) (strength : T) (s : WaterSimulation)
  : option WaterSimulation :=
  if decide (in_range x y) then
    h ← grid_set (height s) x y strength;
    Some (mkWater h (velocity s))
  else Some s.

(** The list [neighbors] built for the cell [(x, y)]: a neighbour off the
    grid is replaced by the cell's own height. *)
Definition neighbor_heights (h : list (list T)) (x y : Z) : option (list T) :=
  mapM (fun d : Z * Z =>
          let nx := (x + d.1)%Z in
          let ny := (y + d.2)%Z in
          if decide (in_range nx ny) then grid_get h nx ny
          else grid_get h x y)
       [(-1, 0); (1, 0); (0, -1); (0, 1)]%Z.

(** [sum(l)] *)
Definition py_sum (l : list T) : T := foldl add (num 0) l.

(** The value written to [new_velocity[y][x]]. *)
Definition velocity_cell (s : WaterSimulation) (x y : Z) : option T :=
  neighbors ← neighbor_heights (height s) x y;
  let avg_height := div (py_sum neighbors) (num (Z.of_nat (length neighbors))) in
  own ← grid_get (height s) x y;
  let acceleration := mul (sub avg_height own) WAVE_SPEED in
  v ← grid_get (velocity s) x y;
  Some (mul (add v acceleration) DAMPING).

(** The first pair of loops of [update]: all new velocities, computed
    from the heights as they are at the start of the tick. *)
Definition velocity_pass (s : WaterSimulation) : option (list (list T)) :=
  foldl (fun acc (c : Z * Z) =>
           nv ← acc;
           v ← velocity_cell s c.1 c.2;
           grid_set nv c.1 c.2 v)
        (Some (grid_make 8 8 (num 0))) all_cells.

(** The second pair of loops: [self.height[y][x] += self.velocity[y][x]]. *)
Definition height_pass (h vel : list (list T)) : option (list (list T)) :=
  foldl (fun acc (c : Z * Z) =>
           h ← acc;
           own ← grid_get h c.1 c.2;
           v ← grid_get vel c.1 c.2;
           grid_set h c.1 c.2 (add own v))
        (Some h) all_cells.

(** [WaterSimulation.update] *)
Definition update (s : WaterSimulation) : option WaterSimulation :=
  nv ← velocity_pass s;
  h ← height_pass (height s) nv;
  Some (mkWater h nv).






End Solver.

Arguments WaterSimulation : clear implicits.

(** [max(a, b)] of Python on exact numbers: [b] when [b > a], else [a]. *)
Definition py_max (a b : Q) : Q := if Qlt_le_dec a b then b else a.

(** [WaterSimulation.get_max_height], in exact arithmetic. *)
Definition get_max_height (s : WaterSimulation Q) : option Q :=
  foldl (fun acc (c : Z * Z) =>
           max_h ← acc;
           h ← grid_get (height s) c.1 c.2;
           Some (py_max max_h (Qabs h)))
        (Some 0%Q) all_cells.



(** Two fields whose cells are equal as rationals. *)
Definition grid_eq (a b : list (list Q)) : Prop :=
  Forall2 (Forall2 Qeq) a b.

(** The height and the velocity of a cell, and the height that the loop
    of [update] appends to [neighbors] for the offset [(dx, dy)]. *)
Definition height_at (s : WaterSimulation Q) (x y : Z) : Q :=
  default 0%Q (grid_get (height s) x y).





(** A level surface of height 5 at rest, and two fields in motion. *)
Definition pond : WaterSimulation Q :=
  mkWater (grid_make 8 8 5%Q) (grid_make 8 8 0%Q).


Definition trough : WaterSimulation Q :=
  mkWater (grid_make 8 8 (-3)%Q) (grid_make 8 8 1%Q).

End Water.

(* ===================================================================== *)
(** * The colours of the water (water_ripples.py) *)
(* ===================================================================== *)

Module Colours.
Import Water.

(** Comparison and [int()] on the numbers of the solver; [int()] of a
    number that is not finite raises. *)
Class Order (T : Type) := {
  lt : T -> T -> bool;
  to_int : T -> option Z
}.

#[export] Instance Q_order : Order Q :=
  {| lt := fun a b => if Qlt_le_dec a b then true else false;
     to_int := fun q => Some (Z.quot (Qnum q) (Zpos (Qden q))) |}.

Definition float_to_int (f : float) : option Z :=
  match Prim2SF f with
  | S754_zero _ => Some 0
  | S754_finite s m e =>
      let mag := Z.shiftl (Zpos m) e in Some (if s then - mag else mag)
  | _ => None
  end.

#[export] Instance float_order : Order float :=
  {| lt := PrimFloat.ltb; to_int := float_to_int |}.

Section Palette.
Context {T : Type} `{Arith T} `{Order T}.

Definition BRIGHTNESS : T := div (num 4) (num 10).

(** [min(a, b)] and [max(a, b)] of Python. *)
Definition min2 (a b : T) : T := if lt b a then b else a.
Definition max2 (a b : T) : T := if lt a b then b else a.

(** [h = max(-1, min(1, height / 50))] *)
Definition clamp_height (height : T) : T :=
  max2 (num (-1)) (min2 (num 1) (div height (num 50))).

(** [water_color] *)
Definition water_color (height : T) : option (Z * Z * Z) :=
  let h := clamp_height height in
  if lt h (num 0) then
    let factor := add (num 1) h in
    r ← to_int (mul (num 0) factor);
    g ← to_int (mul (num 50) factor);
    b ← to_int (add (num 150) (mul (num 50) factor));
    Some (r, g, b)
  else
    r ← to_int (mul (num 100) h);
    g ← to_int (add (num 150) (mul (num 100) h));
    b ← to_int (add (num 200) (mul (num 55) h));
    Some (r, g, b).

(** [sunset_water_color] *)
Definition sunset_water_color (height : T) : option (Z * Z * Z) :=
  let h := clamp_height height in
  if lt h (num 0) then
    let factor := add (num 1) h in
    r ← to_int (mul (num 50) factor);
    b ← to_int (add (num 100) (mul (num 50) factor));
    Some (r, 0, b)
  else
    r ← to_int (add (num 150) (mul (num 105) h));
    g ← to_int (add (num 80) (mul (num 80) h));
    b ← to_int (mul (num 50) (sub (num 1) h));
    Some (r, g, b).


(** [dim] *)
Definition dim (color : Z * Z * Z) : option (Z * Z * Z) :=
  let '(r, g, b) := color in
  r' ← to_int (mul (num r) BRIGHTNESS);
  g' ← to_int (mul (num g) BRIGHTNESS);
  b' ← to_int (mul (num b) BRIGHTNESS);
  Some (r', g', b').

End Palette.

(** The three channels are bytes. *)
Definition valid_colour (c : Z * Z * Z) : Prop :=
  0 <= c.1.1 <= 255 /\ 0 <= c.1.2 <= 255 /\ 0 <= c.2 <= 255.

(** [int(q)] of an exact number: truncation towards zero. *)
Definition trunc (q : Q) : Z := Z.quot (Qnum q) (Zpos (Qden q)).

End Colours.

(* ===================================================================== *)
(** * Facts about grids *)
(* ===================================================================== *)

Module GridFacts.
Lemma py_index_nonneg (n : nat) (i : Z) :
  0 <= i < Z.of_nat n -> py_index n i = Some (Z.to_nat i).
Proof. intros H. unfold py_index. by rewrite decide_True. Qed.

Lemma py_get_nonneg {A} (l : list A) (i : Z) :
  0 <= i < Z.of_nat (length l) -> py_get l i = l !! Z.to_nat i.
Proof. intros H. unfold py_get. by rewrite py_index_nonneg. Qed.

Lemma py_set_nonneg {A} (l : list A) (i : Z) v :
  0 <= i < Z.of_nat (length l) -> py_set l i v = Some (<[Z.to_nat i := v]> l).
Proof. intros H. unfold py_set. by rewrite py_index_nonneg. Qed.

Section Facts.
Context {A : Type}.
Implicit Types (g : list (list A)) (l : list A).

Lemma shape_row (w h : nat) g (k : nat) :
grid_shape w h g -> (k < h)%nat -> exists row, g !! k = Some row /\ length row = w.
Proof.
intros [Hl Hr] Hk.
destruct (lookup_lt_is_Some_2 g k) as [row Hrow]; [lia|].
exists row. split; [done|].
by eapply (Forall_lookup_1 _ _ _ _ Hr).
Qed.

Lemma grid_get_in (w h : nat) g (x y : Z) :
grid_shape w h g -> 0 <= x < Z.of_nat w -> 0 <= y < Z.of_nat h ->
exists row, g !! Z.to_nat y = Some row /\ length row = w /\
            grid_get g x y = row !! Z.to_nat x.
Proof.
intros Hs Hx Hy.
destruct (shape_row w h g (Z.to_nat y) Hs) as (row & Hrow & Hlen); [lia|].
exists row. split; [done|]. split; [done|].
unfold grid_get. destruct Hs as [Hl _].
rewrite py_get_nonneg by lia. rewrite Hrow. simpl.
apply py_get_nonneg. lia.
Qed.

Lemma grid_get_is_Some (w h : nat) g (x y : Z) :
grid_shape w h g -> 0 <= x < Z.of_nat w -> 0 <= y < Z.of_nat h ->
is_Some (grid_get g x y).
Proof.
intros Hs Hx Hy.
destruct (grid_get_in w h g x y) as (row & _ & Hlen & ->); [done..|].
apply lookup_lt_is_Some_2. lia.
Qed.

Lemma grid_set_in (w h : nat) g (x y : Z) v :
grid_shape w h g -> 0 <= x < Z.of_nat w -> 0 <= y < Z.of_nat h ->
exists row, g !! Z.to_nat y = Some row /\ length row = w /\
            grid_set g x y v = Some (<[Z.to_nat y := <[Z.to_nat x := v]> row]> g).
Proof.
intros Hs Hx Hy.
destruct (shape_row w h g (Z.to_nat y) Hs) as (row & Hrow & Hlen); [lia|].
exists row. split; [done|]. split; [done|].
unfold grid_set. destruct Hs as [Hl _].
rewrite py_get_nonneg by lia. rewrite Hrow. simpl.
rewrite py_set_nonneg by lia. simpl.
apply py_set_nonneg. lia.
Qed.

Lemma grid_set_shape (w h : nat) g (x y : Z) v g' :
grid_shape w h g -> 0 <= x < Z.of_nat w -> 0 <= y < Z.of_nat h ->
grid_set g x y v = Some g' -> grid_shape w h g'.
Proof.
intros Hs Hx Hy Hset.
destruct (grid_set_in w h g x y v) as (row & Hrow & Hlen & Heq); [done..|].
rewrite Heq in Hset. injection Hset as <-.
destruct Hs as [Hl Hr]. split.
- by rewrite length_insert.
- apply Forall_insert; [done|]. by rewrite length_insert.
Qed.

Lemma grid_get_set (w h : nat) g (x y x' y' : Z) v g' :
grid_shape w h g -> 0 <= x < Z.of_nat w -> 0 <= y < Z.of_nat h ->
0 <= x' < Z.of_nat w -> 0 <= y' < Z.of_nat h ->
grid_set g x y v = Some g' ->
grid_get g' x' y' = if decide (x' = x /\ y' = y) then Some v else grid_get g x' y'.
Proof.
intros Hs Hx Hy Hx' Hy' Hset.
pose proof (grid_set_shape _ _ _ _ _ _ _ Hs Hx Hy Hset) as Hs'.
destruct (grid_set_in w h g x y v) as (row & Hrow & Hlen & Heq); [done..|].
rewrite Heq in Hset. injection Hset as <-.
destruct (grid_get_in w h _ x' y' Hs' Hx' Hy') as (row' & Hrow' & Hlen' & ->).
destruct (grid_get_in w h g x' y' Hs Hx' Hy') as (row0 & Hrow0 & Hlen0 & ->).
destruct (decide (y' = y)) as [->|Hne].
- rewrite list_lookup_insert_eq in Hrow' by (destruct Hs; lia).
  injection Hrow' as <-. assert (row0 = row) as -> by congruence.
  destruct (decide (x' = x)) as [->|Hnx].
  + rewrite decide_True by done. apply list_lookup_insert_eq. lia.
  + rewrite decide_False by tauto. apply list_lookup_insert_ne. lia.
- rewrite decide_False by tauto.
  rewrite list_lookup_insert_ne in Hrow' by lia. congruence.
Qed.

Lemma grid_ext (w h : nat) g1 g2 :
grid_shape w h g1 -> grid_shape w h g2 ->
(forall x y, 0 <= x < Z.of_nat w -> 0 <= y < Z.of_nat h ->
             grid_get g1 x y = grid_get g2 x y) ->
g1 = g2.
Proof.
intros Hs1 Hs2 Hget. apply list_eq. intros j.
destruct (decide (j < h)%nat) as [Hj|Hj].
- destruct (shape_row w h g1 j Hs1 Hj) as (r1 & Hr1 & Hl1).
  destruct (shape_row w h g2 j Hs2 Hj) as (r2 & Hr2 & Hl2).
  rewrite Hr1, Hr2. f_equal. apply list_eq. intros k.
  destruct (decide (k < w)%nat) as [Hk|Hk].
  + specialize (Hget (Z.of_nat k) (Z.of_nat j) ltac:(lia) ltac:(lia)).
    destruct (grid_get_in w h g1 (Z.of_nat k) (Z.of_nat j)) as (r1' & Hr1' & _ & E1); [done|lia|lia|].
    destruct (grid_get_in w h g2 (Z.of_nat k) (Z.of_nat j)) as (r2' & Hr2' & _ & E2); [done|lia|lia|].
    rewrite !Nat2Z.id in *. congruence.
  + rewrite !lookup_ge_None_2; [done|lia|lia].
- destruct Hs1, Hs2. rewrite !lookup_ge_None_2; [done|lia|lia].
Qed.

Lemma grid_make_shape (w h : nat) (v : A) : grid_shape w h (grid_make w h v).
Proof.
split.
- apply length_replicate.
- apply Forall_replicate, length_replicate.
Qed.

Lemma grid_get_make (w h : nat) (v : A) (x y : Z) :
0 <= x < Z.of_nat w -> 0 <= y < Z.of_nat h ->
grid_get (grid_make w h v) x y = Some v.
Proof.
intros Hx Hy.
destruct (grid_get_in w h _ x y (grid_make_shape w h v) Hx Hy) as (row & Hrow & _ & ->).
unfold grid_make in Hrow. apply lookup_replicate in Hrow as [-> _].
apply lookup_replicate_2. lia.
Qed.
End Facts.

(** The same on the 8x8 matrix. *)
Lemma in_range_bounds (x y : Z) :
  in_range x y -> 0 <= x < Z.of_nat 8 /\ 0 <= y < Z.of_nat 8.
Proof. unfold in_range, WIDTH, HEIGHT. lia. Qed.

Lemma get_set8 {A} (g g' : list (list A)) (x y x' y' : Z) (v : A) :
  shape8 g -> in_range x y -> in_range x' y' -> grid_set g x y v = Some g' ->
  grid_get g' x' y' = if decide (x' = x /\ y' = y) then Some v else grid_get g x' y'.
Proof.
  intros Hs [Hx Hy]%in_range_bounds [Hx' Hy']%in_range_bounds.
  by apply (grid_get_set 8 8).
Qed.

Lemma set8 {A} (g : list (list A)) (x y : Z) (v : A) :
  shape8 g -> in_range x y -> exists g', grid_set g x y v = Some g' /\ shape8 g'.
Proof.
  intros Hs [Hx Hy]%in_range_bounds.
  destruct (grid_set_in 8 8 g x y v Hs Hx Hy) as (row & _ & _ & Hset).
  eexists. split; [exact Hset|]. exact (grid_set_shape 8 8 g _ _ _ _ Hs Hx Hy Hset).
Qed.

Lemma get8 {A} (g : list (list A)) (x y : Z) :
  shape8 g -> in_range x y -> is_Some (grid_get g x y).
Proof. intros Hs [Hx Hy]%in_range_bounds. by apply (grid_get_is_Some 8 8). Qed.
End GridFacts.
Import GridFacts.

(* ===================================================================== *)
(** * Game of Life: the step is the rule of Life *)
(* ===================================================================== *)

Module LifeFacts.
Import Life.

Lemma range8_elem (x : Z) : x ∈ range8 <-> 0 <= x < 8.
Proof.
  unfold range8. rewrite list_elem_of_fmap. split.
  - intros (k & -> & Hk). apply elem_of_seq in Hk. lia.
  - intros H. exists (Z.to_nat x). split; [lia|]. apply elem_of_seq. lia.
Qed.

Lemma all_cells_elem (x y : Z) : (x, y) ∈ all_cells <-> in_range x y.
Proof.
  unfold all_cells, in_range, WIDTH, HEIGHT.
  rewrite list_elem_of_In, in_concat. setoid_rewrite <- list_elem_of_In. split.
  - intros (l & Hl & Hxy). apply list_elem_of_fmap in Hl as (y' & -> & Hy').
    apply list_elem_of_fmap in Hxy as (x' & [= -> ->] & Hx').
    apply range8_elem in Hx', Hy'. lia.
  - intros [Hx Hy]. exists (map (fun x => (x, y)) range8). split.
    + apply list_elem_of_fmap. exists y. split; [done|]. by apply range8_elem.
    + apply list_elem_of_fmap. exists x. split; [done|]. by apply range8_elem.
Qed.

Lemma wrap_in_range (x y : Z) : in_range (x `mod` WIDTH) (y `mod` HEIGHT).
Proof. unfold in_range, WIDTH, HEIGHT. split; apply Z.mod_pos_bound; lia. Qed.

Lemma grid_get_cell (g : list (list Z)) (x y : Z) :
  shape8 g -> in_range x y -> grid_get g x y = Some (cell g x y).
Proof.
  intros Hs [Hx Hy]. unfold cell.
  destruct (grid_get_is_Some 8 8 g x y Hs) as [c Hc]; [done..|].
  by rewrite Hc.
Qed.

Lemma count_fold (g : list (list Z)) (x y : Z) (offs : list (Z * Z)) (a : Z) :
  shape8 g ->
  foldl (fun acc d =>
           count ← acc;
           let '(dx, dy) := d in
           let nx := (x + dx) `mod` WIDTH in
           let ny := (y + dy) `mod` HEIGHT in
           c ← grid_get g nx ny;
           Some (count + c))
        (Some a) offs
  = Some (a + count_val g x y offs).
Proof.
  intros Hs. revert a. induction offs as [|[dx dy] offs IH]; intros a; simpl.
  - f_equal. lia.
  - rewrite grid_get_cell by auto using wrap_in_range. simpl.
    rewrite IH. f_equal. lia.
Qed.

Lemma count_neighbors_val (g : list (list Z)) (x y : Z) :
  shape8 g -> count_neighbors g x y = Some (count_val g x y neighbor_offsets).
Proof. intros Hs. unfold count_neighbors. by rewrite count_fold. Qed.

Lemma next_cell_val (g : list (list Z)) (x y : Z) :
  shape8 g -> in_range x y -> next_cell g x y = Some (next_val g x y).
Proof.
  intros Hs Hr. unfold next_cell, next_val.
  rewrite count_neighbors_val by done. simpl.
  rewrite grid_get_cell by done. simpl.
  by destruct (decide (cell g x y <> 0)).
Qed.

Lemma sum_vals_perm (g : list (list Z)) (o1 o2 : list (Z * Z)) :
  o1 ≡ₚ o2 -> sum_vals g o1 = sum_vals g o2.
Proof.
  induction 1 as [|c l l' _ IH|c d l|l l' l'' _ IH1 _ IH2]; simpl; lia.
Qed.

Lemma step_fold (g : list (list Z)) (order : list (Z * Z)) :
  shape8 g -> Forall (fun c => in_range c.1 c.2) order ->
  forall ng p, shape8 ng ->
  exists ng', foldl (step_cell g) (Some (ng, p)) order = Some (ng', p + sum_vals g order)
    /\ shape8 ng'
    /\ forall x y, in_range x y ->
         grid_get ng' x y = if decide ((x, y) ∈ order) then Some (next_val g x y)
                            else grid_get ng x y.
Proof.
  intros Hs Hall. induction Hall as [|[cx cy] order Hc Hall IH]; intros ng p Hng.
  - exists ng. split; [simpl; by rewrite Z.add_0_r|]. split; [done|].
    intros x y _. case_decide as Hin; [by apply elem_of_nil in Hin|done].
  - simpl in Hc. destruct Hc as [Hcx Hcy].
    destruct (grid_set_in 8 8 ng cx cy (next_val g cx cy) Hng) as (row & _ & _ & Hset); [done..|].
    set (ng1 := <[Z.to_nat cy:=<[Z.to_nat cx:=next_val g cx cy]> row]> ng) in *.
    assert (shape8 ng1) as Hng1 by (eapply (grid_set_shape 8 8 ng cx cy); eauto).
    destruct (IH ng1 (p + next_val g cx cy) Hng1) as (ng' & Hfold & Hs' & Hget).
    exists ng'. split; [|split; [done|]].
    + simpl. rewrite next_cell_val by done. simpl. rewrite Hset. simpl.
      rewrite Hfold. do 2 f_equal. lia.
    + intros x y Hxy. rewrite Hget by done.
      destruct (decide ((x, y) ∈ order)) as [Hin|Hnin].
      * rewrite decide_True; [done|]. by apply list_elem_of_further.
      * rewrite (grid_get_set 8 8 ng cx cy x y (next_val g cx cy) ng1 Hng Hcx Hcy (proj1 Hxy) (proj2 Hxy) Hset).
        destruct (decide (x = cx /\ y = cy)) as [[-> ->]|Hne].
        -- rewrite decide_True; [done|]. apply list_elem_of_here.
        -- rewrite decide_False; [done|].
           intros Hin. apply elem_of_cons in Hin as [[= -> ->]|Hin]; tauto.
Qed.

Lemma cell_binary (g : list (list Z)) (x y : Z) :
  shape8 g -> grid_binary g -> in_range x y -> cell g x y = 0 \/ cell g x y = 1.
Proof.
  intros Hs Hb [Hx Hy]. unfold cell.
  destruct (grid_get_in 8 8 g x y Hs Hx Hy) as (row & Hrow & Hlen & ->).
  destruct (lookup_lt_is_Some_2 row (Z.to_nat x)) as [c Hc]; [unfold WIDTH in Hx; lia|].
  rewrite Hc. simpl.
  eapply Forall_lookup_1 in Hb; [|exact Hrow].
  by eapply Forall_lookup_1 in Hb; [|exact Hc].
Qed.

Lemma alive_cell (g : list (list Z)) (x y : Z) :
  shape8 g -> in_range x y -> alive g x y = negb (cell g x y =? 0).
Proof. intros Hs Hr. unfold alive. by rewrite grid_get_cell. Qed.

Lemma count_val_live (g : list (list Z)) (x y : Z) (offs : list (Z * Z)) :
  shape8 g -> grid_binary g ->
  count_val g x y offs
  = Z.of_nat (length (filter (fun c : Z * Z => alive g c.1 c.2 = true)
                (map (fun d : Z * Z => ((x + d.1) `mod` WIDTH, (y + d.2) `mod` HEIGHT)) offs))).
Proof.
  intros Hs Hb. induction offs as [|[dx dy] offs IH]; [done|].
  simpl. rewrite IH. rewrite filter_cons. simpl.
  pose proof (wrap_in_range (x + dx) (y + dy)) as Hr.
  rewrite alive_cell by done.
  destruct (cell_binary g _ _ Hs Hb Hr) as [-> | ->]; simpl;
    repeat case_decide; simpl; (done || lia).
Qed.

Lemma next_val_rule (g : list (list Z)) (x y : Z) :
  shape8 g -> grid_binary g -> in_range x y ->
  next_val g x y = if life_rule g x y then 1 else 0.
Proof.
  intros Hs Hb Hr. unfold next_val, life_rule, live_neighbors, toroidal_neighbors.
  replace neighbor_offsets
    with [(-1, -1); (0, -1); (1, -1); (-1, 0); (1, 0); (-1, 1); (0, 1); (1, 1)]
    by reflexivity.
  rewrite count_val_live by done. rewrite alive_cell by done.
  set (n := length _).
  destruct (cell_binary g x y Hs Hb Hr) as [-> | ->]; simpl.
  - case_decide; destruct (Nat.eqb_spec n 3); (done || lia).
  - case_decide; destruct (Nat.eqb_spec n 2); destruct (Nat.eqb_spec n 3);
      simpl; (done || lia).
Qed.

Lemma perm_all_in_range (order : list (Z * Z)) :
  order ≡ₚ all_cells -> Forall (fun c => in_range c.1 c.2) order.
Proof.
  intros Hp. apply Forall_forall. intros [x y] Hin. simpl.
  apply all_cells_elem. by rewrite <- Hp.
Qed.

Lemma step_cells_perm (g : list (list Z)) (order : list (Z * Z)) :
  shape8 g -> order ≡ₚ all_cells ->
  exists ng, step_cells order g = Some (ng, sum_vals g all_cells)
    /\ shape8 ng
    /\ forall x y, in_range x y -> grid_get ng x y = Some (next_val g x y).
Proof.
  intros Hs Hp.
  destruct (step_fold g order Hs (perm_all_in_range order Hp) (grid_make 8 8 0) 0)
    as (ng & Hfold & Hng & Hget); [apply grid_make_shape|].
  exists ng. split; [|split; [done|]].
  - unfold step_cells. rewrite Hfold, Z.add_0_l, (sum_vals_perm g _ _ Hp). reflexivity.
  - intros x y Hxy. rewrite Hget by done. rewrite decide_True; [done|].
    rewrite Hp. by apply all_cells_elem.
Qed.

(** C1. On every 8x8 grid of 0/1 cells [GameOfLife.step] returns, and the
    grid it installs is the rule of Life computed from the input grid: the
    cell at (x, y) is 1 when [life_rule] holds there (alive with 2 or 3
    live toroidal neighbours, or dead with exactly 3) and 0 otherwise.
    The grid and the population are the same for every order in which the
    64 cells are evaluated. *)
Theorem step_is_life_rule (s : GameOfLife) :
  shape8 (grid s) -> grid_binary (grid s) ->
  exists s', step s = Some s'
    /\ shape8 (grid s')
    /\ (forall x y, in_range x y ->
          grid_get (grid s') x y = Some (if life_rule (grid s) x y then 1 else 0))
    /\ (forall x y, in_range x y -> alive (grid s') x y = life_rule (grid s) x y)
    /\ (forall order, order ≡ₚ all_cells ->
          step_cells order (grid s) = Some (grid s', population s')).
Proof.
  intros Hs Hb.
  destruct (step_cells_perm (grid s) all_cells Hs) as (ng & Hstep & Hng & Hget); [done|].
  assert (forall x y, in_range x y ->
            grid_get ng x y = Some (if life_rule (grid s) x y then 1 else 0)) as Hrule.
  { intros x y Hxy. rewrite Hget by done. by rewrite next_val_rule. }
  eexists. split; [unfold step; rewrite Hstep; reflexivity|]. simpl.
  split; [done|]. split; [done|]. split.
  - intros x y Hxy. unfold alive at 1. rewrite Hrule by done.
    by destruct (life_rule (grid s) x y).
  - intros order Hp.
    destruct (step_cells_perm (grid s) order Hs Hp) as (ng2 & Hstep2 & Hng2 & Hget2).
    rewrite Hstep2. do 2 f_equal.
    apply (grid_ext 8 8); [done..|].
    intros x y Hx Hy. rewrite Hget, Hget2; done.
Qed.

Lemma step_is_life_rule_witness :
  shape8 (grid blinker_state) /\ grid_binary (grid blinker_state)
  /\ exists s', step blinker_state = Some s'
    /\ shape8 (grid s')
    /\ (forall x y, in_range x y ->
          grid_get (grid s') x y
          = Some (if life_rule (grid blinker_state) x y then 1 else 0))
    /\ (forall x y, in_range x y ->
          alive (grid s') x y = life_rule (grid blinker_state) x y)
    /\ (forall order, order ≡ₚ all_cells ->
          step_cells order (grid blinker_state) = Some (grid s', population s')).
Proof.
  assert (shape8 (grid blinker_state)) as Hs
    by (apply (bool_decide_unpack _); vm_compute; exact I).
  assert (grid_binary (grid blinker_state)) as Hb
    by (apply (bool_decide_unpack _); vm_compute; exact I).
  exact (conj Hs (conj Hb (step_is_life_rule blinker_state Hs Hb))).
Defined.

Lemma tabulate_shape (f : Z -> Z -> Z) : shape8 (tabulate f).
Proof. split; [reflexivity|]. repeat constructor. Qed.

Lemma tabulate_get (f : Z -> Z -> Z) (x y : Z) :
  in_range x y -> grid_get (tabulate f) x y = Some (f x y).
Proof.
  intros [Hx Hy]. unfold WIDTH, HEIGHT in *.
  assert (Hcx : x = 0 \/ x = 1 \/ x = 2 \/ x = 3 \/ x = 4 \/ x = 5 \/ x = 6 \/ x = 7) by lia.
  assert (Hcy : y = 0 \/ y = 1 \/ y = 2 \/ y = 3 \/ y = 4 \/ y = 5 \/ y = 6 \/ y = 7) by lia.
  clear Hx Hy.
  destruct Hcx as [-> | [-> | [-> | [-> | [-> | [-> | [-> | ->]]]]]]];
    destruct Hcy as [-> | [-> | [-> | [-> | [-> | [-> | [-> | ->]]]]]]];
    reflexivity.
Qed.

Lemma tabulate_concat (f : Z -> Z -> Z) :
  concat (tabulate f) = map (fun c : Z * Z => f c.1 c.2) all_cells.
Proof.
  unfold tabulate, all_cells. generalize range8 at 2 4 as ys.
  induction ys as [|y ys IH]; [reflexivity|].
  cbn [map concat]. rewrite map_app, IH, map_map. reflexivity.
Qed.

Lemma live_count_sum (l : list Z) :
  Forall (fun v => v = 0 \/ v = 1) l ->
  Z.of_nat (length (filter (fun c => c <> 0) l)) = foldr Z.add 0 l.
Proof.
  induction 1 as [|v l [-> | ->] _ IH]; [done|..]; rewrite filter_cons;
    case_decide; try done; cbn [length foldr]; lia.
Qed.

Lemma next_val_binary (g : list (list Z)) (x y : Z) :
  next_val g x y = 0 \/ next_val g x y = 1.
Proof. unfold next_val. repeat case_decide; auto. Qed.

Lemma sum_vals_foldr (g : list (list Z)) (order : list (Z * Z)) :
  sum_vals g order = foldr Z.add 0 (map (fun c : Z * Z => next_val g c.1 c.2) order).
Proof. induction order as [|c order IH]; [done|]. simpl. by rewrite <- IH. Qed.

(** After a [step], [is_dead] tells whether the grid is empty. *)
Lemma is_dead_after_step (s s' : GameOfLife) :
  shape8 (grid s) -> step s = Some s' ->
  (is_dead s' = true <-> live_cells (grid s') = 0%nat).
Proof.
  intros Hs Hstep.
  destruct (step_cells_perm (grid s) all_cells Hs) as (ng & Hcells & Hng & Hget); [done|].
  unfold step in Hstep. rewrite Hcells in Hstep.
  cbn [mbind option_bind] in Hstep. apply (inj Some) in Hstep as <-.
  assert (ng = tabulate (next_val (grid s))) as ->.
  { apply (grid_ext 8 8); [done|apply tabulate_shape|].
    intros x y Hx Hy. rewrite Hget, tabulate_get; done. }
  unfold is_dead, live_cells. cbn [population grid].
  rewrite sum_vals_foldr, tabulate_concat, <- live_count_sum.
  - rewrite bool_decide_eq_true. lia.
  - apply Forall_forall. intros v Hv. apply list_elem_of_fmap in Hv as (c & -> & _).
    apply next_val_binary.
Qed.


(** C5. Right after [load_pattern] of the glider on a new game the grid
    has five live cells and [is_dead] answers true: [population] is only
    written by [step]. *)
Theorem is_dead_after_load_pattern :
  exists s, glider_game = Some s
    /\ live_cells (grid s) = 5%nat
    /\ is_dead s = true.
Proof.
  eexists. split; [vm_compute; reflexivity|]. split; reflexivity.
Qed.
End LifeFacts.

(* ===================================================================== *)
(** * Langton's Ant: steps and bounds *)
(* ===================================================================== *)

Module AntFacts.
Import Ant.

Lemma turn_right_ok d : 0 <= turn_right d < 4.
Proof. unfold turn_right. apply Z.mod_pos_bound. lia. Qed.

Lemma turn_left_ok d : 0 <= turn_left d < 4.
Proof. unfold turn_left. apply Z.mod_pos_bound. lia. Qed.

Lemma directions_get (d : Z) :
  0 <= d < 4 ->
  exists dx dy, py_get DIRECTIONS d = Some (dx, dy)
    /\ DIRECTIONS !! Z.to_nat d = Some (dx, dy)
    /\ ((dx = 0 /\ (dy = -1 \/ dy = 1)) \/ (dy = 0 /\ (dx = -1 \/ dx = 1))).
Proof.
  intros Hd.
  assert (d = 0 \/ d = 1 \/ d = 2 \/ d = 3) as [-> | [-> | [-> | ->]]] by lia;
    eexists _, _; (split; [reflexivity|]); (split; [reflexivity|]); lia.
Qed.

Lemma move_in_range (wrap : bool) (a : Ant) :
  ant_in_range a -> facing_ok a ->
  exists a', move wrap a = Ok a' /\ ant_in_range a' /\ facing_ok a'
             /\ color a' = color a /\ steps a' = steps a + 1.
Proof.
  intros [Hx Hy] Hd. unfold move.
  destruct (directions_get (direction a) Hd) as (dx & dy & -> & _ & Hdir). simpl.
  destruct wrap.
  - eexists. split; [reflexivity|]. unfold ant_in_range, facing_ok, in_range. simpl.
    unfold WIDTH, HEIGHT.
    pose proof (Z.mod_pos_bound (x a + dx) 8). pose proof (Z.mod_pos_bound (y a + dy) 8).
    unfold facing_ok in Hd. repeat split; (done || lia).
  - unfold WIDTH, HEIGHT in *.
    pose proof (turn_right_ok (turn_right (direction a))).
    pose proof (turn_right_ok (turn_right (turn_right (turn_right (direction a))))).
    unfold facing_ok in Hd.
    repeat case_decide; eexists; (split; [reflexivity|]);
      unfold ant_in_range, facing_ok, in_range, WIDTH, HEIGHT; simpl;
      repeat split; (done || lia).
Qed.

Lemma move_wrap (a : Ant) :
  facing_ok a ->
  exists dx dy, DIRECTIONS !! Z.to_nat (direction a) = Some (dx, dy) /\
    move true a = Ok (mkAnt ((x a + dx) `mod` WIDTH) ((y a + dy) `mod` HEIGHT)
                            (direction a) (color a) (steps a + 1)).
Proof.
  intros Hd. unfold move.
  destruct (directions_get (direction a) Hd) as (dx & dy & -> & Hl & _).
  by exists dx, dy.
Qed.

Lemma string_get_lt (s : string) (k : nat) :
  (k < String.length s)%nat -> is_Some (String.get k s).
Proof.
  revert k. induction s as [|c s IH]; intros k Hk; simpl in *; [lia|].
  destruct k; [eauto|]. apply IH. lia.
Qed.

Lemma str_get_in (s : string) (i : Z) :
  0 <= i < Z.of_nat (String.length s) -> is_Some (str_get s i).
Proof.
  intros Hi. unfold str_get. rewrite py_index_nonneg by done. simpl.
  apply string_get_lt. lia.
Qed.

Lemma cells_below_get (n : Z) (g : list (list Z)) (cx cy c : Z) :
  shape8 g -> cells_below n g -> in_range cx cy ->
  grid_get g cx cy = Some c -> 0 <= c < n.
Proof.
  intros Hs Hb [Hx Hy] Hget.
  destruct (grid_get_in 8 8 g cx cy Hs Hx Hy) as (row & Hrow & _ & Heq).
  rewrite Heq in Hget.
  eapply Forall_lookup_1 in Hb; [|exact Hrow].
  by eapply Forall_lookup_1 in Hb; [|exact Hget].
Qed.

Lemma cells_below_set (n : Z) (g g' : list (list Z)) (cx cy v : Z) :
  shape8 g -> cells_below n g -> in_range cx cy -> 0 <= v < n ->
  grid_set g cx cy v = Some g' -> cells_below n g'.
Proof.
  intros Hs Hb [Hx Hy] Hv Hset.
  destruct (grid_set_in 8 8 g cx cy v Hs Hx Hy) as (row & Hrow & _ & Heq).
  rewrite Heq in Hset. injection Hset as <-.
  apply Forall_insert; [done|]. apply Forall_insert; [|done].
  by eapply Forall_lookup_1 in Hb; [|exact Hrow].
Qed.

Lemma classic_step_ok (wrap : bool) (g : list (list Z)) (a : Ant) :
  shape8 g -> ant_in_range a -> facing_ok a ->
  exists g' a', classic_step wrap g a = Ok (g', a')
    /\ shape8 g' /\ ant_in_range a' /\ facing_ok a'.
Proof.
  intros Hs Hr Hd. unfold classic_step.
  destruct Hr as [Hx Hy].
  destruct (grid_get_is_Some 8 8 g (x a) (y a) Hs Hx Hy) as [c Hc].
  rewrite Hc. simpl.
  set (dv := if decide (c = 0) then _ else _).
  assert (0 <= dv.1 < 4) as Hdv.
  { subst dv. case_decide; simpl; auto using turn_right_ok, turn_left_ok. }
  destruct dv as [d v]. simpl in Hdv.
  destruct (grid_set_in 8 8 g (x a) (y a) v Hs Hx Hy) as (row & _ & _ & Hset).
  rewrite Hset. simpl.
  destruct (move_in_range wrap (mkAnt (x a) (y a) d (color a) (steps a)))
    as (a' & -> & Hr' & Hd' & _); [done..|].
  simpl. eexists _, _. split; [reflexivity|]. split; [|done].
  exact (grid_set_shape 8 8 g _ _ _ _ Hs Hx Hy Hset).
Qed.

Lemma multi_loop_ok (wrap : bool) (todo : list Ant) :
  forall g, shape8 g -> Forall (fun a => ant_in_range a /\ facing_ok a) todo ->
  exists g' l, multi_loop wrap g todo = Ok (g', l)
    /\ shape8 g' /\ Forall (fun a => ant_in_range a /\ facing_ok a) l.
Proof.
  induction todo as [|a rest IH]; intros g Hs Hall.
  - exists g, []. split; [done|]. split; [done|]. constructor.
  - apply Forall_cons in Hall as [[Hr Hd] Hall]. simpl.
    destruct (classic_step_ok wrap g a Hs Hr Hd) as (g1 & a1 & -> & Hs1 & Hr1 & Hd1).
    simpl. destruct (IH g1 Hs1 Hall) as (g2 & l & -> & Hs2 & Hl). simpl.
    exists g2, (a1 :: l). split; [done|]. split; [done|]. by apply Forall_cons.
Qed.

(** C6. In a well-formed [ExtendedAnt] state (rule string of length
    n >= 1, paint states in [0, n), ant on the grid, facing d in [0, 4))
    one [step] in toroidal mode reads the paint state under the ant, turns
    to (d + 1) mod 4 when the rule symbol of that state is R and to
    (d - 1) mod 4 otherwise, sets that one cell to (state + 1) mod n, and
    moves the ant one cell in the new facing with both coordinates taken
    modulo the grid size. *)
Theorem extended_step_spec (s : ExtendedAnt) :
  extended_wf s ->
  let a := e_ant s in
  let n := num_states s in
  exists state rule g' dx dy,
    grid_get (e_grid s) (x a) (y a) = Some state
    /\ str_get (rules s) state = Some rule
    /\ let d' := if Ascii.eqb rule "R" then (direction a + 1) `mod` 4
                 else (direction a - 1) `mod` 4 in
       DIRECTIONS !! Z.to_nat d' = Some (dx, dy)
    /\ grid_set (e_grid s) (x a) (y a) ((state + 1) `mod` n) = Some g'
    /\ (forall x' y', in_range x' y' ->
          grid_get g' x' y' = if decide (x' = x a /\ y' = y a)
                              then Some ((state + 1) `mod` n)
                              else grid_get (e_grid s) x' y')
    /\ extended_step WRAP_EDGES s
       = Ok (mkExtended (rules s) n g'
               (mkAnt ((x a + dx) `mod` WIDTH) ((y a + dy) `mod` HEIGHT) d'
                      (color a) (steps a + 1))).
Proof.
  intros (Hs & [Hx Hy] & Hd & Hn & Hn1 & Hb) a n. subst a n.
  destruct (grid_get_is_Some 8 8 _ _ _ Hs Hx Hy) as [state Hstate].
  pose proof (cells_below_get _ _ _ _ _ Hs Hb (conj Hx Hy) Hstate) as Hrange.
  destruct (str_get_in (rules s) state) as [rule Hrule]; [lia|].
  set (d' := if Ascii.eqb rule "R" then (direction (e_ant s) + 1) `mod` 4
             else (direction (e_ant s) - 1) `mod` 4).
  assert (0 <= d' < 4) as Hd'.
  { subst d'. destruct (Ascii.eqb rule "R"); apply Z.mod_pos_bound; lia. }
  destruct (grid_set_in 8 8 _ _ _ ((state + 1) `mod` num_states s) Hs Hx Hy)
    as (row & _ & _ & Hset).
  destruct (move_wrap (mkAnt (x (e_ant s)) (y (e_ant s)) d' (color (e_ant s))
                             (steps (e_ant s)))) as (dx & dy & Hdir & Hmove); [done|].
  simpl in Hdir, Hmove.
  eexists state, rule, _, dx, dy.
  split; [done|]. split; [done|]. fold d'. split; [done|]. split; [exact Hset|]. split.
  - intros x' y' [Hx' Hy'].
    by apply (grid_get_set 8 8 (e_grid s) _ _ x' y' _ _ Hs Hx Hy Hx' Hy').
  - unfold extended_step. rewrite Hstate. simpl. rewrite Hrule. simpl.
    unfold py_mod. rewrite decide_False by lia. simpl. rewrite Hset. simpl.
    unfold WRAP_EDGES. fold (turn_right (direction (e_ant s))).
    fold (turn_left (direction (e_ant s))).
    unfold turn_right, turn_left. fold d'. rewrite Hmove. reflexivity.
Qed.

Lemma constructed_wf (r : string) :
  (1 <= String.length r)%nat -> extended_wf (constructed r).
Proof.
  intros Hr. unfold extended_wf, constructed. simpl.
  split; [apply grid_make_shape|].
  split; [unfold ant_in_range, in_range; split_and!; by vm_compute|].
  split; [unfold facing_ok; simpl; lia|].
  split; [done|]. split; [lia|].
  apply Forall_replicate, Forall_replicate. lia.
Qed.

Lemma extended_step_spec_witness :
  extended_wf (constructed "LLRR")
  /\ exists state rule g' dx dy,
    grid_get (e_grid (constructed "LLRR")) 4 4 = Some state
    /\ str_get "LLRR" state = Some rule
    /\ let d' := if Ascii.eqb rule "R" then (0 + 1) `mod` 4 else (0 - 1) `mod` 4 in
       DIRECTIONS !! Z.to_nat d' = Some (dx, dy)
    /\ grid_set (e_grid (constructed "LLRR")) 4 4 ((state + 1) `mod` 4) = Some g'
    /\ (forall x' y', in_range x' y' ->
          grid_get g' x' y' = if decide (x' = 4 /\ y' = 4)
                              then Some ((state + 1) `mod` 4)
                              else grid_get (e_grid (constructed "LLRR")) x' y')
    /\ extended_step WRAP_EDGES (constructed "LLRR")
       = Ok (mkExtended "LLRR" 4 g'
               (mkAnt ((4 + dx) `mod` WIDTH) ((4 + dy) `mod` HEIGHT) d'
                      ANT_COLOR (0 + 1))).
Proof.
  assert (extended_wf (constructed "LLRR")) as Hwf
    by (apply constructed_wf; simpl; lia).
  exact (conj Hwf (extended_step_spec (constructed "LLRR") Hwf)).
Defined.

Lemma extended_step_ok (wrap : bool) (s : ExtendedAnt) :
  extended_wf s -> exists s', extended_step wrap s = Ok s' /\ extended_wf s'.
Proof.
  intros (Hs & [Hx Hy] & Hd & Hn & Hn1 & Hb).
  destruct (grid_get_is_Some 8 8 _ _ _ Hs Hx Hy) as [state Hstate].
  pose proof (cells_below_get _ _ _ _ _ Hs Hb (conj Hx Hy) Hstate) as Hrange.
  destruct (str_get_in (rules s) state) as [rule Hrule]; [lia|].
  set (d' := if Ascii.eqb rule "R" then turn_right (direction (e_ant s))
             else turn_left (direction (e_ant s))).
  assert (0 <= d' < 4) as Hd'.
  { subst d'. destruct (Ascii.eqb rule "R"); auto using turn_right_ok, turn_left_ok. }
  assert (0 <= (state + 1) `mod` num_states s < num_states s) as Hv
    by (apply Z.mod_pos_bound; lia).
  destruct (grid_set_in 8 8 _ _ _ ((state + 1) `mod` num_states s) Hs Hx Hy)
    as (row & _ & _ & Hset).
  destruct (move_in_range wrap (mkAnt (x (e_ant s)) (y (e_ant s)) d' (color (e_ant s))
                                      (steps (e_ant s))))
    as (a' & Hmove & Hr' & Hf' & _); [done..|].
  eexists. split.
  - unfold extended_step. rewrite Hstate. simpl. rewrite Hrule. simpl.
    unfold py_mod. rewrite decide_False by lia. simpl. rewrite Hset. simpl.
    fold d'. rewrite Hmove. reflexivity.
  - unfold extended_wf. simpl.
    split; [exact (grid_set_shape 8 8 _ _ _ _ _ Hs Hx Hy Hset)|].
    split; [done|]. split; [done|]. split; [done|]. split; [done|].
    exact (cells_below_set _ _ _ _ _ _ Hs Hb (conj Hx Hy) Hv Hset).
Qed.

(** C9. In both modes of [WRAP_EDGES], [Ant.move] from a cell of the grid
    with any of the four facings returns an ant that is on the grid again
    (and faces one of the four directions). So the three simulations keep
    their ants on the grid: from a well-formed state each [step] returns,
    its grid subscripts are the in-range coordinates of an ant, and the
    state it returns is well-formed again. *)
Theorem ant_stays_on_grid (wrap : bool) :
  (forall a, ant_in_range a -> facing_ok a ->
     exists a', move wrap a = Ok a' /\ ant_in_range a' /\ facing_ok a')
  /\ (forall s, langton_wf s ->
        exists s', langton_step wrap s = Ok s' /\ langton_wf s')
  /\ (forall s, extended_wf s ->
        exists s', extended_step wrap s = Ok s' /\ extended_wf s')
  /\ (forall s, multi_wf s ->
        exists s', multi_step wrap s = Ok s' /\ multi_wf s').
Proof.
  split; [|split; [|split]].
  - intros a Hr Hf.
    destruct (move_in_range wrap a Hr Hf) as (a' & Hm & Hr' & Hf' & _). eauto.
  - intros s (Hs & Hr & Hf).
    destruct (classic_step_ok wrap _ _ Hs Hr Hf) as (g' & a' & Hstep & Hs' & Hr' & Hf').
    eexists. split; [unfold langton_step; rewrite Hstep; reflexivity|].
    by split_and!.
  - apply extended_step_ok.
  - intros s [Hs Hall].
    destruct (multi_loop_ok wrap (ants s) _ Hs Hall) as (g' & l & Hloop & Hs' & Hall').
    eexists. split; [unfold multi_step; rewrite Hloop; reflexivity|]. by split.
Qed.

Lemma ant_stays_on_grid_witness :
  (ant_in_range corner_ant /\ facing_ok corner_ant
   /\ exists a', move false corner_ant = Ok a' /\ ant_in_range a' /\ facing_ok a')
  /\ (langton_wf (mkLangton (grid_make 8 8 0) corner_ant [])
      /\ exists s', langton_step false (mkLangton (grid_make 8 8 0) corner_ant []) = Ok s'
                    /\ langton_wf s')
  /\ (extended_wf (constructed "RL")
      /\ exists s', extended_step false (constructed "RL") = Ok s' /\ extended_wf s')
  /\ (multi_wf (mkMulti (grid_make 8 8 0) [corner_ant; far_corner_ant])
      /\ exists s', multi_step false (mkMulti (grid_make 8 8 0)
                                             [corner_ant; far_corner_ant]) = Ok s'
                    /\ multi_wf s').
Proof.
  destruct (ant_stays_on_grid false) as (Hmove & Hlangton & Hextended & Hmulti).
  assert (ant_in_range corner_ant /\ facing_ok corner_ant) as [Hr Hf]
    by (unfold ant_in_range, facing_ok, in_range, WIDTH, HEIGHT; simpl; lia).
  assert (ant_in_range far_corner_ant /\ facing_ok far_corner_ant) as [Hr2 Hf2]
    by (unfold ant_in_range, facing_ok, in_range, WIDTH, HEIGHT; simpl; lia).
  assert (langton_wf (mkLangton (grid_make 8 8 0) corner_ant [])) as Hwl
    by (split; [apply grid_make_shape|by split]).
  assert (extended_wf (constructed "RL")) as Hwe
    by (apply constructed_wf; simpl; lia).
  assert (multi_wf (mkMulti (grid_make 8 8 0) [corner_ant; far_corner_ant])) as Hwm
    by (split; [apply grid_make_shape|by repeat constructor]).
  split; [exact (conj Hr (conj Hf (Hmove corner_ant Hr Hf)))|].
  split; [exact (conj Hwl (Hlangton _ Hwl))|].
  split; [exact (conj Hwe (Hextended _ Hwe))|].
  exact (conj Hwm (Hmulti _ Hwm)).
Defined.

(** C8, as the code has it. [ExtendedAnt.__init__] validates nothing: it
    returns a simulation for every rule string. With the empty string the
    first [step] raises IndexError; with any other string the first [step]
    returns, and the ant (which starts facing UP) faces RIGHT when the
    first symbol is R and LEFT for every other symbol. *)
Theorem extended_init_validates_nothing :
  (forall r, extended_init r = Ok (constructed r))
  /\ (forall wrap, extended_step wrap (constructed "") = Raise IndexError)
  /\ (forall wrap c r,
        exists s', extended_step wrap (constructed (String c r)) = Ok s'
          /\ direction (e_ant s') = if Ascii.eqb c "R" then 1 else 3).
Proof.
  split; [done|]. split; [done|].
  intros wrap c r. unfold extended_step, constructed.
  cbn [e_ant e_grid rules num_states].
  set (a0 := new_ant _ _).
  replace (grid_get (grid_make 8 8 0) (x a0) (y a0)) with (Some 0) by reflexivity.
  cbn [subscript rbind].
  assert (str_get (String c r) 0 = Some c) as ->.
  { unfold str_get. rewrite py_index_nonneg by (simpl; lia). reflexivity. }
  cbn [subscript rbind]. unfold py_mod.
  rewrite decide_False by (simpl String.length; lia). cbn [rbind].
  destruct (grid_set_in 8 8 (grid_make 8 8 0) (x a0) (y a0)
              ((0 + 1) `mod` Z.of_nat (String.length (String c r))))
    as (row & _ & _ & ->); [apply grid_make_shape|by vm_compute..|].
  cbn [subscript rbind].
  destruct (Ascii.eqb c "R"), wrap; eexists; (split; [reflexivity|reflexivity]).
Qed.

(** The claim of C8 fails on the empty rule string: the construction
    returns a simulation, and its first [step] raises. *)
Lemma empty_rules_constructed :
  exists s, extended_init "" = Ok s
            /\ extended_step WRAP_EDGES s = Raise IndexError.
Proof. exists (constructed ""). split; reflexivity. Qed.
End AntFacts.

(* ===================================================================== *)
(** * Sand grains: the ownership invariant *)
(* ===================================================================== *)

Module GrainFacts.
Import Grains.

Lemma ownership_empty : ownership empty_world.
Proof.
  split; [apply grid_make_shape|]. split.
  - intros i g Hg. simpl in Hg. by rewrite lookup_nil in Hg.
  - intros x y i [Hx Hy]%in_range_bounds Hget. simpl in Hget.
    by rewrite grid_get_make in Hget.
Qed.

(** Changing only the flag of a grain keeps the invariant. *)
Lemma set_settled_spec (w : world) (i : nat) (b : bool) (g : SandGrain) :
  grains w !! i = Some g ->
  set_settled w i b
  = Some (mkWorld (<[i := mkGrain (gx g) (gy g) (gcolor g) b]> (grains w)) (grid w)).
Proof. intros Hg. unfold set_settled. by rewrite Hg. Qed.

Lemma ownership_update_flag (w : world) (i : nat) (g g' : SandGrain) :
  ownership w -> grains w !! i = Some g -> gx g' = gx g -> gy g' = gy g ->
  ownership (mkWorld (<[i := g']> (grains w)) (grid w)).
Proof.
  intros (Hs & Hown & Hdang) Hg Hx Hy. split; [done|]. simpl. split.
  - intros j gj Hj. destruct (decide (j = i)) as [->|Hne].
    + rewrite list_lookup_insert_eq in Hj by (by eapply lookup_lt_Some).
      injection Hj as <-. rewrite Hx, Hy. by apply Hown.
    + rewrite list_lookup_insert_ne in Hj by done. by apply Hown.
  - intros x y j Hr Hget. destruct (decide (j = i)) as [->|Hne].
    + rewrite list_lookup_insert_eq by (by eapply lookup_lt_Some). eauto.
    + rewrite list_lookup_insert_ne by done. by eapply Hdang.
Qed.

Lemma set_settled_ownership (w w' : world) (i : nat) (b : bool) :
  ownership w -> set_settled w i b = Some w' -> ownership w'.
Proof.
  intros Hown Hset. unfold set_settled in Hset.
  destruct (grains w !! i) as [g|] eqn:Hg; [|done]. injection Hset as <-.
  by eapply ownership_update_flag.
Qed.

(** [move_grain] to a free cell of the grid: the whole transfer. *)
Lemma move_grain_spec (w : world) (i : nat) (g : SandGrain) (nx ny : Z) :
  ownership w -> grains w !! i = Some g ->
  in_range nx ny -> grid_get (grid w) nx ny = Some None ->
  exists w', move_grain w i nx ny = Some w'
    /\ grains w' = <[i := mkGrain nx ny (gcolor g) (settled g)]> (grains w)
    /\ (forall x y, in_range x y ->
          grid_get (grid w') x y
          = if decide (x = nx /\ y = ny) then Some (Some i)
            else if decide (x = gx g /\ y = gy g) then Some None
            else grid_get (grid w) x y)
    /\ ownership w'.
Proof.
  intros (Hs & Hown & Hdang) Hg Hn Hfree.
  destruct (Hown i g Hg) as [Hr Hslot].
  destruct (set8 (grid w) (gx g) (gy g) None Hs Hr) as (grid1 & Hset1 & Hs1).
  destruct (set8 grid1 nx ny (Some i) Hs1 Hn) as (grid2 & Hset2 & Hs2).
  assert (forall x y, in_range x y ->
            grid_get grid2 x y
            = if decide (x = nx /\ y = ny) then Some (Some i)
              else if decide (x = gx g /\ y = gy g) then Some None
              else grid_get (grid w) x y) as Hget.
  { intros x y Hxy. rewrite (get_set8 grid1 grid2 nx ny x y _ Hs1 Hn Hxy Hset2).
    case_decide; [done|]. apply (get_set8 (grid w) grid1 _ _ x y _ Hs Hr Hxy Hset1). }
  assert (~ (nx = gx g /\ ny = gy g)) as Hdiff.
  { intros [-> ->]. assert (grid_get (grid w) (gx g) (gy g) = Some (Some i)) as Hh
      by (by apply Hslot). congruence. }
  eexists. split; [unfold move_grain; rewrite Hg; simpl; rewrite Hset1; simpl;
                   rewrite Hset2; reflexivity|].
  simpl. split; [done|]. split; [done|].
  split; [done|]. simpl. split.
  - intros j gj Hj. destruct (decide (j = i)) as [->|Hne].
    + rewrite list_lookup_insert_eq in Hj by (by eapply lookup_lt_Some).
      injection Hj as <-. simpl. split; [done|].
      intros x y Hxy. rewrite Hget by done. case_decide; [tauto|].
      case_decide; [split; [done|tauto]|].
      split; [|tauto]. intros Hh. apply Hslot in Hh; tauto.
    + rewrite list_lookup_insert_ne in Hj by done.
      destruct (Hown j gj Hj) as [Hrj Hslotj]. split; [done|].
      intros x y Hxy. rewrite Hget by done.
      case_decide as Hc1.
      { destruct Hc1 as [-> ->]. split; [congruence|].
        intros [-> ->]. assert (grid_get (grid w) (gx gj) (gy gj) = Some (Some j)) as Hh
          by (by apply Hslotj). congruence. }
      case_decide as Hc2; [|by apply Hslotj].
      destruct Hc2 as [-> ->]. split; [done|].
      intros [Hx Hy]. assert (grid_get (grid w) (gx g) (gy g) = Some (Some j)) as Hh
        by (by apply Hslotj). 
      assert (grid_get (grid w) (gx g) (gy g) = Some (Some i)) as Hh'
        by (by apply Hslot). congruence.
  - intros x y j Hxy Hh. rewrite Hget in Hh by done.
    destruct (decide (j = i)) as [->|Hne].
    + rewrite list_lookup_insert_eq by (by eapply lookup_lt_Some). eauto.
    + rewrite list_lookup_insert_ne by done.
      case_decide; [congruence|]. case_decide; [done|]. by eapply Hdang.
Qed.

(** A new grain on a free cell. *)
Lemma add_grain_spec (w : world) (g : SandGrain) :
  ownership w -> in_range (gx g) (gy g) ->
  grid_get (grid w) (gx g) (gy g) = Some None ->
  exists w', add_grain w g = Some w'
    /\ grains w' = grains w ++ [g]
    /\ (forall x y, in_range x y ->
          grid_get (grid w') x y
          = if decide (x = gx g /\ y = gy g) then Some (Some (length (grains w)))
            else grid_get (grid w) x y)
    /\ ownership w'.
Proof.
  intros (Hs & Hown & Hdang) Hr Hfree.
  destruct (set8 (grid w) (gx g) (gy g) (Some (length (grains w))) Hs Hr)
    as (grid' & Hset & Hs').
  assert (forall x y, in_range x y ->
            grid_get grid' x y
            = if decide (x = gx g /\ y = gy g) then Some (Some (length (grains w)))
              else grid_get (grid w) x y) as Hget.
  { intros x y Hxy. apply (get_set8 (grid w) grid' _ _ x y _ Hs Hr Hxy Hset). }
  eexists. split; [unfold add_grain; rewrite Hset; reflexivity|].
  simpl. split; [done|]. split; [done|]. split; [done|]. simpl. split.
  - intros j gj Hj. apply lookup_app_Some in Hj as [Hj|[Hlen Hj]].
    + destruct (Hown j gj Hj) as [Hrj Hslotj]. split; [done|].
      intros x y Hxy. rewrite Hget by done. case_decide as Hc; [|by apply Hslotj].
      destruct Hc as [-> ->]. apply lookup_lt_Some in Hj. split.
      * intros [= Heq]. lia.
      * intros [Hx Hy].
        assert (grid_get (grid w) (gx g) (gy g) = Some (Some j)) as Hh
          by (by apply Hslotj). congruence.
    + apply list_lookup_singleton_Some in Hj as [Hj ->].
      assert (j = length (grains w)) as -> by lia.
      split; [done|]. intros x y Hxy. rewrite Hget by done.
      case_decide; [tauto|]. split; [|tauto].
      intros Hh. apply Hdang in Hh as [g' Hg']; [|done].
      apply lookup_lt_Some in Hg'. lia.
  - intros x y j Hxy Hh. rewrite Hget in Hh by done.
    apply lookup_lt_is_Some. rewrite length_app. simpl.
    case_decide.
    + injection Hh as <-. lia.
    + apply Hdang in Hh as [g' Hg']; [|done]. apply lookup_lt_Some in Hg'. lia.
Qed.
End GrainFacts.
Import GrainFacts.

Module GrainFrame.
Import Grains.

Lemma move_grain_grains (w w' : world) (j : nat) (nx ny : Z) :
  move_grain w j nx ny = Some w' ->
  exists g, grains w !! j = Some g
    /\ grains w' = <[j := mkGrain nx ny (gcolor g) (settled g)]> (grains w).
Proof.
  unfold move_grain. intros H.
  apply bind_Some in H as (g & Hg & H).
  apply bind_Some in H as (g1 & _ & H).
  apply bind_Some in H as (g2 & _ & H).
  injection H as <-. eauto.
Qed.

Lemma set_settled_grains (w w' : world) (j : nat) (b : bool) :
  set_settled w j b = Some w' ->
  exists g, grains w !! j = Some g
    /\ w' = mkWorld (<[j := mkGrain (gx g) (gy g) (gcolor g) b]> (grains w)) (grid w).
Proof.
  unfold set_settled. intros H.
  apply bind_Some in H as (g & Hg & H). injection H as <-. eauto.
Qed.

Lemma move_grain_other (w w' : world) (i j : nat) (nx ny : Z) :
  move_grain w j nx ny = Some w' -> i <> j -> grains w' !! i = grains w !! i.
Proof.
  intros (g & _ & ->)%move_grain_grains Hne. by apply list_lookup_insert_ne.
Qed.

Lemma set_settled_other (w w' : world) (i j : nat) (b : bool) :
  set_settled w j b = Some w' -> i <> j -> grains w' !! i = grains w !! i.
Proof.
  intros (g & _ & ->)%set_settled_grains Hne. simpl. by apply list_lookup_insert_ne.
Qed.

Lemma foldl_step {A B} (f : A -> B -> A) (a : A) (b : B) (l : list B) :
  foldl f a (b :: l) = foldl f (f a b) l.
Proof. reflexivity. Qed.

(** A failed pass stays failed. *)
Lemma foldl_None {A B} (f : option A -> B -> option A) (l : list B) :
  (forall b, f None b = None) -> foldl f None l = None.
Proof. intros Hf. induction l as [|b l IH]; simpl; [done|]. by rewrite Hf. Qed.

(** A property kept by every iteration holds after the loop. *)
Lemma foldl_option_inv {S B} (f : option S -> B -> option S) (P : S -> Prop)
      (l : list B) :
  (forall b, f None b = None) ->
  (forall s b s', P s -> f (Some s) b = Some s' -> P s') ->
  forall s s', P s -> foldl f (Some s) l = Some s' -> P s'.
Proof.
  intros Hnone Hstep. induction l as [|b l IH]; intros s s' Hs; simpl.
  - by intros [= <-].
  - destruct (f (Some s) b) as [s1|] eqn:Hf.
    + apply IH. by eapply Hstep.
    + by rewrite foldl_None.
Qed.

(** Stable sorting permutes the references. *)
Lemma insert_by_perm (key : nat -> Z) (i : nat) (l : list nat) :
  insert_by key i l ≡ₚ i :: l.
Proof.
  induction l as [|j l IH]; simpl; [done|].
  case_decide; [done|]. rewrite IH. apply Permutation_swap.
Qed.

Lemma sorted_by_perm (key : nat -> Z) (l : list nat) : sorted_by key l ≡ₚ l.
Proof.
  induction l as [|i l IH]; simpl; [done|].
  rewrite insert_by_perm. by rewrite IH.
Qed.
End GrainFrame.
Import GrainFrame.

(* ===================================================================== *)
(** * Falling sand *)
(* ===================================================================== *)

Module SandFacts.
Import Grains Sand GrainFrame.

Lemma try_slide_ownership (w : world) (i : nat) (g : SandGrain) (x y : Z)
      (directions : list Z) (w' : world) (moved : bool) :
  ownership w -> grains w !! i = Some g -> 0 <= y + 1 < HEIGHT ->
  try_slide w i x y directions = Some (w', moved) -> ownership w'.
Proof.
  intros Hown Hg Hy. induction directions as [|dx rest IH]; simpl.
  - by intros [= <- <-].
  - case_decide as Hx; [|done].
    intros H. apply bind_Some in H as (c & Hc & H).
    destruct c as [k|]; [by apply IH|].
    destruct (move_grain_spec w i g (x + dx) (y + 1) Hown Hg) as (w1 & Hm & _ & _ & Hown1);
      [done|done|].
    rewrite Hm in H. simpl in H. by injection H as <- <-.
Qed.

Lemma process_grain_ownership (w w' : world) (coins coins' : list bool) (i : nat) :
  ownership w -> process_grain (Some (w, coins)) i = Some (w', coins') -> ownership w'.
Proof.
  intros Hown. unfold process_grain. simpl.
  destruct (grains w !! i) as [g|] eqn:Hg; [|done]. simpl.
  destruct (settled g); [by intros [= <- <-]|].
  assert (in_range (gx g) (gy g)) as [Hgx Hgy] by (by apply Hown in Hg as [? _]).
  case_decide as Hy.
  - intros H. apply bind_Some in H as (c & Hc & H).
    destruct c as [k|].
    + simpl in H. apply bind_Some in H as ([w1 moved] & Hslide & H).
      apply try_slide_ownership with (g := g) in Hslide; [|done|done|lia].
      destruct moved; [by injection H as <- <-|].
      apply bind_Some in H as (w2 & Hset & H). injection H as <- <-.
      by eapply set_settled_ownership.
    + destruct (move_grain_spec w i g (gx g) (gy g + 1) Hown Hg) as (w1 & Hm & _ & _ & Hown1);
        [split; [done|lia]|done|].
      rewrite Hm in H. simpl in H. by injection H as <- <-.
  - intros H. apply bind_Some in H as (w1 & Hset & H). injection H as <- <-.
    by eapply set_settled_ownership.
Qed.

Lemma sand_process_None (i : nat) : process_grain None i = None.
Proof. done. Qed.

Lemma fold_process_ownership (ids : list nat) (w w' : world) (coins coins' : list bool) :
  ownership w -> foldl process_grain (Some (w, coins)) ids = Some (w', coins') ->
  ownership w'.
Proof.
  intros Hown H.
  apply (foldl_option_inv process_grain (fun s => ownership s.1) ids
           sand_process_None) with (s := (w, coins)) (s' := (w', coins')); [|done..].
  intros [w0 c0] j [w1 c1] H0 H1. by eapply process_grain_ownership.
Qed.

Lemma sand_update_ownership (coins : list bool) (s s' : SandSimulation) :
  ownership (sworld s) -> update coins s = Some s' -> ownership (sworld s').
Proof.
  intros Hown H. unfold update in H.
  apply bind_Some in H as ([w coins'] & Hu & H). injection H as <-. simpl.
  by eapply fold_process_ownership.
Qed.

Lemma empty_spots_free (g : list (list (option nat))) (l spots : list Z) :
  Forall (fun x => 0 <= x < WIDTH) l ->
  foldr (fun x acc =>
           l ← acc;
           c ← grid_get g x 0;
           Some (if c is None then x :: l else l))
        (Some []) l = Some spots ->
  Forall (fun x => in_range x 0 /\ grid_get g x 0 = Some None) spots.
Proof.
  intros Hl. revert spots. induction Hl as [|x l Hx Hl IH]; intros spots; simpl.
  - intros [= <-]. constructor.
  - intros H. apply bind_Some in H as (l' & Hl' & H).
    apply bind_Some in H as (c & Hc & H). injection H as <-.
    specialize (IH l' Hl'). destruct c; [done|].
    constructor; [|done]. split; [|done]. unfold in_range, HEIGHT. lia.
Qed.

Lemma range8_bounds : Forall (fun x => 0 <= x < WIDTH) range8.
Proof. unfold WIDTH. repeat constructor; lia. Qed.

Lemma spawn_ownership (pick : nat) (s s' : SandSimulation) :
  ownership (sworld s) -> spawn_grain pick s = Some s' -> ownership (sworld s').
Proof.
  intros Hown H. unfold spawn_grain in H.
  apply bind_Some in H as (spots & Hspots & H).
  apply empty_spots_free in Hspots; [|apply range8_bounds].
  destruct spots as [|x0 spots']; [by injection H as <-|].
  apply bind_Some in H as (x & Hx & H).
  apply bind_Some in H as (color & _ & H).
  apply bind_Some in H as (w & Hadd & H). injection H as <-. simpl.
  eapply Forall_lookup_1 in Hspots as [Hr Hfree]; [|exact Hx].
  destruct (add_grain_spec (sworld s) (mkGrain x 0 color false) Hown Hr Hfree)
    as (w1 & Hadd1 & _ & _ & Hown1).
  congruence.
Qed.

Lemma sand_reachable_ownership (s : SandSimulation) : reachable s -> ownership (sworld s).
Proof.
  induction 1 as [|s _ IH|s pick s' _ IH Hsp|s coins s' _ IH Hup].
  - apply ownership_empty.
  - apply ownership_empty.
  - by eapply spawn_ownership.
  - by eapply sand_update_ownership.
Qed.

(** In [SandSimulation.update] a settled grain is skipped. *)
Lemma process_grain_frame (w w' : world) (coins coins' : list bool) (i j : nat) (g : SandGrain) :
  grains w !! i = Some g -> settled g = true ->
  process_grain (Some (w, coins)) j = Some (w', coins') ->
  grains w' !! i = Some g.
Proof.
  intros Hg Hset. unfold process_grain. simpl.
  destruct (decide (j = i)) as [->|Hne].
  - rewrite Hg. simpl. rewrite Hset. by intros [= <- <-].
  - assert (forall w0 w1 dirs x y moved, grains w0 !! i = Some g ->
              try_slide w0 j x y dirs = Some (w1, moved) -> grains w1 !! i = Some g) as Hslide.
    { intros w0 w1 dirs x y moved Hg0. induction dirs as [|dx rest IH]; simpl.
      - by intros [= <- <-].
      - case_decide as Hd; [|done]. intros H. apply bind_Some in H as (c & _ & H).
        destruct c; [by apply IH|].
        apply bind_Some in H as (w2 & Hm & H). injection H as <- <-.
        by rewrite (move_grain_other _ _ i j _ _ Hm). }
    destruct (grains w !! j) as [gj|]; [|done]. simpl.
    destruct (settled gj); [by intros [= <- <-]|].
    case_decide as Hd.
    + intros H. apply bind_Some in H as (c & _ & H). destruct c.
      * simpl in H. apply bind_Some in H as ([w1 moved] & Hs1 & H).
        apply Hslide in Hs1; [|done].
        destruct moved; [by injection H as <- <-|].
        apply bind_Some in H as (w2 & Hss & H). injection H as <- <-.
        by rewrite (set_settled_other _ _ i j _ Hss).
      * apply bind_Some in H as (w1 & Hm & H). injection H as <- <-.
        by rewrite (move_grain_other _ _ i j _ _ Hm).
    + intros H. apply bind_Some in H as (w1 & Hss & H). injection H as <- <-.
      by rewrite (set_settled_other _ _ i j _ Hss).
Qed.

Lemma sand_settled_frozen (coins : list bool) (s s' : SandSimulation) (i : nat) (g : SandGrain) :
  grains (sworld s) !! i = Some g -> settled g = true ->
  update coins s = Some s' ->
  grains (sworld s') !! i = Some g.
Proof.
  intros Hg Hset H. unfold update in H.
  apply bind_Some in H as ([w coins'] & Hu & H). injection H as <-. simpl.
  unfold update_world in Hu.
  apply (foldl_option_inv process_grain (fun s => grains s.1 !! i = Some g) _
           sand_process_None) with (s := (sworld s, coins)) (s' := (w, coins')) in Hu;
    [done| |done].
  intros [w0 c0] j [w1 c1] H0 H1. by eapply process_grain_frame.
Qed.


Lemma try_slide_total (w : world) (i : nat) (g : SandGrain) (x y : Z)
      (directions : list Z) :
  ownership w -> grains w !! i = Some g -> 0 <= y + 1 < HEIGHT ->
  exists w' moved, try_slide w i x y directions = Some (w', moved)
    /\ length (grains w') = length (grains w)
    /\ is_Some (grains w' !! i).
Proof.
  intros Hown Hg Hy. induction directions as [|dx rest IH]; simpl.
  - exists w, false. by split_and!.
  - case_decide as Hx; [|done].
    destruct (get8 (grid w) (x + dx) (y + 1)) as [c Hc]; [apply Hown|done|].
    rewrite Hc. simpl. destruct c as [k|]; [done|].
    destruct (move_grain_spec w i g (x + dx) (y + 1) Hown Hg) as (w1 & Hm & Hgr & _);
      [done|done|].
    rewrite Hm. simpl. exists w1, true. split; [done|].
    rewrite Hgr, length_insert. split; [done|].
    apply lookup_lt_is_Some. rewrite length_insert. by eapply lookup_lt_Some.
Qed.

Lemma process_grain_total (w : world) (coins : list bool) (i : nat) :
  ownership w -> is_Some (grains w !! i) ->
  exists w' coins', process_grain (Some (w, coins)) i = Some (w', coins')
    /\ ownership w' /\ length (grains w') = length (grains w).
Proof.
  intros Hown [g Hg].
  assert (exists r, process_grain (Some (w, coins)) i = Some r
                    /\ length (grains r.1) = length (grains w)) as ([w' c'] & Hp & Hlen).
  { unfold process_grain. simpl. rewrite Hg. simpl.
    destruct (settled g); [by eexists (_, _)|].
    assert (in_range (gx g) (gy g)) as [Hgx Hgy] by (by apply Hown in Hg as [? _]).
    case_decide as Hy.
    - destruct (get8 (grid w) (gx g) (gy g + 1)) as [c Hc];
        [apply Hown|split; [done|lia]|].
      rewrite Hc. simpl. destruct c as [k|].
      + destruct (try_slide_total w i g (gx g) (gy g)
                    (if hd false coins then [-1; 1] else [1; -1]) Hown Hg)
          as (w1 & moved & -> & Hlen & [g1 Hg1]); [lia|].
        simpl. destruct moved; [by eexists (_, _)|].
        rewrite (set_settled_spec w1 i true g1 Hg1). simpl.
        eexists (_, _). split; [reflexivity|]. simpl. by rewrite length_insert.
      + destruct (move_grain_spec w i g (gx g) (gy g + 1) Hown Hg) as (w1 & -> & Hgr & _);
          [split; [done|lia]|done|].
        simpl. eexists (_, _). split; [reflexivity|]. simpl.
        by rewrite Hgr, length_insert.
    - rewrite (set_settled_spec w i true g Hg). simpl.
      eexists (_, _). split; [reflexivity|]. simpl. by rewrite length_insert. }
  exists w', c'. split; [done|]. split; [|done].
  by eapply process_grain_ownership.
Qed.

Lemma fold_process_total (ids : list nat) :
  forall w coins,
    ownership w -> Forall (fun i => is_Some (grains w !! i)) ids ->
    exists w' coins', foldl process_grain (Some (w, coins)) ids = Some (w', coins').
Proof.
  induction ids as [|i ids IH]; intros w coins Hown Hall.
  - by exists w, coins.
  - apply Forall_cons in Hall as [Hi Hall].
    destruct (process_grain_total w coins i Hown Hi) as (w1 & c1 & Hp & Hown1 & Hlen).
    destruct (IH w1 c1 Hown1) as (w' & c' & Hfold).
    { eapply Forall_impl; [exact Hall|]. intros k Hk.
      apply lookup_lt_is_Some. rewrite Hlen. by apply lookup_lt_is_Some. }
    exists w', c'. by rewrite foldl_step, Hp.
Qed.

Lemma sand_update_total (coins : list bool) (s : SandSimulation) :
  ownership (sworld s) -> exists s', update coins s = Some s'.
Proof.
  intros Hown. unfold update, update_world.
  destruct (fold_process_total
              (sorted_by (fun i => - grain_y (sworld s) i) (grain_ids (sworld s)))
              (sworld s) coins Hown) as (w' & c' & ->).
  - apply Forall_forall. intros i Hin. rewrite sorted_by_perm in Hin.
    unfold grain_ids in Hin. apply elem_of_seq in Hin.
    apply lookup_lt_is_Some. lia.
  - simpl. eauto.
Qed.
End SandFacts.

(* ===================================================================== *)
(** * Hourglass *)
(* ===================================================================== *)

Module HourglassFacts.
Import Grains Hourglass.

Lemma targets_coin (is_flipped coin : bool) (x y : Z) (t : Z * Z) :
  t ∈ get_gravity_targets is_flipped coin x y
  <-> t ∈ get_gravity_targets is_flipped false x y.
Proof.
  destruct coin; [|done]. unfold get_gravity_targets.
  rewrite !elem_of_cons, !elem_of_nil. tauto.
Qed.

Lemma can_move_to_total (w : world) (x y : Z) :
  shape8 (grid w) -> exists b, can_move_to w x y = Some b.
Proof.
  intros Hs. unfold can_move_to. case_decide as Hr; [|eauto].
  destruct (in_hourglass x y); [|eauto].
  destruct (get8 (grid w) x y Hs Hr) as [c ->]. simpl. eauto.
Qed.

Lemma can_move_to_true (w : world) (x y : Z) :
  can_move_to w x y = Some true ->
  in_range x y /\ grid_get (grid w) x y = Some None.
Proof.
  unfold can_move_to. case_decide as Hr; [|done].
  destruct (in_hourglass x y); [|done].
  intros H. apply bind_Some in H as (c & Hc & H). by destruct c.
Qed.

Lemma any_can_move_spec (w : world) (targets : list (Z * Z)) :
  shape8 (grid w) ->
  exists b, any_can_move w targets = Some b
    /\ (b = true <-> exists tx ty, (tx, ty) ∈ targets /\ can_move_to w tx ty = Some true).
Proof.
  intros Hs. induction targets as [|[tx ty] rest (b & Hb & Hiff)]; simpl.
  - exists false. split; [done|]. split; [done|].
    intros (tx & ty & Hin & _). by apply elem_of_nil in Hin.
  - destruct (can_move_to_total w tx ty Hs) as [[|] Hc]; rewrite Hc; simpl.
    + exists true. split; [done|]. split; [|done]. intros _.
      exists tx, ty. split; [apply list_elem_of_here|done].
    + exists b. split; [done|]. rewrite Hiff. split.
      * intros (tx' & ty' & Hin & Hfree). exists tx', ty'.
        split; [by apply list_elem_of_further|done].
      * intros (tx' & ty' & Hin & Hfree). exists tx', ty'. split; [|done].
        apply elem_of_cons in Hin as [[= -> ->]|Hin]; [congruence|done].
Qed.

Lemma try_targets_spec (w : world) (i : nat) (g : SandGrain) (targets : list (Z * Z)) :
  ownership w -> grains w !! i = Some g ->
  exists w' moved, try_targets w i targets = Some (w', moved)
    /\ ownership w'
    /\ (forall k, k <> i -> grains w' !! k = grains w !! k)
    /\ if moved
       then exists tx ty, (tx, ty) ∈ targets /\ can_move_to w tx ty = Some true
              /\ grains w' !! i = Some (mkGrain tx ty (gcolor g) (settled g))
       else w' = w /\ forall tx ty, (tx, ty) ∈ targets -> can_move_to w tx ty = Some false.
Proof.
  intros Hown Hg. induction targets as [|[tx ty] rest (w' & moved & Ht & Hown' & Hfr & Hres)];
    simpl.
  - exists w, false. split; [done|]. split; [done|]. split; [done|]. split; [done|].
    intros tx ty Hin. by apply elem_of_nil in Hin.
  - destruct (can_move_to_total w tx ty) as [[|] Hc]; [apply Hown|..]; rewrite Hc; simpl.
    + destruct (can_move_to_true w tx ty Hc) as [Hr Hfree].
      destruct (move_grain_spec w i g tx ty Hown Hg Hr Hfree) as (w1 & Hm & Hgr & _ & Hown1).
      rewrite Hm. simpl. exists w1, true. split; [done|]. split; [done|]. split.
      * intros k Hk. rewrite Hgr. by apply list_lookup_insert_ne.
      * exists tx, ty. split; [apply list_elem_of_here|]. split; [done|].
        rewrite Hgr. apply list_lookup_insert_eq. by eapply lookup_lt_Some.
    + exists w', moved. split; [done|]. split; [done|]. split; [done|].
      destruct moved.
      * destruct Hres as (tx' & ty' & Hin & Hres). exists tx', ty'.
        split; [by apply list_elem_of_further|done].
      * destruct Hres as [-> Hres]. split; [done|]. intros tx' ty' Hin.
        apply elem_of_cons in Hin as [[= -> ->]|Hin]; [done|by apply Hres].
Qed.

(** What the loop body does to the grain it handles, and that it leaves
    the other grains alone. *)
Lemma hourglass_process_spec (is_flipped : bool) (w : world) (coins : list bool)
      (any_moved : bool) (i : nat) (g : SandGrain) :
  ownership w -> grains w !! i = Some g ->
  exists w' coins' any_moved',
    process_grain is_flipped (Some (w, coins, any_moved)) i = Some (w', coins', any_moved')
    /\ ownership w'
    /\ (forall k, k <> i -> grains w' !! k = grains w !! k)
    /\ (any_moved = true -> any_moved' = true)
    /\ (free_target is_flipped w g ->
          any_moved' = true
          /\ exists tx ty, (tx, ty) ∈ get_gravity_targets is_flipped false (gx g) (gy g)
               /\ can_move_to w tx ty = Some true
               /\ grains w' !! i = Some (mkGrain tx ty (gcolor g) false))
    /\ (~ free_target is_flipped w g ->
          grains w' !! i = Some (mkGrain (gx g) (gy g) (gcolor g) true)).
Proof.
  intros Hown Hg. unfold process_grain. simpl.
  (* the state after the first [if]: the flag is false when a target is free *)
  assert (exists w1 coins1 g1,
            unsettle_check is_flipped w coins i = Some (w1, coins1)
            /\ ownership w1 /\ grid w1 = grid w
            /\ (forall k, k <> i -> grains w1 !! k = grains w !! k)
            /\ grains w1 !! i = Some g1
            /\ gx g1 = gx g /\ gy g1 = gy g /\ gcolor g1 = gcolor g
            /\ (free_target is_flipped w g -> settled g1 = false)
            /\ (settled g1 = true -> settled g = true)) as Hfirst.
  { unfold unsettle_check. rewrite Hg. simpl.
    destruct (settled g) eqn:Hsg; [|exists w, coins, g; split_and!; (done || congruence)].
    destruct (any_can_move_spec w (get_gravity_targets is_flipped (hd false coins) (gx g) (gy g)))
      as (b & -> & Hb); [apply Hown|]. simpl.
    destruct b.
    - rewrite (set_settled_spec w i false g Hg). simpl.
      eexists _, _, _. split; [reflexivity|]. simpl.
      split; [by eapply ownership_update_flag|]. split; [done|]. split.
      + intros k Hk. by apply list_lookup_insert_ne.
      + split; [apply list_lookup_insert_eq; by eapply lookup_lt_Some|]. by split_and!.
    - exists w, (tail coins), g. split_and!; try done.
      intros (tx & ty & Hin & Hfree). exfalso.
      assert (false = true); [|done]. apply Hb. exists tx, ty. split; [|done].
      by apply targets_coin. }
  destruct Hfirst as (w1 & coins1 & g1 & -> & Hown1 & Hgrid & Hfr1 & Hg1 & Hx & Hy & Hc
                      & Hfree1 & Hset1).
  simpl. unfold fall. rewrite Hg1. simpl.
  assert (forall tx ty, can_move_to w1 tx ty = can_move_to w tx ty) as Hcm.
  { intros tx ty. unfold can_move_to. by rewrite Hgrid. }
  destruct (settled g1) eqn:Hsg1.
  - (* still settled: no target was free *)
    eexists _, _, _. split; [reflexivity|]. split; [done|]. split; [done|].
    split; [done|]. split.
    + intros Hfree. apply Hfree1 in Hfree. congruence.
    + intros _. rewrite Hg1. f_equal. destruct g1; simpl in *. by subst.
  - destruct (try_targets_spec w1 i g1
                (get_gravity_targets is_flipped (hd false coins1) (gx g1) (gy g1)) Hown1 Hg1)
      as (w2 & moved & -> & Hown2 & Hfr2 & Hres). simpl.
    destruct moved.
    + destruct Hres as (tx & ty & Hin & Hfree & Hg2).
      eexists _, _, _. split; [reflexivity|]. split; [done|]. split.
      { intros k Hk. rewrite Hfr2 by done. by apply Hfr1. }
      split; [done|].
      assert ((tx, ty) ∈ get_gravity_targets is_flipped false (gx g) (gy g)) as Hin'.
      { rewrite <- Hx, <- Hy. by apply targets_coin in Hin. }
      split.
      * intros _. split; [done|]. exists tx, ty. split; [done|].
        split; [by rewrite <- Hcm|]. by rewrite Hg2, Hc, Hsg1.
      * intros Hnot. exfalso. apply Hnot. exists tx, ty. split; [done|]. by rewrite <- Hcm.
    + destruct Hres as [-> Hres].
      rewrite (set_settled_spec w1 i true g1 Hg1). simpl.
      eexists _, _, _. split; [reflexivity|]. simpl.
      split; [by eapply ownership_update_flag|]. split.
      { intros k Hk. rewrite list_lookup_insert_ne by done. by apply Hfr1. }
      split; [done|]. split.
      * intros (tx & ty & Hin & Hfree). exfalso.
        rewrite <- Hcm in Hfree. rewrite (Hres tx ty) in Hfree; [done|].
        rewrite Hx, Hy. by apply targets_coin.
      * intros _. rewrite list_lookup_insert_eq by (by eapply lookup_lt_Some).
        by rewrite Hx, Hy, Hc.
Qed.


Lemma hourglass_process_None (is_flipped : bool) (i : nat) :
  process_grain is_flipped None i = None.
Proof. done. Qed.

Lemma free_target_dec (is_flipped : bool) (w : world) (g : SandGrain) :
  free_target is_flipped w g \/ ~ free_target is_flipped w g.
Proof.
  unfold free_target.
  destruct (decide (Exists (fun t : Z * Z => can_move_to w t.1 t.2 = Some true)
              (get_gravity_targets is_flipped false (gx g) (gy g)))) as [H|H].
  - left. apply Exists_exists in H as ([tx ty] & Hin & Hfree). eauto.
  - right. intros (tx & ty & Hin & Hfree). apply H, Exists_exists. by exists (tx, ty).
Qed.

(** The loop over a list of grain references. *)
Lemma hourglass_fold_spec (is_flipped : bool) (ids : list nat) :
  forall w coins any_moved,
    ownership w -> Forall (fun i => is_Some (grains w !! i)) ids ->
    exists w' coins' any_moved',
      foldl (process_grain is_flipped) (Some (w, coins, any_moved)) ids
      = Some (w', coins', any_moved')
      /\ ownership w'
      /\ (forall k, is_Some (grains w !! k) -> is_Some (grains w' !! k))
      /\ (forall k, k ∉ ids -> grains w' !! k = grains w !! k)
      /\ (any_moved = true -> any_moved' = true).
Proof.
  induction ids as [|i ids IH]; intros w coins any_moved Hown Hall.
  - exists w, coins, any_moved. by split_and!.
  - apply Forall_cons in Hall as [[g Hg] Hall].
    destruct (hourglass_process_spec is_flipped w coins any_moved i g Hown Hg)
      as (w1 & c1 & m1 & Hp & Hown1 & Hfr1 & Hm1 & Hfree & Hnfree).
    assert (forall k, is_Some (grains w !! k) -> is_Some (grains w1 !! k)) as Hsome1.
    { intros k Hk. destruct (decide (k = i)) as [->|Hne]; [|by rewrite Hfr1].
      destruct (free_target_dec is_flipped w g) as [Hf|Hf].
      - apply Hfree in Hf as (_ & tx & ty & _ & _ & ->). eauto.
      - apply Hnfree in Hf as ->. eauto. }
    destruct (IH w1 c1 m1 Hown1) as (w' & c' & m' & Hfold & Hown' & Hsome' & Hfr' & Hm').
    { eapply Forall_impl; [exact Hall|]. intros k Hk. by apply Hsome1. }
    exists w', c', m'. split; [by rewrite foldl_step, Hp|]. split; [done|]. split; [auto|].
    split; [|auto].
    intros k Hk. apply not_elem_of_cons in Hk as [Hne Hk].
    rewrite Hfr' by done. by apply Hfr1.
Qed.

Lemma sorted_grains_perm (is_flipped : bool) (w : world) :
  sorted_grains is_flipped w ≡ₚ grain_ids w.
Proof. unfold sorted_grains. destruct is_flipped; apply sorted_by_perm. Qed.

Lemma grain_ids_elem (w : world) (i : nat) :
  i ∈ grain_ids w <-> is_Some (grains w !! i).
Proof.
  unfold grain_ids. rewrite elem_of_seq, lookup_lt_is_Some. lia.
Qed.

Lemma sorted_grains_valid (is_flipped : bool) (w : world) :
  Forall (fun i => is_Some (grains w !! i)) (sorted_grains is_flipped w).
Proof.
  apply Forall_forall. intros i Hin. apply grain_ids_elem.
  by rewrite <- (sorted_grains_perm is_flipped w).
Qed.

Lemma sorted_grains_split (is_flipped : bool) (w : world) (i : nat) :
  is_Some (grains w !! i) ->
  exists pre post, sorted_grains is_flipped w = pre ++ i :: post
                   /\ (i ∉ pre) /\ (i ∉ post).
Proof.
  intros Hi. apply grain_ids_elem in Hi.
  rewrite <- (sorted_grains_perm is_flipped w) in Hi.
  apply list_elem_of_split in Hi as (pre & post & Heq). exists pre, post.
  split; [done|].
  assert (NoDup (pre ++ i :: post)) as Hnd.
  { rewrite <- Heq, sorted_grains_perm. apply NoDup_seq. }
  apply NoDup_app in Hnd as (_ & Hpre & Hpost). apply NoDup_cons in Hpost as [Hpost _].
  split; [|done]. intros Hin. apply (Hpre i Hin). apply list_elem_of_here.
Qed.

Lemma hourglass_update_ownership (coins : list bool) (h : Hourglass) :
  ownership (hworld h) ->
  exists h' moved, update coins h = Some (h', moved) /\ ownership (hworld h')
                   /\ flipped h' = flipped h.
Proof.
  intros Hown. unfold update, update_world.
  destruct (hourglass_fold_spec (flipped h) (sorted_grains (flipped h) (hworld h))
              (hworld h) coins false Hown (sorted_grains_valid _ _))
    as (w' & c' & m' & -> & Hown' & _).
  simpl. by eexists _, _.
Qed.

(** One tick seen from a settled grain. *)
Lemma update_settled_grain (coins : list bool) (h : Hourglass) (i : nat) (g : SandGrain) :
  ownership (hworld h) -> grains (hworld h) !! i = Some g -> settled g = true ->
  exists h' moved pre post w_mid c_mid m_mid,
    update coins h = Some (h', moved)
    /\ sorted_grains (flipped h) (hworld h) = pre ++ i :: post
    /\ foldl (process_grain (flipped h)) (Some (hworld h, coins, false)) pre
       = Some (w_mid, c_mid, m_mid)
    /\ grains w_mid !! i = Some g
    /\ (free_target (flipped h) w_mid g ->
          moved = true
          /\ exists tx ty,
               (tx, ty) ∈ get_gravity_targets (flipped h) false (gx g) (gy g)
               /\ can_move_to w_mid tx ty = Some true
               /\ grains (hworld h') !! i = Some (mkGrain tx ty (gcolor g) false))
    /\ (~ free_target (flipped h) w_mid g -> grains (hworld h') !! i = Some g).
Proof.
  intros Hown Hg Hset.
  destruct (sorted_grains_split (flipped h) (hworld h) i) as (pre & post & Heq & Hpre & Hpost);
    [eauto|].
  pose proof (sorted_grains_valid (flipped h) (hworld h)) as Hvalid.
  rewrite Heq in Hvalid. apply Forall_app in Hvalid as [Hvpre Hvpost].
  apply Forall_cons in Hvpost as [_ Hvpost].
  destruct (hourglass_fold_spec (flipped h) pre (hworld h) coins false Hown Hvpre)
    as (w1 & c1 & m1 & Hf1 & Hown1 & Hsome1 & Hfr1 & _).
  assert (grains w1 !! i = Some g) as Hg1 by (by rewrite Hfr1).
  destruct (hourglass_process_spec (flipped h) w1 c1 m1 i g Hown1 Hg1)
    as (w2 & c2 & m2 & Hp & Hown2 & Hfr2 & _ & Hfree & Hnfree).
  assert (forall k, is_Some (grains w1 !! k) -> is_Some (grains w2 !! k)) as Hsome2.
  { intros k Hk. destruct (decide (k = i)) as [->|Hne]; [|by rewrite Hfr2].
    destruct (free_target_dec (flipped h) w1 g) as [Hf|Hf].
    - apply Hfree in Hf as (_ & tx & ty & _ & _ & ->). eauto.
    - apply Hnfree in Hf as ->. eauto. }
  destruct (hourglass_fold_spec (flipped h) post w2 c2 m2 Hown2)
    as (w3 & c3 & m3 & Hf3 & Hown3 & _ & Hfr3 & Hm3).
  { eapply Forall_impl; [exact Hvpost|]. intros k Hk. auto. }
  exists (mkHourglass w3 (frame h + 1) (flipped h)), m3, pre, post, w1, c1, m1.
  split.
  { unfold update, update_world. rewrite Heq, foldl_app, Hf1, foldl_step, Hp, Hf3.
    reflexivity. }
  split; [done|]. split; [done|]. split; [done|]. simpl. split.
  - intros Hf. destruct (Hfree Hf) as (-> & tx & ty & Hin & Hcm & Hg2).
    split; [by apply Hm3|]. exists tx, ty. split; [done|]. split; [done|].
    by rewrite Hfr3.
  - intros Hf. rewrite Hfr3 by done. rewrite (Hnfree Hf).
    f_equal. destruct g; simpl in *. by subst.
Qed.

Lemma chamber_cells :
  NoDup get_top_chamber /\ Forall (fun c => in_range c.1 c.2) get_top_chamber
  /\ NoDup get_bottom_chamber /\ Forall (fun c => in_range c.1 c.2) get_bottom_chamber.
Proof. split_and!; apply (bool_decide_unpack _); by vm_compute. Qed.

Lemma fill_fold (variation : nat -> Z) (cells : list (Z * Z)) :
  NoDup cells -> Forall (fun c => in_range c.1 c.2) cells ->
  forall w, ownership w ->
    (forall c, c ∈ cells -> grid_get (grid w) c.1 c.2 = Some None) ->
    exists w',
      foldl (fun acc c =>
               w ← acc;
               let g := new_grain c.1 c.2 (variation (length (grains w))) in
               add_grain w (mkGrain (gx g) (gy g) (gcolor g) true))
            (Some w) cells = Some w'
      /\ ownership w'.
Proof.
  intros Hnd Hall. induction Hall as [|[cx cy] cells Hc Hall IH]; intros w Hown Hfree.
  - by exists w.
  - apply NoDup_cons in Hnd as [Hnin Hnd]. simpl in Hc.
    set (g := new_grain cx cy (variation (length (grains w)))).
    destruct (add_grain_spec w (mkGrain cx cy (gcolor g) true) Hown Hc
                (Hfree (cx, cy) (list_elem_of_here _ _)))
      as (w1 & Hadd & _ & Hget & Hown1).
    simpl in Hget.
    destruct (IH Hnd w1 Hown1) as (w' & Hfold & Hown').
    { intros [x y] Hin. simpl.
      rewrite Hget by (by eapply Forall_forall in Hall; [|exact Hin]).
      rewrite decide_False; [apply (Hfree (x, y)); by apply list_elem_of_further|].
      by intros [-> ->]. }
    exists w'. split; [|done]. rewrite foldl_step.
    etrans; [|exact Hfold]. f_equal. exact Hadd.
Qed.

Lemma fill_cells_ownership (variation : nat -> Z) (cells : list (Z * Z)) :
  NoDup cells -> Forall (fun c => in_range c.1 c.2) cells ->
  exists w, fill_cells variation cells = Some w /\ ownership w.
Proof.
  intros Hnd Hall. unfold fill_cells.
  apply (fill_fold variation (take SAND_COUNT cells)).
  - eapply sublist_NoDup; [exact Hnd|apply sublist_take].
  - by apply Forall_take.
  - apply ownership_empty.
  - intros [x y] Hin. simpl. apply grid_get_make.
    + eapply Forall_forall in Hall; [|by eapply subseteq_take].
      simpl in Hall. unfold in_range, WIDTH in Hall. lia.
    + eapply Forall_forall in Hall; [|by eapply subseteq_take].
      simpl in Hall. unfold in_range, HEIGHT in Hall. lia.
Qed.

Lemma flip_ownership (h : Hourglass) :
  ownership (hworld h) -> ownership (hworld (flip h)).
Proof.
  intros (Hs & Hown & Hdang). split; [done|]. simpl. split.
  - intros i g Hg. rewrite list_lookup_fmap in Hg.
    destruct (grains (hworld h) !! i) as [g0|] eqn:Hg0; [|done].
    injection Hg as <-. simpl. by apply Hown.
  - intros x y i Hr Hget. rewrite list_lookup_fmap.
    destruct (Hdang x y i Hr Hget) as [g0 ->]. simpl. eauto.
Qed.

Lemma fill_world_ownership (variation : nat -> Z) (cells : list (Z * Z))
      (fr : Z) (fl : bool) (h' : Hourglass) :
  NoDup cells -> Forall (fun c => in_range c.1 c.2) cells ->
  (w ← fill_cells variation cells; Some (mkHourglass w fr fl)) = Some h' ->
  ownership (hworld h').
Proof.
  intros Hnd Hall Hfill.
  destruct (fill_cells_ownership variation cells Hnd Hall) as (w & Hw & Hown).
  rewrite Hw in Hfill. by injection Hfill as <-.
Qed.

Lemma fill_top_eq (variation : nat -> Z) (shuffled : list (Z * Z)) (h : Hourglass) :
  fill_top variation shuffled h
  = (w ← fill_cells variation shuffled; Some (mkHourglass w (frame h) (flipped h))).
Proof. reflexivity. Qed.

Lemma fill_bottom_eq (variation : nat -> Z) (h : Hourglass) :
  fill_bottom variation h
  = (w ← fill_cells variation get_bottom_chamber;
     Some (mkHourglass w (frame h) (flipped h))).
Proof. reflexivity. Qed.

Lemma fill_top_ownership (variation : nat -> Z) (shuffled : list (Z * Z)) (h h' : Hourglass) :
  shuffled ≡ₚ get_top_chamber -> fill_top variation shuffled h = Some h' ->
  ownership (hworld h').
Proof.
  intros Hperm Hfill. destruct chamber_cells as (Hnd & Hall & _).
  rewrite <- Hperm in Hnd, Hall.
  rewrite fill_top_eq in Hfill.
  exact (fill_world_ownership variation shuffled (frame h) (flipped h) h' Hnd Hall Hfill).
Qed.

Lemma fill_bottom_ownership (variation : nat -> Z) (h h' : Hourglass) :
  fill_bottom variation h = Some h' -> ownership (hworld h').
Proof.
  intros Hfill. destruct chamber_cells as (_ & _ & Hnd & Hall).
  rewrite fill_bottom_eq in Hfill.
  exact (fill_world_ownership variation get_bottom_chamber (frame h) (flipped h) h'
           Hnd Hall Hfill).
Qed.

Lemma hourglass_reachable_ownership (h : Hourglass) : reachable h -> ownership (hworld h).
Proof.
  induction 1 as [variation shuffled h Hperm Hinit
                 |variation shuffled h h' _ IH Hperm Hfill
                 |variation h h' _ IH Hfill
                 |h _ IH
                 |h coins h' moved _ IH Hup].
  - by eapply fill_top_ownership.
  - by eapply fill_top_ownership.
  - by eapply fill_bottom_ownership.
  - by apply flip_ownership.
  - destruct (hourglass_update_ownership coins h IH) as (h2 & m2 & Hup2 & Hown2 & _).
    congruence.
Qed.
End HourglassFacts.


(* ===================================================================== *)
(** * Sand and hourglass: ownership and settled grains *)
(* ===================================================================== *)

Module GrainClaims.
Import Grains SandFacts HourglassFacts.

Lemma reachable_run_ops (ops : list Sand.op) :
  forall s s', Sand.reachable s -> Sand.run_ops ops s = Some s' -> Sand.reachable s'.
Proof.
  induction ops as [|o ops IH]; intros s s' Hs; simpl.
  - by intros [= <-].
  - destruct o as [pick|coins]; intros H; apply bind_Some in H as (s1 & H1 & H).
    + apply (IH s1); [by eapply Sand.reach_spawn|done].
    + apply (IH s1); [by eapply Sand.reach_update|done].
Qed.

Lemma tower_reachable : Sand.reachable Sand.tower_state.
Proof.
  apply (reachable_run_ops Sand.tower_script Sand.init); [constructor|].
  vm_compute. reflexivity.
Qed.

Lemma fresh_hourglass_reachable : Hourglass.reachable Hourglass.fresh_hourglass.
Proof.
  apply (Hourglass.reach_init (fun _ => 0) Hourglass.get_top_chamber); [reflexivity|].
  vm_compute. reflexivity.
Qed.

(** C4. Every state that [SandSimulation] and [Hourglass] reach through
    their methods satisfies the ownership invariant: each grain lies on
    the grid, the slot at its own coordinates is the one and only slot
    that refers to it, and every slot refers to a grain of the simulation.
    [move_grain] of a grain to a free cell of the grid returns, and the
    world it returns has the three effects at once: the old slot empty,
    the new slot referring to the grain, the grain at the new coordinates,
    every other slot and grain as before; it satisfies the invariant. *)
Theorem ownership_invariant :
  (forall s, Sand.reachable s -> ownership (Sand.sworld s))
  /\ (forall h, Hourglass.reachable h -> ownership (Hourglass.hworld h))
  /\ (forall w i g nx ny,
        ownership w -> grains w !! i = Some g ->
        in_range nx ny -> grid_get (grid w) nx ny = Some None ->
        exists w', move_grain w i nx ny = Some w'
          /\ grains w' = <[i := mkGrain nx ny (gcolor g) (settled g)]> (grains w)
          /\ (forall x y, in_range x y ->
                grid_get (grid w') x y
                = if decide (x = nx /\ y = ny) then Some (Some i)
                  else if decide (x = gx g /\ y = gy g) then Some None
                  else grid_get (grid w) x y)
          /\ ownership w').
Proof.
  split; [exact sand_reachable_ownership|].
  split; [exact hourglass_reachable_ownership|].
  exact move_grain_spec.
Qed.

Lemma ownership_invariant_witness :
  (Sand.reachable Sand.tower_state /\ ownership (Sand.sworld Sand.tower_state))
  /\ (Hourglass.reachable Hourglass.fresh_hourglass
      /\ ownership (Hourglass.hworld Hourglass.fresh_hourglass))
  /\ (ownership (Sand.sworld Sand.tower_state)
      /\ grains (Sand.sworld Sand.tower_state) !! 4%nat
         = Some (mkGrain 0 5 (210, 180, 140) true)
      /\ in_range 1 6
      /\ grid_get (grid (Sand.sworld Sand.tower_state)) 1 6 = Some None
      /\ exists w', move_grain (Sand.sworld Sand.tower_state) 4 1 6 = Some w'
          /\ grains w' = <[4%nat := mkGrain 1 6 (210, 180, 140) true]>
                           (grains (Sand.sworld Sand.tower_state))
          /\ (forall x y, in_range x y ->
                grid_get (grid w') x y
                = if decide (x = 1 /\ y = 6) then Some (Some 4%nat)
                  else if decide (x = 0 /\ y = 5) then Some None
                  else grid_get (grid (Sand.sworld Sand.tower_state)) x y)
          /\ ownership w').
Proof.
  destruct ownership_invariant as (Hsand & Hhourglass & Hmove).
  pose proof (Hsand _ tower_reachable) as Hown.
  assert (in_range 1 6) as Hr by (unfold in_range, WIDTH, HEIGHT; lia).
  split; [exact (conj tower_reachable Hown)|].
  split; [exact (conj fresh_hourglass_reachable (Hhourglass _ fresh_hourglass_reachable))|].
  split; [exact Hown|]. split; [reflexivity|]. split; [exact Hr|].
  split; [reflexivity|].
  exact (Hmove (Sand.sworld Sand.tower_state) 4%nat (mkGrain 0 5 (210, 180, 140) true)
               1 6 Hown eq_refl Hr eq_refl).
Defined.

(** C3, as the code has it. In [Hourglass.update] a settled grain of a
    reachable state is re-evaluated when its turn comes in the tick (after
    the grains sorted before it): if one of its three gravity targets can
    be moved to at that point, the tick ends with the grain unsettled and
    on such a target and [update] returns true; otherwise the grain ends
    the tick settled where it was. In [SandSimulation.update] a settled
    grain is skipped: every tick returns and leaves the grain settled
    where it was, whatever the cells around it hold. *)
Theorem settled_grain_reevaluation :
  (forall h coins i g,
     Hourglass.reachable h ->
     grains (Hourglass.hworld h) !! i = Some g -> settled g = true ->
     exists h' moved pre post w_mid c_mid m_mid,
       Hourglass.update coins h = Some (h', moved)
       /\ Hourglass.sorted_grains (Hourglass.flipped h) (Hourglass.hworld h)
          = pre ++ i :: post
       /\ foldl (Hourglass.process_grain (Hourglass.flipped h))
                (Some (Hourglass.hworld h, coins, false)) pre
          = Some (w_mid, c_mid, m_mid)
       /\ grains w_mid !! i = Some g
       /\ (Hourglass.free_target (Hourglass.flipped h) w_mid g ->
             moved = true
             /\ exists tx ty,
                  (tx, ty) ∈ Hourglass.get_gravity_targets (Hourglass.flipped h) false
                               (gx g) (gy g)
                  /\ Hourglass.can_move_to w_mid tx ty = Some true
                  /\ grains (Hourglass.hworld h') !! i
                     = Some (mkGrain tx ty (gcolor g) false))
       /\ (~ Hourglass.free_target (Hourglass.flipped h) w_mid g ->
             grains (Hourglass.hworld h') !! i = Some g))
  /\ (forall s coins i g,
        Sand.reachable s ->
        grains (Sand.sworld s) !! i = Some g -> settled g = true ->
        exists s', Sand.update coins s = Some s'
                   /\ grains (Sand.sworld s') !! i = Some g).
Proof.
  split.
  - intros h coins i g Hreach Hg Hset.
    apply update_settled_grain; [by apply hourglass_reachable_ownership|done..].
  - intros s coins i g Hreach Hg Hset.
    destruct (sand_update_total coins s) as [s' Hup];
      [by apply sand_reachable_ownership|].
    exists s'. split; [done|]. by eapply sand_settled_frozen.
Qed.

Lemma settled_grain_reevaluation_witness :
  (Hourglass.reachable Hourglass.fresh_hourglass
   /\ grains (Hourglass.hworld Hourglass.fresh_hourglass) !! 18%nat
      = Some (mkGrain 3 2 (255, 200, 100) true)
   /\ exists h' moved pre post w_mid c_mid m_mid,
       Hourglass.update [] Hourglass.fresh_hourglass = Some (h', moved)
       /\ Hourglass.sorted_grains false (Hourglass.hworld Hourglass.fresh_hourglass)
          = pre ++ 18%nat :: post
       /\ foldl (Hourglass.process_grain false)
                (Some (Hourglass.hworld Hourglass.fresh_hourglass, [], false)) pre
          = Some (w_mid, c_mid, m_mid)
       /\ grains w_mid !! 18%nat = Some (mkGrain 3 2 (255, 200, 100) true)
       /\ (Hourglass.free_target false w_mid (mkGrain 3 2 (255, 200, 100) true) ->
             moved = true
             /\ exists tx ty,
                  (tx, ty) ∈ Hourglass.get_gravity_targets false false 3 2
                  /\ Hourglass.can_move_to w_mid tx ty = Some true
                  /\ grains (Hourglass.hworld h') !! 18%nat
                     = Some (mkGrain tx ty (255, 200, 100) false))
       /\ (~ Hourglass.free_target false w_mid (mkGrain 3 2 (255, 200, 100) true) ->
             grains (Hourglass.hworld h') !! 18%nat
             = Some (mkGrain 3 2 (255, 200, 100) true)))
  /\ (Sand.reachable Sand.tower_state
      /\ grains (Sand.sworld Sand.tower_state) !! 4%nat
         = Some (mkGrain 0 5 (210, 180, 140) true)
      /\ exists s', Sand.update [true] Sand.tower_state = Some s'
                    /\ grains (Sand.sworld s') !! 4%nat
                       = Some (mkGrain 0 5 (210, 180, 140) true)).
Proof.
  destruct settled_grain_reevaluation as [Hhourglass Hsand].
  split.
  - split; [exact fresh_hourglass_reachable|]. split; [reflexivity|].
    exact (Hhourglass Hourglass.fresh_hourglass [] 18%nat
             (mkGrain 3 2 (255, 200, 100) true)
             fresh_hourglass_reachable eq_refl eq_refl).
  - split; [exact tower_reachable|]. split; [reflexivity|].
    exact (Hsand Sand.tower_state [true] 4%nat (mkGrain 0 5 (210, 180, 140) true)
             tower_reachable eq_refl eq_refl).
Defined.

(** The claim of C3 fails in [SandSimulation]: the state [tower_state] is
    reached by spawning and ticking, its grain 4 is settled at (0, 5), the
    cell (1, 6) diagonally below it is on the grid and empty, and the next
    tick leaves the grain settled at (0, 5). *)
Lemma settled_sand_grain_stuck :
  Sand.run_ops Sand.tower_script Sand.init = Some Sand.tower_state
  /\ grains (Sand.sworld Sand.tower_state) !! 4%nat
     = Some (mkGrain 0 5 (210, 180, 140) true)
  /\ grid_get (grid (Sand.sworld Sand.tower_state)) 1 6 = Some None
  /\ exists s', Sand.update [] Sand.tower_state = Some s'
                /\ grains (Sand.sworld s') !! 4%nat
                   = Some (mkGrain 0 5 (210, 180, 140) true).
Proof.
  split; [vm_compute; reflexivity|]. split; [reflexivity|]. split; [reflexivity|].
  eexists. split; [vm_compute; reflexivity|]. reflexivity.
Qed.
End GrainClaims.

(* ===================================================================== *)
(** * Water ripples *)
(* ===================================================================== *)

Module WaterFacts.
Import Water.













(** C10. On an 8x8 height field, in either arithmetic, [drop] with
    coordinates off the grid returns the simulation as it is; with
    coordinates on the grid it returns a simulation with the same
    velocities whose height field has the strength at (x, y) and the old
    height everywhere else. *)
Theorem drop_frame {T : Type} `{Arith T} (x y : Z) (strength : T)
        (s : WaterSimulation T) :
  shape8 (height s) ->
  (~ in_range x y -> drop x y strength s = Some s)
  /\ (in_range x y ->
      exists s', drop x y strength s = Some s'
        /\ velocity s' = velocity s
        /\ shape8 (height s')
        /\ grid_get (height s') x y = Some strength
        /\ forall x' y', in_range x' y' -> ~ (x' = x /\ y' = y) ->
             grid_get (height s') x' y' = grid_get (height s) x' y').
Proof.
  intros Hs. unfold drop. split; intros Hr.
  - by rewrite decide_False.
  - rewrite decide_True by done.
    destruct (set8 (height s) x y strength Hs Hr) as (h' & Hset & Hs').
    rewrite Hset. eexists. split; [reflexivity|]. cbn [velocity height].
    split; [reflexivity|]. split; [exact Hs'|]. split.
    + rewrite (get_set8 _ _ _ _ x y _ Hs Hr Hr Hset). by rewrite decide_True.
    + intros x' y' Hr' Hne.
      rewrite (get_set8 _ _ _ _ x' y' _ Hs Hr Hr' Hset). by rewrite decide_False.
Qed.

Lemma drop_frame_witness :
  shape8 (height (init (T := float)))
  /\ (~ in_range 8 3 /\ drop 8 3 50%float init = Some init)
  /\ (in_range 3 3
      /\ exists s', drop 3 3 50%float init = Some s'
        /\ velocity s' = velocity init
        /\ shape8 (height s')
        /\ grid_get (height s') 3 3 = Some 50%float
        /\ forall x' y', in_range x' y' -> ~ (x' = 3 /\ y' = 3) ->
             grid_get (height s') x' y' = grid_get (height init) x' y').
Proof.
  assert (shape8 (height (init (T := float)))) as Hs by apply grid_make_shape.
  assert (~ in_range 8 3) as Hout by (unfold in_range, WIDTH, HEIGHT; lia).
  assert (in_range 3 3) as Hin by (unfold in_range, WIDTH, HEIGHT; lia).
  split; [exact Hs|]. split.
  - exact (conj Hout (proj1 (drop_frame 8 3 50%float init Hs) Hout)).
  - exact (conj Hin (proj2 (drop_frame 3 3 50%float init Hs) Hin)).
Defined.
End WaterFacts.

(* ===================================================================== *)
(** * The pixel index and the colour wheel *)
(* ===================================================================== *)

Module DisplayFacts.
Import Display.

(** X1. [xy] maps the 64 cells of the grid one to one onto the 64 pixel
    indices 0..63 of the strip: every cell gets an index of the strip, two
    cells never share one, and every index belongs to a cell. *)
Theorem xy_bijection :
  (forall x y, in_range x y -> 0 <= xy x y < NUM_LEDS)
  /\ (forall x y x' y', in_range x y -> in_range x' y' ->
        xy x y = xy x' y' -> x = x' /\ y = y')
  /\ (forall i, 0 <= i < NUM_LEDS -> exists x y, in_range x y /\ xy x y = i).
Proof.
  unfold in_range, xy, NUM_LEDS, WIDTH, HEIGHT. split; [|split].
  - intros x y [Hx Hy]. case_decide; lia.
  - intros x y x' y' [Hx Hy] [Hx' Hy'] Heq.
    assert (y = y') as -> by (repeat case_decide; lia).
    split; [|done]. repeat case_decide; lia.
  - intros i Hi.
    pose proof (Z.div_mod i 8 ltac:(lia)) as Hdm.
    pose proof (Z.mod_pos_bound i 8 ltac:(lia)) as Hm.
    assert (0 <= i `div` 8 < 8) as Hd.
    { split; [apply Z.div_pos; lia|apply Z.div_lt_upper_bound; lia]. }
    destruct (decide ((i `div` 8) `mod` 2 = 1)) as [Hodd|Heven].
    + exists (7 - i `mod` 8), (i `div` 8). split; [lia|].
      rewrite decide_True by done. lia.
    + exists (i `mod` 8), (i `div` 8). split; [lia|].
      rewrite decide_False by done. lia.
Qed.

Lemma xy_bijection_witness :
  (in_range 2 1 /\ 0 <= xy 2 1 < NUM_LEDS)
  /\ (in_range 2 1 /\ in_range 2 1 /\ xy 2 1 = xy 2 1 /\ (2 = 2 /\ 1 = 1))
  /\ (0 <= 13 < NUM_LEDS /\ exists x y, in_range x y /\ xy x y = 13).
Proof.
  destruct xy_bijection as (Hin & Hinj & Hsur).
  assert (in_range 2 1) as Hr by (unfold in_range, WIDTH, HEIGHT; lia).
  assert (0 <= 13 < NUM_LEDS) as Hi by (unfold NUM_LEDS, WIDTH, HEIGHT; lia).
  split; [exact (conj Hr (Hin 2 1 Hr))|].
  split; [exact (conj Hr (conj Hr (conj eq_refl (Hinj 2 1 2 1 Hr Hr eq_refl))))|].
  exact (conj Hi (Hsur 13 Hi)).
Defined.

(** X2. [wheel] returns, for every integer position, three channels between
    0 and 255 that add up to 255, and it has period 256. *)
Theorem wheel_colour (pos : Z) :
  let '(r, g, b) := wheel pos in
  0 <= r <= 255 /\ 0 <= g <= 255 /\ 0 <= b <= 255
  /\ r + g + b = 255
  /\ wheel (pos + 256) = wheel pos.
Proof.
  unfold wheel.
  replace ((pos + 256) `mod` 256) with (pos `mod` 256)
    by (rewrite <- (Z.mod_add pos 1 256) by lia; f_equal; lia).
  pose proof (Z.mod_pos_bound pos 256 ltac:(lia)) as Hm.
  repeat case_decide; split_and!; (lia || reflexivity).
Qed.
End DisplayFacts.

(* ===================================================================== *)
(** * Game of Life: loading, counting, stagnation and the main loop *)
(* ===================================================================== *)

Module LifeMore.
Import Life LifeFacts.

Lemma load_cells_spec (ox oy : Z) (cells : list (Z * Z * Z)) :
  forall g, shape8 g ->
  exists g', load_cells ox oy g cells = Some g' /\ shape8 g'
    /\ forall x y, in_range x y ->
         ((forall c, c ∈ cells -> target ox oy c <> (x, y)) ->
            grid_get g' x y = grid_get g x y)
         /\ (forall v, (exists c, c ∈ cells /\ target ox oy c = (x, y)) ->
               (forall c, c ∈ cells -> target ox oy c = (x, y) -> c.2 = v) ->
               grid_get g' x y = Some v).
Proof.
  unfold load_cells.
  induction cells as [|[[cx cy] cv] cells IH]; intros g Hs.
  - exists g. split; [done|]. split; [done|]. intros x y Hr. split; [done|].
    intros v (c & Hc & _). by apply elem_of_nil in Hc.
  - rewrite foldl_step. cbn [mbind option_bind].
    pose proof (wrap_in_range (cx + ox) (cy + oy)) as Hw.
    destruct (set8 g _ _ cv Hs Hw) as (g1 & Hset & Hs1).
    rewrite Hset.
    destruct (IH g1 Hs1) as (g' & Hfold & Hs' & Hget).
    exists g'. split; [done|]. split; [done|].
    intros x y Hr. destruct (Hget x y Hr) as [Hnone Hsome].
    pose proof (get_set8 g g1 _ _ x y cv Hs Hw Hr Hset) as Hg1.
    split.
    + intros Hno. rewrite Hnone.
      * rewrite Hg1, decide_False; [done|].
        intros [-> ->]. by apply (Hno (cx, cy, cv)); [apply list_elem_of_here|].
      * intros c Hc. apply Hno. by apply list_elem_of_further.
    + intros v Hex Hall.
      destruct (decide (Exists (fun c => target ox oy c = (x, y)) cells)) as [He|He].
      * apply Hsome.
        -- apply Exists_exists in He as (c & Hc & Ht). eauto.
        -- intros c Hc. apply Hall. by apply list_elem_of_further.
      * rewrite Hnone.
        -- destruct Hex as (c & Hc & Ht).
           apply elem_of_cons in Hc as [->|Hc].
           ++ unfold target in Ht. simpl in Ht. injection Ht as <- <-.
              rewrite Hg1, decide_True by done. f_equal.
              by apply (Hall (cx, cy, cv)); [apply list_elem_of_here|].
           ++ exfalso. apply He, Exists_exists. eauto.
        -- intros c Hc Ht. apply He, Exists_exists. eauto.
Qed.

Lemma enumerate2_elem (pattern : list (list Z)) (c : Z * Z * Z) :
  c ∈ enumerate2 pattern
  <-> exists (i j : nat) row, c.1.1 = Z.of_nat i /\ c.1.2 = Z.of_nat j
        /\ pattern !! j = Some row /\ row !! i = Some c.2.
Proof.
  unfold enumerate2. rewrite list_elem_of_In, in_concat.
  setoid_rewrite <- list_elem_of_In. split.
  - intros (l & Hl & Hc). apply elem_of_lookup_imap in Hl as (j & row & -> & Hrow).
    apply elem_of_lookup_imap in Hc as (i & v & -> & Hv).
    exists i, j, row. by split_and!.
  - intros (i & j & row & Hx & Hy & Hrow & Hv).
    exists (imap (fun x cell => (Z.of_nat x, Z.of_nat j, cell)) row). split.
    + apply elem_of_lookup_imap. eauto.
    + apply elem_of_lookup_imap. exists i, c.2. split; [|done].
      destruct c as [[cx cy] cv]. simpl in *. by subst.
Qed.

(** X3. [load_pattern] returns for every pattern and every offset, with an
    8x8 grid, generation 0, an empty history and the population it had
    before. For a pattern of at most 8 rows of at most 8 cells, each
    entry of the pattern is on the grid at its position plus the offset,
    modulo 8, and every cell that no entry is mapped to is 0. *)
Theorem load_pattern_places (pattern : list (list Z)) (ox oy : Z) (s : GameOfLife) :
  exists s', load_pattern pattern ox oy s = Some s'
    /\ shape8 (grid s') /\ generation s' = 0 /\ history s' = []
    /\ population s' = population s
    /\ ((length pattern <= 8)%nat -> Forall (fun row => (length row <= 8)%nat) pattern ->
        (forall (i j : nat) row v,
           pattern !! j = Some row -> row !! i = Some v ->
           grid_get (grid s') ((Z.of_nat i + ox) `mod` WIDTH)
                    ((Z.of_nat j + oy) `mod` HEIGHT) = Some v)
        /\ (forall x y, in_range x y ->
              (forall (i j : nat) row v,
                 pattern !! j = Some row -> row !! i = Some v ->
                 ~ (x = (Z.of_nat i + ox) `mod` WIDTH
                    /\ y = (Z.of_nat j + oy) `mod` HEIGHT)) ->
              grid_get (grid s') x y = Some 0)).
Proof.
  destruct (load_cells_spec ox oy (enumerate2 pattern) (grid_make 8 8 0))
    as (g' & Hload & Hs' & Hget); [apply grid_make_shape|].
  exists (mkGame g' 0 (population s) []).
  split; [unfold load_pattern; by rewrite Hload|].
  split; [done|]. split; [done|]. split; [done|]. split; [done|].
  intros Hrows Hcols. split.
  - intros i j row v Hrow Hv.
    apply (Hget _ _ (wrap_in_range _ _)).
    + exists (Z.of_nat i, Z.of_nat j, v). split; [|done].
      apply enumerate2_elem. exists i, j, row. by split_and!.
    + intros [[cx cy] cv] Hc Ht. simpl.
      apply enumerate2_elem in Hc as (i' & j' & row' & Hx & Hy & Hrow' & Hv').
      simpl in Hx, Hy, Hv'. subst cx cy.
      unfold target, WIDTH, HEIGHT in Ht. simpl in Ht. injection Ht as Hti Htj.
      assert (i < 8 /\ j < 8 /\ i' < 8 /\ j' < 8)%nat as (Hi & Hj & Hi' & Hj').
      { pose proof (lookup_lt_Some _ _ _ Hrow). pose proof (lookup_lt_Some _ _ _ Hrow').
        pose proof (lookup_lt_Some _ _ _ Hv). pose proof (lookup_lt_Some _ _ _ Hv').
        eapply Forall_lookup_1 in Hrow as Hl; [|exact Hcols].
        eapply Forall_lookup_1 in Hrow' as Hl'; [|exact Hcols].
        simpl in Hl, Hl'. lia. }
      assert (i' = i) as -> by (Z.to_euclidean_division_equations; lia).
      assert (j' = j) as -> by (Z.to_euclidean_division_equations; lia).
      congruence.
  - intros x y Hr Hno.
    destruct (Hget x y Hr) as [Hnone _]. cbn [grid]. rewrite Hnone.
    + apply grid_get_make; unfold in_range, WIDTH, HEIGHT in Hr; lia.
    + intros [[cx cy] cv] Hc Ht.
      apply enumerate2_elem in Hc as (i & j & row & Hx & Hy & Hrow & Hv).
      simpl in Hx, Hy, Hv. subst cx cy.
      unfold target in Ht. simpl in Ht. injection Ht as Htx Hty.
      by apply (Hno i j row cv).
Qed.

Lemma load_pattern_places_witness :
  (length GLIDER <= 8)%nat /\ Forall (fun row => (length row <= 8)%nat) GLIDER
  /\ exists s', load_pattern GLIDER 6 7 init = Some s'
    /\ shape8 (grid s') /\ generation s' = 0 /\ history s' = []
    /\ population s' = population init
    /\ (forall (i j : nat) row v,
          GLIDER !! j = Some row -> row !! i = Some v ->
          grid_get (grid s') ((Z.of_nat i + 6) `mod` WIDTH)
                   ((Z.of_nat j + 7) `mod` HEIGHT) = Some v)
    /\ (forall x y, in_range x y ->
          (forall (i j : nat) row v,
             GLIDER !! j = Some row -> row !! i = Some v ->
             ~ (x = (Z.of_nat i + 6) `mod` WIDTH
                /\ y = (Z.of_nat j + 7) `mod` HEIGHT)) ->
          grid_get (grid s') x y = Some 0).
Proof.
  assert (length GLIDER <= 8)%nat as Hrows by (simpl; lia).
  assert (Forall (fun row : list Z => (length row <= 8)%nat) GLIDER) as Hcols
    by (repeat constructor; simpl; lia).
  split; [exact Hrows|]. split; [exact Hcols|].
  destruct (load_pattern_places GLIDER 6 7 init)
    as (s' & Hload & Hshape & Hgen & Hhist & Hpop & Hplace).
  exists s'. split; [exact Hload|]. split; [exact Hshape|]. split; [exact Hgen|].
  split; [exact Hhist|]. split; [exact Hpop|]. exact (Hplace Hrows Hcols).
Defined.

Lemma load_pattern_core (pattern : list (list Z)) (ox oy : Z) (s : GameOfLife) :
  exists s', load_pattern pattern ox oy s = Some s'
    /\ shape8 (grid s') /\ generation s' = 0 /\ population s' = population s.
Proof.
  destruct (load_cells_spec ox oy (enumerate2 pattern) (grid_make 8 8 0))
    as (g' & Hload & Hs' & _); [apply grid_make_shape|].
  exists (mkGame g' 0 (population s) []).
  split; [unfold load_pattern; by rewrite Hload|]. done.
Qed.

Lemma step_tabulate (s : GameOfLife) :
  shape8 (grid s) ->
  step s = Some (mkGame (tabulate (next_val (grid s))) (generation s + 1)
                        (sum_vals (grid s) all_cells)
                        (push_history (history s) (tabulate (next_val (grid s))))).
Proof.
  intros Hs.
  destruct (step_cells_perm (grid s) all_cells Hs) as (ng & Hcells & Hng & Hget); [done|].
  unfold step. rewrite Hcells. cbn [mbind option_bind].
  assert (ng = tabulate (next_val (grid s))) as ->; [|reflexivity].
  apply (grid_ext 8 8); [done|apply tabulate_shape|].
  intros x y Hx Hy. rewrite Hget, tabulate_get; done.
Qed.

Lemma tabulate_binary (g : list (list Z)) : grid_binary (tabulate (next_val g)).
Proof.
  unfold grid_binary, tabulate.
  apply Forall_forall. intros row Hrow.
  apply list_elem_of_In, in_map_iff in Hrow as (y & <- & _).
  apply Forall_forall. intros v Hv.
  apply list_elem_of_In, in_map_iff in Hv as (x & <- & _).
  apply next_val_binary.
Qed.

Lemma push_history_length (h : list (list (list Z))) (g : list (list Z)) :
  (length h <= 10)%nat -> (length (push_history h g) <= 10)%nat.
Proof.
  intros Hh. unfold push_history, STAGNATION_CHECK.
  case_decide as Hc.
  - destruct h as [|a h]; [simpl in Hc; lia|].
    simpl in *. rewrite length_app in *. simpl in *. lia.
  - rewrite length_app in *. simpl in *. lia.
Qed.

Lemma push_history_last (h : list (list (list Z))) (g : list (list Z)) :
  last (push_history h g) = Some g.
Proof.
  unfold push_history, STAGNATION_CHECK. case_decide as Hc.
  - destruct h as [|a h]; [simpl in Hc; lia|].
    simpl. apply last_snoc.
  - apply last_snoc.
Qed.

(** X4. On every 8x8 grid, whatever its cells hold, [step] returns: the new
    grid is 8x8 with cells 0 or 1, [population] is the number of live
    cells of the new grid, [generation] has grown by one, the new grid is
    the last entry of [history], and a history of at most 10 entries
    stays at most 10 long. *)
Theorem step_census (s : GameOfLife) :
  shape8 (grid s) ->
  exists s', step s = Some s'
    /\ shape8 (grid s') /\ grid_binary (grid s')
    /\ population s' = Z.of_nat (live_cells (grid s'))
    /\ generation s' = generation s + 1
    /\ last (history s') = Some (grid s')
    /\ ((length (history s) <= 10)%nat -> (length (history s') <= 10)%nat).
Proof.
  intros Hs. eexists. split; [apply (step_tabulate s Hs)|].
  cbn [grid population generation history].
  split; [apply tabulate_shape|].
  split; [apply tabulate_binary|].
  split.
  { unfold live_cells.
    rewrite sum_vals_foldr, tabulate_concat, <- live_count_sum; [reflexivity|].
    apply Forall_forall. intros v Hv. apply list_elem_of_fmap in Hv as (c & -> & _).
    apply next_val_binary. }
  split; [reflexivity|].
  split; [apply push_history_last|apply push_history_length].
Qed.

Lemma step_census_witness :
  shape8 (grid blinker_state)
  /\ exists s', step blinker_state = Some s'
    /\ shape8 (grid s') /\ grid_binary (grid s')
    /\ population s' = Z.of_nat (live_cells (grid s'))
    /\ generation s' = generation blinker_state + 1
    /\ last (history s') = Some (grid s')
    /\ ((length (history blinker_state) <= 10)%nat -> (length (history s') <= 10)%nat).
Proof.
  assert (shape8 (grid blinker_state)) as Hs
    by (split; [reflexivity|repeat constructor]).
  exact (conj Hs (step_census blinker_state Hs)).
Defined.

Lemma push_history_replicate (k : nat) (g : list (list Z)) :
  (k <= 10)%nat ->
  push_history (replicate k g) g = replicate (Nat.min (k + 1) 10) g.
Proof.
  intros Hk. unfold push_history, STAGNATION_CHECK.
  assert (replicate k g ++ [g] = replicate (k + 1) g) as ->.
  { rewrite replicate_add. reflexivity. }
  rewrite length_replicate. case_decide as Hc.
  - assert (k = 10)%nat as -> by lia. reflexivity.
  - f_equal. lia.
Qed.

Lemma still_life_run (g : list (list Z)) (n : nat) :
  shape8 g -> tabulate (next_val g) = g ->
  forall s k, grid s = g -> (k <= 10)%nat -> history s = replicate k g ->
  exists sn, run_steps n s = Some sn
    /\ grid sn = g /\ generation sn = generation s + Z.of_nat n
    /\ population sn = (if n is O then population s else sum_vals g all_cells)
    /\ history sn = replicate (Nat.min (k + n) 10) g.
Proof.
  intros Hg Hfix. induction n as [|n IH]; intros s k Hgrid Hk Hh.
  - exists s. split; [reflexivity|]. split; [done|]. split; [lia|].
    split; [done|]. rewrite Hh. f_equal. lia.
  - assert (run_steps (S n) s = (s' ← step s; run_steps n s')) as -> by reflexivity.
    rewrite step_tabulate by (rewrite Hgrid; exact Hg).
    cbn [mbind option_bind]. rewrite Hgrid, Hfix, Hh, push_history_replicate by done.
    edestruct (IH (mkGame g (generation s + 1) (sum_vals g all_cells)
                          (replicate (Nat.min (k + 1) 10) g)) (Nat.min (k + 1) 10))
      as (sn & Hrun & Hgn & Hgen & Hpop & Hhist); [reflexivity|lia|reflexivity|].
    exists sn. split; [exact Hrun|]. split; [exact Hgn|].
    cbn [generation population] in Hgen, Hpop.
    split; [lia|]. split; [by destruct n|].
    rewrite Hhist. f_equal. lia.
Qed.

Lemma is_stagnant_replicate (s : GameOfLife) (m : nat) (g : list (list Z)) :
  history s = replicate m g -> (m <= 10)%nat ->
  is_stagnant s = bool_decide (10 <= m)%nat.
Proof.
  intros Hh Hm. unfold is_stagnant, STAGNATION_CHECK. rewrite Hh, length_replicate.
  case_decide as Hc.
  - symmetry. apply bool_decide_eq_false. lia.
  - assert (m = 10)%nat as -> by lia.
    assert (last (replicate 10 g) = Some g) as -> by reflexivity.
    assert (forall k, filter (fun st => st = g) (replicate k g) = replicate k g) as ->.
    { induction k as [|k IHk]; [reflexivity|].
      cbn [replicate]. rewrite filter_cons_True by done. by rewrite IHk. }
    reflexivity.
Qed.

(** X5. A freshly loaded pattern that one [step] maps to itself (a still
    life) stays the same grid for every number of steps; its history
    holds the last min(n, 10) grids, and [is_stagnant] is false for the
    first nine steps and true from the tenth step on. *)
Theorem still_life_stagnates (s s1 : GameOfLife) (n : nat) :
  shape8 (grid s) -> step s = Some s1 -> grid s1 = grid s -> history s = [] ->
  exists sn, run_steps n s = Some sn
    /\ grid sn = grid s
    /\ generation sn = generation s + Z.of_nat n
    /\ history sn = replicate (Nat.min n 10) (grid s)
    /\ is_stagnant sn = bool_decide (10 <= n)%nat.
Proof.
  intros Hs Hstep Hfix Hh.
  rewrite (step_tabulate s Hs) in Hstep. apply (inj Some) in Hstep. subst s1.
  cbn [grid] in Hfix.
  destruct (still_life_run (grid s) n Hs Hfix s 0%nat) as (sn & Hrun & Hg & Hgen & _ & Hhist);
    [reflexivity|lia|by rewrite Hh|].
  exists sn. split; [exact Hrun|]. split; [exact Hg|]. split; [exact Hgen|].
  rewrite Nat.add_0_l in Hhist. split; [exact Hhist|].
  rewrite (is_stagnant_replicate sn _ _ Hhist) by lia.
  apply bool_decide_ext. lia.
Qed.

Lemma still_life_stagnates_witness :
  let s := default init (load_pattern BLOCK 3 3 init) in
  shape8 (grid s) /\ step s = Some (default init (step s))
  /\ grid (default init (step s)) = grid s /\ history s = []
  /\ exists sn, run_steps 12 s = Some sn
    /\ grid sn = grid s
    /\ generation sn = generation s + Z.of_nat 12
    /\ history sn = replicate (Nat.min 12 10) (grid s)
    /\ is_stagnant sn = bool_decide (10 <= 12)%nat.
Proof.
  intros s.
  assert (shape8 (grid s)) as Hs by (split; [reflexivity|repeat constructor]).
  assert (step s = Some (default init (step s))) as Hstep by (vm_compute; reflexivity).
  assert (grid (default init (step s)) = grid s) as Hfix by (vm_compute; reflexivity).
  assert (history s = []) as Hh by reflexivity.
  split; [exact Hs|]. split; [exact Hstep|]. split; [exact Hfix|]. split; [exact Hh|].
  exact (still_life_stagnates s (default init (step s)) 12 Hs Hstep Hfix Hh).
Defined.

(** ** The main loop *)

Lemma update_ages_total (g a : list (list Z)) :
  shape8 g -> shape8 a -> exists a', update_ages g a = Some a' /\ shape8 a'.
Proof.
  intros Hg. unfold update_ages.
  assert (Forall (fun c : Z * Z => in_range c.1 c.2) all_cells) as Hall
    by (apply perm_all_in_range; reflexivity).
  revert a. induction Hall as [|[x y] cells Hc _ IH]; intros a Ha.
  - exists a. done.
  - rewrite foldl_step. cbn [mbind option_bind fst snd].
    simpl in Hc.
    destruct (get8 g x y Hg Hc) as (v & ->). cbn [mbind option_bind].
    case_decide.
    + destruct (get8 a x y Ha Hc) as (old & ->). cbn [mbind option_bind].
      destruct (set8 a x y (old + 1) Ha Hc) as (a1 & -> & Ha1). apply IH, Ha1.
    + destruct (set8 a x y 0 Ha Hc) as (a1 & -> & Ha1). apply IH, Ha1.
Qed.

Lemma py_get_total {A} (l : list A) (i : Z) :
  0 <= i < Z.of_nat (length l) -> exists v, py_get l i = Some v.
Proof.
  intros Hi. unfold py_get, py_index. rewrite decide_True by done.
  cbn [mbind option_bind]. apply lookup_lt_is_Some_2. lia.
Qed.

Lemma randomize_shape (draws : list (list bool)) (s : GameOfLife) :
  shape8 draws -> shape8 (grid (randomize draws s)).
Proof.
  intros [Hl Hrows]. unfold randomize. cbn [grid]. split.
  - by rewrite length_map.
  - apply Forall_forall. intros row Hrow.
    apply list_elem_of_In, in_map_iff in Hrow as (r & <- & Hr).
    rewrite length_map. apply list_elem_of_In in Hr.
    by apply (proj1 (Forall_forall _ _) Hrows).
Qed.

Lemma runner_turn_resets (patterns : list (list (list Z) * Z * Z))
      (d : list (list bool)) (r : Runner) :
  shape8 d -> runner_inv r ->
  exists r', runner_turn patterns d r = Some (r', false) /\ runner_inv r'.
Proof.
  intros Hd (Hpop & Hgen & Hg & Ha & Hi).
  unfold runner_turn.
  destruct (update_ages_total _ _ Hg Ha) as (a1 & -> & _). cbn [mbind option_bind].
  assert (should_reset (game r) = true) as ->.
  { unfold should_reset, is_dead. rewrite bool_decide_eq_true_2 by done. reflexivity. }
  set (n := Z.of_nat (length patterns)).
  assert (0 <= (pattern_index r + 1) `mod` (n + 1) < n + 1) as Hidx
    by (apply Z.mod_pos_bound; lia).
  case_decide as Hlt.
  - destruct (py_get_total patterns ((pattern_index r + 1) `mod` (n + 1)))
      as ([[pattern ox] oy] & ->); [lia|]. cbn [mbind option_bind].
    destruct (load_pattern_core pattern ox oy (game r)) as (s' & -> & Hs' & Hg' & Hp').
    cbn [mbind option_bind]. eexists. split; [reflexivity|].
    unfold runner_inv. cbn [game ages pattern_index].
    split_and!; [congruence|done|done|apply grid_make_shape|lia].
  - cbn [mbind option_bind]. eexists. split; [reflexivity|].
    unfold runner_inv. cbn [game ages pattern_index].
    split_and!; [done|done|by apply randomize_shape|apply grid_make_shape|lia].
Qed.

(** X6. The loop of [run_game_of_life], for every non-empty catalogue and
    every sequence of random grids: the code before the loop returns,
    every turn returns and takes the reset branch, so that [step] is
    never called; generation and population are 0 at every turn. *)
Theorem runner_never_steps (patterns : list (list (list Z) * Z * Z))
        (draws : list (list (list bool))) :
  patterns <> [] -> Forall (fun d => shape8 d) draws ->
  exists r0 r, runner_start patterns = Some r0
    /\ runner_turns patterns draws r0 = Some (r, false)
    /\ generation (game r) = 0 /\ population (game r) = 0.
Proof.
  intros Hne Hdraws.
  assert (exists r0, runner_start patterns = Some r0 /\ runner_inv r0) as (r0 & Hstart & Hinv).
  { unfold runner_start.
    destruct (py_get_total patterns 0) as ([[pattern ox] oy] & ->).
    { destruct patterns; [done|]. simpl. lia. }
    cbn [mbind option_bind].
    destruct (load_pattern_core pattern ox oy init) as (s' & -> & Hs' & Hg' & Hp').
    cbn [mbind option_bind]. eexists. split; [reflexivity|].
    unfold runner_inv. cbn [game ages pattern_index].
    split_and!; [by rewrite Hp'|done|done|apply grid_make_shape|lia]. }
  exists r0. rewrite Hstart.
  clear Hstart. revert r0 Hinv.
  induction Hdraws as [|d rest Hd _ IH]; intros r0 Hinv.
  - exists r0. destruct Hinv as (? & ? & _). done.
  - destruct (runner_turn_resets patterns d r0 Hd Hinv) as (r1 & Hturn & Hinv1).
    destruct (IH r1 Hinv1) as (r & _ & Hturns & Hgen & Hpop).
    exists r. split; [reflexivity|]. split; [|done].
    cbn [runner_turns]. rewrite Hturn. cbn [mbind option_bind].
    rewrite Hturns. reflexivity.
Qed.

Lemma runner_never_steps_witness :
  PATTERNS <> [] /\ Forall (fun d => shape8 d) [grid_make 8 8 true; grid_make 8 8 false]
  /\ exists r0 r, runner_start PATTERNS = Some r0
    /\ runner_turns PATTERNS [grid_make 8 8 true; grid_make 8 8 false] r0 = Some (r, false)
    /\ generation (game r) = 0 /\ population (game r) = 0.
Proof.
  assert (PATTERNS <> []) as H1 by discriminate.
  assert (Forall (fun d : list (list bool) => shape8 d)
                 [grid_make 8 8 true; grid_make 8 8 false]) as H2
    by (repeat constructor).
  split; [exact H1|]. split; [exact H2|].
  exact (runner_never_steps PATTERNS _ H1 H2).
Defined.
End LifeMore.

(* ===================================================================== *)
(** * Langton's ant: turns, bouncing and the classic step *)
(* ===================================================================== *)

Module AntMore.
Import Ant AntFacts.

(** X7. [turn_right] and [turn_left] return a facing in 0..3 for every
    integer; each undoes the other, two turns to the right equal two to
    the left, and four turns to the right give the facing back (modulo
    4). *)
Theorem turns_cancel (d : Z) :
  0 <= turn_right d < 4 /\ 0 <= turn_left d < 4
  /\ turn_left (turn_right d) = d `mod` 4
  /\ turn_right (turn_left d) = d `mod` 4
  /\ turn_right (turn_right d) = turn_left (turn_left d)
  /\ turn_right (turn_right (turn_right (turn_right d))) = d `mod` 4.
Proof.
  unfold turn_right, turn_left.
  pose proof (Z.mod_pos_bound (d + 1) 4 ltac:(lia)).
  pose proof (Z.mod_pos_bound (d - 1) 4 ltac:(lia)).
  split; [done|]. split; [done|].
  Z.to_euclidean_division_equations. lia.
Qed.

(** X8. [Ant.move] with [WRAP_EDGES] false: when the cell ahead is on the
    grid the ant moves to it and keeps its facing; when it is not, the
    ant stays where it is and faces the opposite way. The step counter
    grows by one in both cases. *)
Theorem move_bounce (a : Ant) :
  ant_in_range a -> facing_ok a ->
  exists dx dy,
    DIRECTIONS !! Z.to_nat (direction a) = Some (dx, dy)
    /\ (in_range (x a + dx) (y a + dy) ->
          move false a = Ok (mkAnt (x a + dx) (y a + dy) (direction a)
                                   (color a) (steps a + 1)))
    /\ (~ in_range (x a + dx) (y a + dy) ->
          move false a = Ok (mkAnt (x a) (y a) ((direction a + 2) `mod` 4)
                                   (color a) (steps a + 1))).
Proof.
  intros [Hx Hy] Hd. unfold facing_ok in Hd. unfold move.
  destruct (directions_get (direction a) Hd) as (dx & dy & -> & Hl & Hdir).
  exists dx, dy. split; [done|]. cbn [subscript rbind].
  unfold in_range, WIDTH, HEIGHT in *.
  split; intros Hr; repeat case_decide; try lia; do 2 f_equal; try lia;
    unfold turn_right; Z.to_euclidean_division_equations; lia.
Qed.

Lemma move_bounce_witness :
  ant_in_range corner_ant /\ facing_ok corner_ant
  /\ exists dx dy,
    DIRECTIONS !! Z.to_nat (direction corner_ant) = Some (dx, dy)
    /\ (in_range (x corner_ant + dx) (y corner_ant + dy) ->
          move false corner_ant
          = Ok (mkAnt (x corner_ant + dx) (y corner_ant + dy) (direction corner_ant)
                      (color corner_ant) (steps corner_ant + 1)))
    /\ (~ in_range (x corner_ant + dx) (y corner_ant + dy) ->
          move false corner_ant
          = Ok (mkAnt (x corner_ant) (y corner_ant) ((direction corner_ant + 2) `mod` 4)
                      (color corner_ant) (steps corner_ant + 1))).
Proof.
  assert (ant_in_range corner_ant /\ facing_ok corner_ant) as [Hr Hf]
    by (unfold ant_in_range, facing_ok, in_range, WIDTH, HEIGHT; simpl; lia).
  exact (conj Hr (conj Hf (move_bounce corner_ant Hr Hf))).
Defined.

(** X9. On an 8x8 grid of cells 0 and 1, a step of [ExtendedAnt] with the
    rule string RL returns the same grid and the same ant as the step of
    the classic ant ([LangtonAnt.step]). *)
Theorem extended_RL_is_langton (wrap : bool) (g : list (list Z)) (a : Ant) :
  shape8 g -> cells_below 2 g -> ant_in_range a -> facing_ok a ->
  exists g' a',
    classic_step wrap g a = Ok (g', a')
    /\ extended_step wrap (mkExtended "RL" 2 g a) = Ok (mkExtended "RL" 2 g' a').
Proof.
  intros Hs Hb Hr Hf.
  destruct (classic_step_ok wrap g a Hs Hr Hf) as (g' & a' & Hstep & _).
  exists g', a'. split; [done|].
  unfold classic_step in Hstep. unfold extended_step. cbn [e_ant e_grid rules num_states].
  destruct Hr as [Hx Hy].
  destruct (grid_get_is_Some 8 8 g (x a) (y a) Hs Hx Hy) as [c Hc].
  pose proof (cells_below_get 2 g _ _ c Hs Hb (conj Hx Hy) Hc) as Hc2.
  rewrite Hc in Hstep |- *. cbn [subscript rbind] in Hstep |- *.
  assert (c = 0 \/ c = 1) as [-> | ->] by lia.
  - rewrite decide_True in Hstep by done.
    replace (str_get "RL" 0) with (Some "R"%char) by reflexivity.
    replace (py_mod (0 + 1) 2) with (Ok 1) by reflexivity.
    cbn [subscript rbind Ascii.eqb Bool.eqb] in Hstep |- *.
    destruct (grid_set g (x a) (y a) 1) as [g1|]; [|discriminate Hstep].
    cbn [subscript rbind] in Hstep |- *.
    destruct (move wrap _) as [a1|e]; [|discriminate Hstep].
    cbn [rbind] in Hstep |- *. by injection Hstep as <- <-.
  - rewrite decide_False in Hstep by done.
    replace (str_get "RL" 1) with (Some "L"%char) by reflexivity.
    replace (py_mod (1 + 1) 2) with (Ok 0) by reflexivity.
    cbn [subscript rbind Ascii.eqb Bool.eqb] in Hstep |- *.
    destruct (grid_set g (x a) (y a) 0) as [g1|]; [|discriminate Hstep].
    cbn [subscript rbind] in Hstep |- *.
    destruct (move wrap _) as [a1|e]; [|discriminate Hstep].
    cbn [rbind] in Hstep |- *. by injection Hstep as <- <-.
Qed.

Lemma extended_RL_is_langton_witness :
  shape8 (grid_make 8 8 0) /\ cells_below 2 (grid_make 8 8 0)
  /\ ant_in_range corner_ant /\ facing_ok corner_ant
  /\ exists g' a',
    classic_step true (grid_make 8 8 0) corner_ant = Ok (g', a')
    /\ extended_step true (mkExtended "RL" 2 (grid_make 8 8 0) corner_ant)
       = Ok (mkExtended "RL" 2 g' a').
Proof.
  assert (shape8 (grid_make 8 8 0)) as Hs by apply grid_make_shape.
  assert (cells_below 2 (grid_make 8 8 0)) as Hb
    by (apply Forall_replicate, Forall_replicate; lia).
  assert (ant_in_range corner_ant /\ facing_ok corner_ant) as [Hr Hf]
    by (unfold ant_in_range, facing_ok, in_range, WIDTH, HEIGHT; simpl; lia).
  split; [exact Hs|]. split; [exact Hb|]. split; [exact Hr|]. split; [exact Hf|].
  exact (extended_RL_is_langton true (grid_make 8 8 0) corner_ant Hs Hb Hr Hf).
Defined.

(** X10. A step of the classic ant on an 8x8 grid returns; it flips the
    cell under the ant (0 becomes 1, anything else becomes 0) and leaves
    every other cell as it was; the ant keeps its colour and its step
    counter grows by one. *)
Theorem classic_step_frame (wrap : bool) (g : list (list Z)) (a : Ant) :
  shape8 g -> ant_in_range a -> facing_ok a ->
  exists cell g' a',
    grid_get g (x a) (y a) = Some cell
    /\ classic_step wrap g a = Ok (g', a')
    /\ steps a' = steps a + 1 /\ color a' = color a
    /\ forall x' y', in_range x' y' ->
         grid_get g' x' y'
         = if decide (x' = x a /\ y' = y a)
           then Some (if decide (cell = 0) then 1 else 0)
           else grid_get g x' y'.
Proof.
  intros Hs [Hx Hy] Hf.
  destruct (grid_get_is_Some 8 8 g (x a) (y a) Hs Hx Hy) as [c Hc].
  exists c. unfold classic_step. rewrite Hc. cbn [subscript rbind].
  set (dv := if decide (c = 0) then _ else _).
  assert (0 <= dv.1 < 4 /\ dv.2 = if decide (c = 0) then 1 else 0) as [Hdv Hv].
  { subst dv. case_decide; simpl; auto using turn_right_ok, turn_left_ok. }
  destruct dv as [d v]. simpl in Hdv, Hv. subst v.
  destruct (set8 g (x a) (y a) (if decide (c = 0) then 1 else 0) Hs (conj Hx Hy))
    as (g' & Hset & Hs').
  rewrite Hset. cbn [subscript rbind].
  destruct (move_in_range wrap (mkAnt (x a) (y a) d (color a) (steps a)))
    as (a' & -> & _ & _ & Hcol & Hsteps); [done..|].
  cbn [rbind]. exists g', a'. split; [done|]. split; [done|].
  split; [done|]. split; [done|].
  intros x' y' Hr'. exact (get_set8 g g' _ _ x' y' _ Hs (conj Hx Hy) Hr' Hset).
Qed.

Lemma classic_step_frame_witness :
  shape8 (grid_make 8 8 0) /\ ant_in_range corner_ant /\ facing_ok corner_ant
  /\ exists cell g' a',
    grid_get (grid_make 8 8 0) (x corner_ant) (y corner_ant) = Some cell
    /\ classic_step true (grid_make 8 8 0) corner_ant = Ok (g', a')
    /\ steps a' = steps corner_ant + 1 /\ color a' = color corner_ant
    /\ forall x' y', in_range x' y' ->
         grid_get g' x' y'
         = if decide (x' = x corner_ant /\ y' = y corner_ant)
           then Some (if decide (cell = 0) then 1 else 0)
           else grid_get (grid_make 8 8 0) x' y'.
Proof.
  assert (shape8 (grid_make 8 8 0)) as Hs by apply grid_make_shape.
  assert (ant_in_range corner_ant /\ facing_ok corner_ant) as [Hr Hf]
    by (unfold ant_in_range, facing_ok, in_range, WIDTH, HEIGHT; simpl; lia).
  split; [exact Hs|]. split; [exact Hr|]. split; [exact Hf|].
  exact (classic_step_frame true (grid_make 8 8 0) corner_ant Hs Hr Hf).
Defined.
End AntMore.

(* ===================================================================== *)
(** * Falling sand: spawning, one tick, coming to rest *)
(* ===================================================================== *)

Module SandMore.
Import Grains Sand GrainFacts SandFacts LifeFacts GrainClaims.

Lemma try_slide_grain (w : world) (i : nat) (g : SandGrain) (x y : Z)
      (directions : list Z) (w' : world) (moved : bool) :
  grains w !! i = Some g -> Forall (fun dx => -1 <= dx <= 1) directions ->
  try_slide w i x y directions = Some (w', moved) ->
  length (grains w') = length (grains w)
  /\ (forall j, j <> i -> grains w' !! j = grains w !! j)
  /\ if moved
     then exists nx, x - 1 <= nx <= x + 1
            /\ grains w' !! i = Some (mkGrain nx (y + 1) (gcolor g) (settled g))
     else w' = w.
Proof.
  intros Hg Hd. induction Hd as [|dx rest Hdx _ IH]; simpl.
  - intros [= <- <-]. done.
  - case_decide as Hx; [|done].
    intros H. apply bind_Some in H as (c & Hc & H).
    destruct c as [k|]; [by apply IH|].
    apply bind_Some in H as (w1 & Hm & [= <- <-]).
    pose proof (fun j => move_grain_other _ _ j _ _ _ Hm) as Hother.
    apply move_grain_grains in Hm as (g0 & Hg0 & Hgr).
    rewrite Hg in Hg0. injection Hg0 as <-.
    split; [by rewrite Hgr, length_insert|].
    split; [intros j Hj; by apply Hother|].
    exists (x + dx). split; [lia|].
    rewrite Hgr. apply list_lookup_insert_eq. by eapply lookup_lt_Some.
Qed.

Lemma process_grain_rel (w w' : world) (coins coins' : list bool) (i : nat) :
  process_grain (Some (w, coins)) i = Some (w', coins') ->
  length (grains w') = length (grains w)
  /\ (forall j, j <> i -> grains w' !! j = grains w !! j)
  /\ exists g g', grains w !! i = Some g /\ grains w' !! i = Some g' /\ tick_rel g g'.
Proof.
  unfold process_grain. cbn [mbind option_bind].
  intros H. apply bind_Some in H as (g & Hg & H).
  assert (Hlt : (i < length (grains w))%nat) by (by eapply lookup_lt_Some).
  destruct (settled g) eqn:Hset.
  { injection H as <- <-. split; [done|]. split; [done|].
    exists g, g. split; [done|]. split; [done|].
    split; [done|]. split; [done|]. congruence. }
  assert (Hsettle : forall w0 w1, grains w0 = grains w -> set_settled w0 i true = Some w1 ->
            length (grains w1) = length (grains w)
            /\ (forall j, j <> i -> grains w1 !! j = grains w !! j)
            /\ exists g g', grains w !! i = Some g /\ grains w1 !! i = Some g' /\ tick_rel g g').
  { intros w0 w1 Hw0 Hs.
    pose proof (fun j => set_settled_other _ _ j _ _ Hs) as Hother.
    apply set_settled_grains in Hs as (g0 & Hg0 & ->).
    rewrite Hw0 in *. rewrite Hg in Hg0. injection Hg0 as <-. cbn [grains] in *.
    split; [by rewrite length_insert|].
    split; [intros j Hj; by apply Hother|].
    exists g, (mkGrain (gx g) (gy g) (gcolor g) true).
    split; [done|]. split; [by apply list_lookup_insert_eq|].
    split; [done|]. split; [congruence|]. intros _. left. done. }
  case_decide as Hy.
  - apply bind_Some in H as (c & Hc & H). destruct c as [k|].
    + destruct (next_coin coins) as [coin coins1].
      apply bind_Some in H as ([w1 moved] & Hslide & H).
      apply try_slide_grain with (g := g) in Hslide as (Hlen & Hother & Hres); [|done|].
      2:{ destruct coin; repeat constructor; lia. }
      destruct moved.
      * injection H as <- <-. destruct Hres as (nx & Hnx & Hres).
        split; [done|]. split; [done|].
        exists g, (mkGrain nx (gy g + 1) (gcolor g) (settled g)).
        split; [done|]. split; [done|].
        split; [done|]. split; [congruence|]. intros _. right. cbn. done.
      * subst w1. apply bind_Some in H as (w2 & Hs & [= <- <-]).
        by apply (Hsettle w w2).
    + apply bind_Some in H as (w1 & Hm & [= <- <-]).
      pose proof (fun j => move_grain_other _ _ j _ _ _ Hm) as Hother.
      apply move_grain_grains in Hm as (g0 & Hg0 & Hgr).
      rewrite Hg in Hg0. injection Hg0 as <-.
      split; [by rewrite Hgr, length_insert|].
      split; [intros j Hj; by apply Hother|].
      exists g, (mkGrain (gx g) (gy g + 1) (gcolor g) (settled g)).
      split; [done|]. split; [rewrite Hgr; by apply list_lookup_insert_eq|].
      split; [done|]. split; [congruence|]. intros _. right. cbn. split; [lia|done].
  - apply bind_Some in H as (w1 & Hs & [= <- <-]).
    by apply (Hsettle w w1).
Qed.

Lemma fold_process_rel (ids : list nat) :
  NoDup ids ->
  forall w coins w' coins',
    foldl process_grain (Some (w, coins)) ids = Some (w', coins') ->
    length (grains w') = length (grains w)
    /\ forall i g, grains w !! i = Some g ->
         exists g', grains w' !! i = Some g'
           /\ (i ∈ ids -> tick_rel g g') /\ (i ∉ ids -> g' = g).
Proof.
  induction 1 as [|j ids Hj Hnd IH]; intros w coins w' coins' Hfold.
  - injection Hfold as <- <-. split; [done|]. intros i g Hg. exists g.
    split; [done|]. split; [|done]. intros Hin. by apply elem_of_nil in Hin.
  - rewrite foldl_step in Hfold.
    destruct (process_grain (Some (w, coins)) j) as [[w1 coins1]|] eqn:Hp.
    2:{ rewrite foldl_None in Hfold by apply sand_process_None. done. }
    apply process_grain_rel in Hp as (Hlen1 & Hother & gj & gj' & Hgj & Hgj' & Hrel).
    destruct (IH _ _ _ _ Hfold) as (Hlen & Hall).
    split; [congruence|].
    intros i g Hg. destruct (decide (i = j)) as [->|Hne].
    + rewrite Hgj in Hg. injection Hg as <-.
      destruct (Hall j gj' Hgj') as (g' & Hg' & _ & Hout).
      exists g'. split; [done|]. rewrite (Hout Hj). split; [done|].
      intros Hnot. exfalso. apply Hnot, list_elem_of_here.
    + rewrite <- Hother in Hg by done.
      destruct (Hall i g Hg) as (g' & Hg' & Hin & Hout).
      exists g'. split; [done|]. split.
      * intros [->|Hi]%elem_of_cons; [done|by apply Hin].
      * intros Hnot. apply Hout. intros Hi. apply Hnot. by apply list_elem_of_further.
Qed.

Lemma update_rel (coins : list bool) (s s' : SandSimulation) :
  update coins s = Some s' ->
  grain_count s' = grain_count s /\ color_index s' = color_index s
  /\ length (grains (sworld s')) = length (grains (sworld s))
  /\ forall i g, grains (sworld s) !! i = Some g ->
       exists g', grains (sworld s') !! i = Some g' /\ tick_rel g g'.
Proof.
  unfold update, update_world. intros H.
  apply bind_Some in H as ([w c'] & Hfold & [= <-]). cbn [grain_count color_index sworld].
  split; [done|]. split; [done|].
  set (ids := sorted_by _ _) in Hfold.
  assert (ids ≡ₚ grain_ids (sworld s)) as Hperm by apply sorted_by_perm.
  apply fold_process_rel in Hfold as (Hlen & Hall).
  2:{ rewrite Hperm. apply NoDup_seq. }
  split; [done|]. intros i g Hg.
  destruct (Hall i g Hg) as (g' & Hg' & Hin & _). exists g'. split; [done|].
  apply Hin. rewrite Hperm. unfold grain_ids. apply elem_of_seq.
  apply lookup_lt_Some in Hg. lia.
Qed.

(** X13. What a tick of [SandSimulation.update] does to the grains: their
    number and [grain_count] stay the same; every grain keeps its colour;
    a settled grain is left exactly as it is; an unsettled grain either
    settles where it is or stays unsettled and goes exactly one row down,
    at most one column to the side. *)
Theorem sand_update_moves (coins : list bool) (s s' : SandSimulation) :
  update coins s = Some s' ->
  grain_count s' = grain_count s
  /\ length (grains (sworld s')) = length (grains (sworld s))
  /\ forall i g, grains (sworld s) !! i = Some g ->
       exists g', grains (sworld s') !! i = Some g'
         /\ gcolor g' = gcolor g
         /\ (settled g = true -> g' = g)
         /\ (settled g = false ->
               (gx g' = gx g /\ gy g' = gy g /\ settled g' = true)
               \/ (gx g - 1 <= gx g' <= gx g + 1 /\ gy g' = gy g + 1
                   /\ settled g' = false)).
Proof.
  intros H. apply update_rel in H as (Hc & _ & Hlen & Hall).
  split; [done|]. split; [done|]. exact Hall.
Qed.

Lemma full_state_reachable : reachable full_state.
Proof.
  apply (reachable_run_ops full_script init); [constructor|].
  vm_compute. reflexivity.
Qed.

Lemma sand_update_moves_witness :
  let s' := default init (update [true] tower_state) in
  update [true] tower_state = Some s'
  /\ grain_count s' = grain_count tower_state
  /\ length (grains (sworld s')) = length (grains (sworld tower_state))
  /\ forall i g, grains (sworld tower_state) !! i = Some g ->
       exists g', grains (sworld s') !! i = Some g'
         /\ gcolor g' = gcolor g
         /\ (settled g = true -> g' = g)
         /\ (settled g = false ->
               (gx g' = gx g /\ gy g' = gy g /\ settled g' = true)
               \/ (gx g - 1 <= gx g' <= gx g + 1 /\ gy g' = gy g + 1
                   /\ settled g' = false)).
Proof.
  intros s'.
  assert (update [true] tower_state = Some s') as Hup by (vm_compute; reflexivity).
  exact (conj Hup (sand_update_moves [true] tower_state s' Hup)).
Defined.

Lemma active_le (l l' : list SandGrain) :
  Forall2 (fun g g' => settled g = true -> settled g' = true) l l' ->
  (length (filter (fun g => settled g = false) l')
   <= length (filter (fun g => settled g = false) l))%nat.
Proof.
  induction 1 as [|g g' l l' Hg _ IH]; [done|].
  rewrite !filter_cons. destruct (settled g) eqn:E.
  - rewrite (Hg eq_refl). simpl. exact IH.
  - destruct (settled g'); simpl; lia.
Qed.

(** X14. A tick of [update] never raises [count_active]: the number of
    unsettled grains after the tick is at most the number before. *)
Theorem count_active_decreases (coins : list bool) (s s' : SandSimulation) :
  update coins s = Some s' -> count_active s' <= count_active s.
Proof.
  intros H. apply update_rel in H as (_ & _ & Hlen & Hall).
  unfold count_active. apply inj_le, active_le.
  apply Forall2_same_length_lookup. split; [done|].
  intros i g g' Hg Hg' Hs.
  destruct (Hall i g Hg) as (g'' & Hg'' & _ & Hkeep & _).
  rewrite Hg' in Hg''. injection Hg'' as <-. by rewrite (Hkeep Hs).
Qed.

Lemma count_active_decreases_witness :
  let s := default init (spawn_grain 0 init) in
  let s' := default init (update [] s) in
  update [] s = Some s' /\ count_active s' <= count_active s.
Proof.
  intros s s'.
  assert (update [] s = Some s') as Hup by (vm_compute; reflexivity).
  exact (conj Hup (count_active_decreases [] s s' Hup)).
Defined.

(** ** Sand comes to rest *)

Lemma update_below (coins : list bool) (s s' : SandSimulation) (k : Z) :
  below k s -> update coins s = Some s' -> below (k + 1) s'.
Proof.
  intros Hb H. apply update_rel in H as (_ & _ & Hlen & Hall).
  intros i g' Hg' Hs'.
  assert (is_Some (grains (sworld s) !! i)) as [g Hg].
  { apply lookup_lt_is_Some. rewrite <- Hlen. by eapply lookup_lt_Some. }
  destruct (Hall i g Hg) as (g'' & Hg'' & _ & Hkeep & Hmove).
  rewrite Hg' in Hg''. injection Hg'' as <-.
  destruct (settled g) eqn:E.
  - rewrite (Hkeep eq_refl) in Hs'. congruence.
  - destruct (Hmove eq_refl) as [(_ & _ & Hc)|(_ & Hy & _)]; [congruence|].
    specialize (Hb i g Hg E). lia.
Qed.

Lemma run_updates_below (coins : list (list bool)) :
  forall s k, ownership (sworld s) -> below k s ->
  exists s', run_updates coins s = Some s' /\ ownership (sworld s')
    /\ below (k + Z.of_nat (length coins)) s'.
Proof.
  induction coins as [|c rest IH]; intros s k Hown Hb.
  - exists s. split; [done|]. split; [done|]. simpl. by rewrite Z.add_0_r.
  - destruct (sand_update_total c s Hown) as (s1 & Hup).
    cbn [run_updates]. rewrite Hup. cbn [mbind option_bind].
    destruct (IH s1 (k + 1)) as (s' & Hrun & Hown' & Hb').
    + by eapply sand_update_ownership.
    + by eapply update_below.
    + exists s'. split; [done|]. split; [done|].
      intros i g Hg Hs. specialize (Hb' i g Hg Hs). simpl length. lia.
Qed.

Lemma all_settled_fixed (ids : list nat) (w : world) (coins : list bool) :
  Forall (fun i => exists g, grains w !! i = Some g /\ settled g = true) ids ->
  foldl process_grain (Some (w, coins)) ids = Some (w, coins).
Proof.
  induction 1 as [|i ids (g & Hg & Hs) _ IH]; [done|].
  rewrite foldl_step.
  assert (process_grain (Some (w, coins)) i = Some (w, coins)) as ->; [|exact IH].
  unfold process_grain. cbn [mbind option_bind]. rewrite Hg. cbn [mbind option_bind].
  by rewrite Hs.
Qed.

(** X15. From every state that satisfies the ownership invariant, eight
    ticks of [update] without a spawn all return and leave no unsettled
    grain ([count_active] is 0), whatever the coins; from then on
    [update] changes nothing. *)
Theorem sand_comes_to_rest (coins : list (list bool)) (s : SandSimulation) :
  ownership (sworld s) -> (8 <= length coins)%nat ->
  exists s', run_updates coins s = Some s'
    /\ count_active s' = 0
    /\ forall c, update c s' = Some s'.
Proof.
  intros Hown Hlen.
  destruct (run_updates_below coins s 0 Hown) as (s' & Hrun & Hown' & Hb).
  { intros i g Hg _. destruct Hown as (_ & Hgr & _).
    destruct (Hgr i g Hg) as [[_ Hy] _]. lia. }
  assert (Hall : forall i g, grains (sworld s') !! i = Some g -> settled g = true).
  { intros i g Hg. destruct (settled g) eqn:E; [done|].
    specialize (Hb i g Hg E). destruct Hown' as (_ & Hgr & _).
    destruct (Hgr i g Hg) as [[_ Hy] _]. unfold HEIGHT in Hy. lia. }
  exists s'. split; [done|]. split.
  - unfold count_active.
    assert (filter (fun g => settled g = false) (grains (sworld s')) = []) as ->; [|done].
    assert (Forall (fun g => settled g = true) (grains (sworld s'))) as Hf
      by (apply Forall_lookup; intros i g Hg; by eapply Hall).
    clear -Hf. induction Hf as [|g l Hg _ IHl]; [done|].
    rewrite filter_cons_False by congruence. exact IHl.
  - intros c. unfold update, update_world.
    rewrite all_settled_fixed; [by destruct s'|].
    apply Forall_forall. intros i Hi.
    rewrite sorted_by_perm in Hi. unfold grain_ids in Hi. apply elem_of_seq in Hi.
    destruct (lookup_lt_is_Some_2 (grains (sworld s')) i) as [g Hg]; [lia|].
    exists g. split; [done|]. by eapply Hall.
Qed.

Lemma sand_comes_to_rest_witness :
  ownership (sworld tower_state) /\ (8 <= length (replicate 9 [true; false]))%nat
  /\ exists s', run_updates (replicate 9 [true; false]) tower_state = Some s'
    /\ count_active s' = 0
    /\ forall c, update c s' = Some s'.
Proof.
  assert (ownership (sworld tower_state)) as Hown
    by exact (sand_reachable_ownership tower_state tower_reachable).
  assert (8 <= length (replicate 9 [true; false]))%nat as Hlen by (simpl; lia).
  exact (conj Hown (conj Hlen (sand_comes_to_rest _ tower_state Hown Hlen))).
Defined.

(** ** Spawning *)

Lemma empty_spots_filter (g : list (list (option nat))) (l : list Z) :
  shape8 g -> Forall (fun x => 0 <= x < WIDTH) l ->
  foldr (fun x acc =>
           l ← acc;
           c ← grid_get g x 0;
           Some (if c is None then x :: l else l))
        (Some []) l = Some (filter (top_free g) l).
Proof.
  intros Hg. induction 1 as [|x l Hx _ IH]; [done|].
  cbn [foldr]. rewrite IH. cbn [mbind option_bind].
  destruct (get8 g x 0 Hg) as [c Hc]; [unfold in_range, HEIGHT; lia|].
  rewrite Hc. cbn [mbind option_bind]. unfold top_free at 2.
  destruct c as [k|].
  - rewrite filter_cons_False; [done|]. unfold top_free. congruence.
  - rewrite filter_cons_True; done.
Qed.

Lemma empty_spots_eq (g : list (list (option nat))) :
  shape8 g -> empty_spots g = Some (filter (top_free g) range8).
Proof. intros Hg. apply empty_spots_filter; [done|apply range8_bounds]. Qed.

(** X11. [spawn_grain] in a state that satisfies the ownership invariant
    returns. When no slot of the top row is empty it changes nothing.
    Otherwise it appends one unsettled grain on an empty slot of the top
    row, with the colour of [SAND_COLORS] at [color_index] modulo 5; the
    slot refers to the new grain and every other slot is as before;
    [grain_count] grows by one and [color_index] grows by one when the
    old [grain_count] is a multiple of 8. *)
Theorem spawn_grain_spec (pick : nat) (s : SandSimulation) :
  ownership (sworld s) ->
  exists s', spawn_grain pick s = Some s'
    /\ ((forall x, 0 <= x < WIDTH -> grid_get (grid (sworld s)) x 0 <> Some None) -> s' = s)
    /\ ((exists x, 0 <= x < WIDTH /\ grid_get (grid (sworld s)) x 0 = Some None) ->
        exists x color,
          0 <= x < WIDTH /\ grid_get (grid (sworld s)) x 0 = Some None
          /\ SAND_COLORS !! Z.to_nat (color_index s `mod` 5) = Some color
          /\ grains (sworld s') = grains (sworld s) ++ [mkGrain x 0 color false]
          /\ grain_count s' = grain_count s + 1
          /\ color_index s'
             = (if decide (grain_count s `mod` 8 = 0) then color_index s + 1
                else color_index s)
          /\ forall x' y', in_range x' y' ->
               grid_get (grid (sworld s')) x' y'
               = if decide (x' = x /\ y' = 0)
                 then Some (Some (length (grains (sworld s))))
                 else grid_get (grid (sworld s)) x' y').
Proof.
  intros Hown. pose proof Hown as (Hshape & _).
  unfold spawn_grain. rewrite (empty_spots_eq _ Hshape). cbn [mbind option_bind].
  destruct (filter (top_free (grid (sworld s))) range8) as [|x0 spots] eqn:Hf.
  - exists s. split; [done|]. split; [done|].
    intros (x & Hx & Hfree). exfalso.
    assert (x ∈ filter (top_free (grid (sworld s))) range8) as Hin.
    { apply list_elem_of_filter. split; [done|]. apply range8_elem. unfold WIDTH in Hx. lia. }
    rewrite Hf in Hin. by apply elem_of_nil in Hin.
  - rewrite <- Hf.
    assert (length (filter (top_free (grid (sworld s))) range8) <> 0)%nat as Hlen
      by (rewrite Hf; done).
    destruct (lookup_lt_is_Some_2 (filter (top_free (grid (sworld s))) range8)
                (pick `mod` length (filter (top_free (grid (sworld s))) range8))%nat)
      as [x Hx]; [by apply Nat.mod_upper_bound|].
    rewrite Hx. cbn [mbind option_bind].
    apply list_elem_of_lookup_2, list_elem_of_filter in Hx as [Hfree Hxr].
    apply range8_elem in Hxr.
    assert (0 <= color_index s `mod` 5 < 5) as Hci by (apply Z.mod_pos_bound; lia).
    assert (exists color, SAND_COLORS !! Z.to_nat (color_index s `mod` 5) = Some color)
      as (color & Hcolor).
    { apply lookup_lt_is_Some_2. simpl. lia. }
    assert (py_get SAND_COLORS (color_index s `mod` Z.of_nat (length SAND_COLORS))
            = Some color) as ->.
    { unfold py_get, py_index. change (Z.of_nat (length SAND_COLORS)) with 5.
      rewrite decide_True by done. exact Hcolor. }
    cbn [mbind option_bind].
    destruct (add_grain_spec (sworld s) (mkGrain x 0 color false) Hown)
      as (w & -> & Hgr & Hgrid & _); [unfold in_range, WIDTH, HEIGHT; cbn; lia|exact Hfree|].
    cbn [mbind option_bind]. eexists. split; [reflexivity|].
    split.
    { intros Hno. exfalso. apply (Hno x); [unfold WIDTH; lia|exact Hfree]. }
    intros _. exists x, color. cbn [sworld grain_count color_index].
    split; [unfold WIDTH; lia|]. split; [exact Hfree|]. split; [exact Hcolor|].
    split; [exact Hgr|]. split; [done|]. split; [done|]. exact Hgrid.
Qed.

Lemma spawn_grain_spec_witness :
  (ownership (sworld full_state)
   /\ (forall x, 0 <= x < WIDTH -> grid_get (grid (sworld full_state)) x 0 <> Some None)
   /\ spawn_grain 3 full_state = Some full_state)
  /\ (ownership (sworld init)
      /\ (exists x, 0 <= x < WIDTH /\ grid_get (grid (sworld init)) x 0 = Some None)
      /\ exists s' x color,
           spawn_grain 3 init = Some s'
           /\ 0 <= x < WIDTH /\ grid_get (grid (sworld init)) x 0 = Some None
           /\ SAND_COLORS !! Z.to_nat (color_index init `mod` 5) = Some color
           /\ grains (sworld s') = grains (sworld init) ++ [mkGrain x 0 color false]
           /\ grain_count s' = grain_count init + 1
           /\ color_index s'
              = (if decide (grain_count init `mod` 8 = 0) then color_index init + 1
                 else color_index init)
           /\ forall x' y', in_range x' y' ->
                grid_get (grid (sworld s')) x' y'
                = if decide (x' = x /\ y' = 0)
                  then Some (Some (length (grains (sworld init))))
                  else grid_get (grid (sworld init)) x' y').
Proof.
  assert (ownership (sworld full_state)) as Hfull
    by exact (sand_reachable_ownership full_state full_state_reachable).
  assert (forall x, 0 <= x < WIDTH ->
            grid_get (grid (sworld full_state)) x 0 <> Some None) as Hnone.
  { intros x Hx. unfold WIDTH in Hx.
    assert (x = 0 \/ x = 1 \/ x = 2 \/ x = 3 \/ x = 4 \/ x = 5 \/ x = 6 \/ x = 7)
      as Hc by lia.
    destruct Hc as [->|[->|[->|[->|[->|[->|[->| ->]]]]]]]; discriminate. }
  assert (ownership (sworld init)) as Hinit by exact ownership_empty.
  assert (exists x, 0 <= x < WIDTH /\ grid_get (grid (sworld init)) x 0 = Some None)
    as Hfree by (exists 0; split; [unfold WIDTH; lia|reflexivity]).
  split.
  - split; [exact Hfull|]. split; [exact Hnone|].
    destruct (spawn_grain_spec 3 full_state Hfull) as (s' & Hs' & Hsame & _).
    rewrite (Hsame Hnone) in Hs'. exact Hs'.
  - split; [exact Hinit|]. split; [exact Hfree|].
    destruct (spawn_grain_spec 3 init Hinit) as (s' & Hs' & _ & Hnew).
    destruct (Hnew Hfree) as (x & color & Hrest).
    exists s', x, color. exact (conj Hs' Hrest).
Defined.

Lemma top_row_settled_spec (w : world) (xs : list Z) :
  ownership w -> Forall (fun x => 0 <= x < WIDTH) xs ->
  exists b, top_row_settled w xs = Some b
    /\ (b = true <->
        forall x, x ∈ xs -> exists i g, grid_get (grid w) x 0 = Some (Some i)
                              /\ grains w !! i = Some g /\ settled g = true).
Proof.
  intros Hown. pose proof Hown as (Hshape & _ & Hrefs).
  induction 1 as [|x xs Hx _ (b & IH & Hb)].
  - exists true. split; [done|]. split; [|done]. intros _ x Hin. by apply elem_of_nil in Hin.
  - assert (in_range x 0) as Hr by (unfold in_range, HEIGHT; lia).
    cbn [top_row_settled].
    destruct (get8 (grid w) x 0 Hshape Hr) as [c Hc]. rewrite Hc. cbn [mbind option_bind].
    destruct c as [i|].
    + destruct (Hrefs x 0 i Hr Hc) as [g Hg]. rewrite Hg. cbn [mbind option_bind].
      destruct (settled g) eqn:Hs.
      * exists b. split; [done|]. rewrite Hb. split.
        -- intros Hall x' [->|Hin]%elem_of_cons; [by exists i, g|by apply Hall].
        -- intros Hall x' Hin. apply Hall. by apply list_elem_of_further.
      * exists false. split; [done|]. split; [done|]. intros Hall.
        destruct (Hall x) as (i' & g' & Hc' & Hg' & Hs'); [apply list_elem_of_here|].
        congruence.
    + exists false. split; [done|]. split; [done|]. intros Hall.
      destruct (Hall x) as (i' & g' & Hc' & _); [apply list_elem_of_here|]. congruence.
Qed.

(** X12. [is_full] in a state that satisfies the ownership invariant
    returns (it never follows a dangling reference); it is true exactly
    when each of the eight slots of the top row holds a settled grain,
    and in that case [spawn_grain] changes nothing. *)
Theorem is_full_spec (s : SandSimulation) :
  ownership (sworld s) ->
  exists b, is_full s = Some b
    /\ (b = true <->
        forall x, 0 <= x < WIDTH ->
          exists i g, grid_get (grid (sworld s)) x 0 = Some (Some i)
                      /\ grains (sworld s) !! i = Some g /\ settled g = true)
    /\ (b = true -> forall pick, spawn_grain pick s = Some s).
Proof.
  intros Hown. pose proof Hown as (Hshape & _).
  destruct (top_row_settled_spec (sworld s) range8 Hown range8_bounds) as (b & Hfull & Hb).
  exists b. split; [exact Hfull|].
  assert (b = true <->
          forall x, 0 <= x < WIDTH ->
            exists i g, grid_get (grid (sworld s)) x 0 = Some (Some i)
                        /\ grains (sworld s) !! i = Some g /\ settled g = true) as Hiff.
  { rewrite Hb. split.
    - intros H x Hx. apply H, range8_elem. unfold WIDTH in Hx. lia.
    - intros H x Hx. apply H. apply range8_elem in Hx. unfold WIDTH. lia. }
  split; [exact Hiff|].
  intros Hbt pick. unfold spawn_grain. rewrite (empty_spots_eq _ Hshape).
  cbn [mbind option_bind].
  assert (filter (top_free (grid (sworld s))) range8 = []) as ->; [|done].
  destruct (filter (top_free (grid (sworld s))) range8) as [|x l] eqn:Hf; [done|].
  assert (x ∈ filter (top_free (grid (sworld s))) range8) as Hin
    by (rewrite Hf; apply list_elem_of_here).
  apply list_elem_of_filter in Hin as [Hfree Hx]. apply range8_elem in Hx.
  destruct (proj1 Hiff Hbt x) as (i & g & Hc & _); [unfold WIDTH; lia|].
  unfold top_free in Hfree. congruence.
Qed.

Lemma is_full_spec_witness :
  ownership (sworld full_state)
  /\ is_full full_state = Some true
  /\ (forall x, 0 <= x < WIDTH ->
        exists i g, grid_get (grid (sworld full_state)) x 0 = Some (Some i)
                    /\ grains (sworld full_state) !! i = Some g /\ settled g = true)
  /\ (forall pick, spawn_grain pick full_state = Some full_state).
Proof.
  assert (ownership (sworld full_state)) as Hfull
    by exact (sand_reachable_ownership full_state full_state_reachable).
  assert (is_full full_state = Some true) as Htrue by (vm_compute; reflexivity).
  destruct (is_full_spec full_state Hfull) as (b & Hb & Hiff & Hspawn).
  rewrite Htrue in Hb. injection Hb as <-.
  split; [exact Hfull|]. split; [exact Htrue|].
  split; [exact (proj1 Hiff eq_refl)|exact (Hspawn eq_refl)].
Defined.
End SandMore.

(* ===================================================================== *)
(** * The hourglass: its shape, filling, one tick, the sand stays inside *)
(* ===================================================================== *)

Module HourglassMore.
Import Grains Hourglass GrainFacts HourglassFacts LifeFacts GrainClaims.





(** ** One tick of the hourglass *)

Lemma can_move_to_glass (w : world) (x y : Z) :
  can_move_to w x y = Some true -> in_range x y /\ in_hourglass x y = true.
Proof.
  unfold can_move_to. case_decide; [|done].
  destruct (in_hourglass x y); done.
Qed.

Lemma targets_near (is_flipped coin : bool) (x y tx ty : Z) :
  (tx, ty) ∈ get_gravity_targets is_flipped coin x y ->
  x - 1 <= tx <= x + 1 /\ ty = y + (if is_flipped then -1 else 1).
Proof.
  unfold get_gravity_targets. destruct coin;
    rewrite !elem_of_cons, elem_of_nil; intros [[= -> ->]|[[= -> ->]|[[= -> ->]|[]]]]; lia.
Qed.

Lemma try_targets_inv (w w' : world) (i : nat) (g : SandGrain) (targets : list (Z * Z))
      (moved : bool) :
  grains w !! i = Some g ->
  try_targets w i targets = Some (w', moved) ->
  if moved
  then exists tx ty, (tx, ty) ∈ targets /\ can_move_to w tx ty = Some true
         /\ grains w' = <[i := mkGrain tx ty (gcolor g) (settled g)]> (grains w)
  else w' = w.
Proof.
  intros Hg. induction targets as [|[tx ty] rest IH]; simpl.
  - by intros [= <- <-].
  - intros H. apply bind_Some in H as (b & Hb & H). destruct b.
    + apply bind_Some in H as (w1 & Hm & [= <- <-]).
      apply move_grain_grains in Hm as (g0 & Hg0 & Hgr).
      rewrite Hg in Hg0. injection Hg0 as <-.
      exists tx, ty. split; [apply list_elem_of_here|]. done.
    + specialize (IH H). destruct moved; [|done].
      destruct IH as (tx' & ty' & Hin & Hres). exists tx', ty'.
      split; [by apply list_elem_of_further|done].
Qed.

Lemma unsettle_check_inv (is_flipped : bool) (w w1 : world) (coins coins1 : list bool)
      (i : nat) :
  unsettle_check is_flipped w coins i = Some (w1, coins1) ->
  exists g b, grains w !! i = Some g
    /\ grains w1 = <[i := mkGrain (gx g) (gy g) (gcolor g) b]> (grains w).
Proof.
  unfold unsettle_check. intros H. apply bind_Some in H as (g & Hg & H).
  exists g. destruct (settled g) eqn:Hs.
  - destruct (next_coin coins) as [coin coins'].
    apply bind_Some in H as (can_fall & _ & H). destruct can_fall.
    + apply bind_Some in H as (w' & Hset & [= <- <-]).
      apply set_settled_grains in Hset as (g0 & Hg0 & ->).
      rewrite Hg in Hg0. injection Hg0 as <-. exists false. done.
    + injection H as <- <-. exists true. split; [done|].
      rewrite list_insert_id; [done|]. rewrite Hg. f_equal. destruct g. simpl in *. congruence.
  - injection H as <- <-. exists false. split; [done|].
    rewrite list_insert_id; [done|]. rewrite Hg. f_equal. destruct g. simpl in *. congruence.
Qed.

Lemma hourglass_process_rel (is_flipped : bool) (w w' : world) (coins coins' : list bool)
      (am am' : bool) (i : nat) :
  process_grain is_flipped (Some (w, coins, am)) i = Some (w', coins', am') ->
  length (grains w') = length (grains w)
  /\ (forall j, j <> i -> grains w' !! j = grains w !! j)
  /\ exists g g', grains w !! i = Some g /\ grains w' !! i = Some g'
       /\ glass_rel is_flipped g g'
       /\ am' = am || negb (settled g').
Proof.
  unfold process_grain. cbn [mbind option_bind]. intros H.
  apply bind_Some in H as ([w1 coins1] & Hu & H).
  apply unsettle_check_inv in Hu as (g & b & Hg & Hgr1).
  assert (Hlt : (i < length (grains w))%nat) by (by eapply lookup_lt_Some).
  assert (Hg1 : grains w1 !! i = Some (mkGrain (gx g) (gy g) (gcolor g) b))
    by (rewrite Hgr1; by apply list_lookup_insert_eq).
  unfold fall in H. rewrite Hg1 in H. cbn [mbind option_bind settled gx gy] in H.
  destruct b.
  { injection H as <- <- <-. rewrite Hgr1, length_insert. split; [done|].
    split; [intros j Hj; by apply list_lookup_insert_ne|].
    exists g, (mkGrain (gx g) (gy g) (gcolor g) true).
    split; [done|]. split; [by apply list_lookup_insert_eq|].
    split; [split; [done|]; left; done|]. cbn. by rewrite orb_false_r. }
  destruct (next_coin coins1) as [coin coins2].
  apply bind_Some in H as ([w2 moved] & Ht & H).
  apply (try_targets_inv _ _ _ _ _ _ Hg1) in Ht. destruct moved.
  - injection H as <- <- <-.
    destruct Ht as (tx & ty & Hin & Hcan & Hgr2). cbn [gcolor settled] in Hgr2.
    apply targets_near in Hin as [Hx Hy].
    apply can_move_to_glass in Hcan as [Hr Hglass].
    rewrite Hgr2, Hgr1, list_insert_insert_eq, length_insert. split; [done|].
    split; [intros j Hj; by apply list_lookup_insert_ne|].
    exists g, (mkGrain tx ty (gcolor g) false).
    split; [done|]. split; [by apply list_lookup_insert_eq|].
    split; [split; [done|]; right; cbn; done|]. cbn. by rewrite orb_true_r.
  - subst w2. apply bind_Some in H as (w3 & Hset & [= <- <- <-]).
    apply set_settled_grains in Hset as (g0 & Hg0 & ->).
    rewrite Hg1 in Hg0. injection Hg0 as <-. cbn [grains gx gy gcolor].
    rewrite Hgr1, list_insert_insert_eq, length_insert. split; [done|].
    split; [intros j Hj; by apply list_lookup_insert_ne|].
    exists g, (mkGrain (gx g) (gy g) (gcolor g) true).
    split; [done|]. split; [by apply list_lookup_insert_eq|].
    split; [split; [done|]; left; done|]. cbn. by rewrite orb_false_r.
Qed.

Lemma hourglass_fold_rel (is_flipped : bool) (ids : list nat) :
  NoDup ids ->
  forall w coins am w' coins' am',
    foldl (process_grain is_flipped) (Some (w, coins, am)) ids = Some (w', coins', am') ->
    length (grains w') = length (grains w)
    /\ (forall i g, grains w !! i = Some g ->
          exists g', grains w' !! i = Some g'
            /\ (i ∈ ids -> glass_rel is_flipped g g') /\ (i ∉ ids -> g' = g))
    /\ (am' = true <->
        am = true \/ exists i g', i ∈ ids /\ grains w' !! i = Some g' /\ settled g' = false).
Proof.
  induction 1 as [|j ids Hj Hnd IH]; intros w coins am w' coins' am' Hfold.
  - injection Hfold as <- <- <-. split; [done|]. split.
    + intros i g Hg. exists g. split; [done|]. split; [|done].
      intros Hin. by apply elem_of_nil in Hin.
    + split; [by left|]. intros [?|(i & g' & Hin & _)]; [done|]. by apply elem_of_nil in Hin.
  - rewrite foldl_step in Hfold.
    destruct (process_grain is_flipped (Some (w, coins, am)) j) as [[[w1 coins1] am1]|] eqn:Hp.
    2:{ rewrite foldl_None in Hfold by apply hourglass_process_None. done. }
    apply hourglass_process_rel in Hp
      as (Hlen1 & Hother & gj & gj' & Hgj & Hgj' & Hrel & Ham1).
    destruct (IH _ _ _ _ _ _ Hfold) as (Hlen & Hall & Ham).
    split; [congruence|]. split.
    + intros i g Hg. destruct (decide (i = j)) as [->|Hne].
      * rewrite Hgj in Hg. injection Hg as <-.
        destruct (Hall j gj' Hgj') as (g' & Hg' & _ & Hout).
        exists g'. split; [done|]. rewrite (Hout Hj). split; [done|].
        intros Hnot. exfalso. apply Hnot, list_elem_of_here.
      * rewrite <- Hother in Hg by done.
        destruct (Hall i g Hg) as (g' & Hg' & Hin & Hout).
        exists g'. split; [done|]. split.
        -- intros [->|Hi]%elem_of_cons; [done|by apply Hin].
        -- intros Hnot. apply Hout. intros Hi. apply Hnot. by apply list_elem_of_further.
    + destruct (Hall j gj' Hgj') as (gf & Hgf & _ & Hout). specialize (Hout Hj). subst gf.
      rewrite Ham, Ham1, orb_true_iff, negb_true_iff. split.
      * intros [[?|Hs]|(i & g' & Hin & Hg' & Hs)]; [by left|..].
        -- right. exists j, gj'. split; [apply list_elem_of_here|done].
        -- right. exists i, g'. split; [by apply list_elem_of_further|done].
      * intros [?|(i & g' & [->|Hin]%elem_of_cons & Hg' & Hs)]; [by left; left|..].
        -- left. right. congruence.
        -- right. by exists i, g'.
Qed.

Lemma hourglass_update_rel (coins : list bool) (h h' : Hourglass) (moved : bool) :
  update coins h = Some (h', moved) ->
  frame h' = frame h + 1 /\ flipped h' = flipped h
  /\ length (grains (hworld h')) = length (grains (hworld h))
  /\ (forall i g, grains (hworld h) !! i = Some g ->
        exists g', grains (hworld h') !! i = Some g' /\ glass_rel (flipped h) g g')
  /\ (moved = true <-> exists i g', grains (hworld h') !! i = Some g' /\ settled g' = false).
Proof.
  unfold update, update_world. intros H.
  apply bind_Some in H as ([[w c'] am] & Hfold & [= <- <-]).
  cbn [frame flipped hworld]. split; [done|]. split; [done|].
  apply hourglass_fold_rel in Hfold as (Hlen & Hall & Ham).
  2:{ rewrite sorted_grains_perm. apply NoDup_seq. }
  split; [done|]. split.
  - intros i g Hg. destruct (Hall i g Hg) as (g' & Hg' & Hin & _). exists g'. split; [done|].
    apply Hin. rewrite sorted_grains_perm. apply grain_ids_elem. by exists g.
  - rewrite Ham. split.
    + intros [?|(i & g' & _ & Hg' & Hs)]; [done|]. by exists i, g'.
    + intros (i & g' & Hg' & Hs). right. exists i, g'. split; [|done].
      rewrite sorted_grains_perm. apply grain_ids_elem.
      apply lookup_lt_is_Some. rewrite <- Hlen. by eapply lookup_lt_Some.
Qed.

(** X18. What a tick of [Hourglass.update] does: [frame] grows by one,
    the gravity flag and the number of grains stay; every grain keeps its
    colour and either lies settled where it was, or is unsettled and has
    gone exactly one row on in the direction of gravity, at most one
    column to the side, to a cell of the grid inside the glass. The value
    returned is true exactly when some grain is unsettled after the tick,
    that is, when some grain moved. *)
Theorem hourglass_update_moves (coins : list bool) (h h' : Hourglass) (moved : bool) :
  update coins h = Some (h', moved) ->
  frame h' = frame h + 1 /\ flipped h' = flipped h
  /\ length (grains (hworld h')) = length (grains (hworld h))
  /\ (forall i g, grains (hworld h) !! i = Some g ->
        exists g', grains (hworld h') !! i = Some g'
          /\ gcolor g' = gcolor g
          /\ ((gx g' = gx g /\ gy g' = gy g /\ settled g' = true)
              \/ (gx g - 1 <= gx g' <= gx g + 1
                  /\ gy g' = gy g + (if flipped h then -1 else 1)
                  /\ settled g' = false
                  /\ in_range (gx g') (gy g') /\ in_hourglass (gx g') (gy g') = true)))
  /\ (moved = true <-> exists i g', grains (hworld h') !! i = Some g' /\ settled g' = false).
Proof.
  intros Hup. exact (hourglass_update_rel coins h h' moved Hup).
Qed.

Lemma hourglass_update_moves_witness :
  let r := default (fresh_hourglass, false) (update [true] fresh_hourglass) in
  update [true] fresh_hourglass = Some (r.1, r.2)
  /\ frame r.1 = frame fresh_hourglass + 1 /\ flipped r.1 = flipped fresh_hourglass
  /\ length (grains (hworld r.1)) = length (grains (hworld fresh_hourglass))
  /\ (forall i g, grains (hworld fresh_hourglass) !! i = Some g ->
        exists g', grains (hworld r.1) !! i = Some g'
          /\ gcolor g' = gcolor g
          /\ ((gx g' = gx g /\ gy g' = gy g /\ settled g' = true)
              \/ (gx g - 1 <= gx g' <= gx g + 1
                  /\ gy g' = gy g + (if flipped fresh_hourglass then -1 else 1)
                  /\ settled g' = false
                  /\ in_range (gx g') (gy g') /\ in_hourglass (gx g') (gy g') = true)))
  /\ (r.2 = true <-> exists i g', grains (hworld r.1) !! i = Some g' /\ settled g' = false).
Proof.
  intros r.
  assert (update [true] fresh_hourglass = Some (r.1, r.2)) as Hup
    by (vm_compute; reflexivity).
  exact (conj Hup (hourglass_update_moves [true] fresh_hourglass r.1 r.2 Hup)).
Defined.

(** ** Filling a chamber *)

Lemma fill_fold_grains (variation : nat -> Z) (cells : list (Z * Z)) :
  forall w w',
    foldl (fun acc c =>
             w ← acc;
             let g := new_grain c.1 c.2 (variation (length (grains w))) in
             add_grain w (mkGrain (gx g) (gy g) (gcolor g) true))
          (Some w) cells = Some w' ->
    grains w' = grains w ++ imap (fun k c => filled variation (length (grains w) + k) c) cells.
Proof.
  induction cells as [|c cells IH]; intros w w' Hfold.
  - injection Hfold as <-. simpl. by rewrite app_nil_r.
  - rewrite foldl_step in Hfold. cbn [mbind option_bind] in Hfold.
    destruct (add_grain w _) as [w1|] eqn:Hadd.
    2:{ rewrite foldl_None in Hfold by done. done. }
    unfold add_grain in Hadd. apply bind_Some in Hadd as (g1 & _ & [= <-]).
    apply IH in Hfold. cbn [grains] in Hfold. rewrite Hfold.
    rewrite <- app_assoc. f_equal. cbn [imap app]. f_equal.
    + rewrite Nat.add_0_r. reflexivity.
    + apply imap_ext. intros k c' _. cbn. rewrite length_app. simpl. f_equal. lia.
Qed.

Lemma fill_cells_spec (variation : nat -> Z) (cells : list (Z * Z)) :
  NoDup cells -> Forall (fun c => in_range c.1 c.2) cells ->
  exists w, fill_cells variation cells = Some w /\ ownership w
    /\ grains w = imap (filled variation) (take SAND_COUNT cells).
Proof.
  intros Hnd Hall.
  destruct (fill_cells_ownership variation cells Hnd Hall) as (w & Hw & Hown).
  exists w. split; [done|]. split; [done|].
  unfold fill_cells in Hw. apply fill_fold_grains in Hw. exact Hw.
Qed.

Lemma top_chamber_facts :
  length get_top_chamber = 22%nat
  /\ Forall (fun c => in_hourglass c.1 c.2 = true /\ c.2 < 3) get_top_chamber.
Proof. split; [by vm_compute|]. apply (bool_decide_unpack _). by vm_compute. Qed.

Lemma bottom_chamber_facts :
  length get_bottom_chamber = 22%nat
  /\ Forall (fun c => in_hourglass c.1 c.2 = true /\ c.2 > 4) get_bottom_chamber.
Proof. split; [by vm_compute|]. apply (bool_decide_unpack _). by vm_compute. Qed.

Lemma shuffled_cells (shuffled : list (Z * Z)) :
  shuffled ≡ₚ get_top_chamber ->
  NoDup shuffled /\ Forall (fun c => in_range c.1 c.2) shuffled
  /\ length shuffled = 22%nat
  /\ Forall (fun c => in_hourglass c.1 c.2 = true /\ c.2 < 3) shuffled.
Proof.
  intros Hp. destruct chamber_cells as (Hnd & Hr & _). destruct top_chamber_facts as [Hl Hg].
  rewrite Hp. done.
Qed.

(** X17. [Hourglass()] for every shuffle of the top chamber and every draw
    of the colour variations returns, with frame 0 and gravity down: there
    are exactly 20 grains; grain k is settled on the k-th cell of the
    shuffled chamber, a cell of the glass above the neck, with the colour
    (255, 200, 100) shifted by its variation and clamped to 0..255; the
    slot of that cell refers to grain k, and every other slot is empty. *)
Theorem hourglass_init_spec (variation : nat -> Z) (shuffled : list (Z * Z)) :
  shuffled ≡ₚ get_top_chamber ->
  exists h, init variation shuffled = Some h
    /\ frame h = 0 /\ flipped h = false
    /\ length (grains (hworld h)) = 20%nat
    /\ (forall k c, take 20 shuffled !! k = Some c ->
          grains (hworld h) !! k = Some (filled variation k c)
          /\ grid_get (grid (hworld h)) c.1 c.2 = Some (Some k)
          /\ c.2 < 3 /\ in_hourglass c.1 c.2 = true)
    /\ (forall x y, in_range x y -> (x, y) ∉ take 20 shuffled ->
          grid_get (grid (hworld h)) x y = Some None).
Proof.
  intros Hp. destruct (shuffled_cells shuffled Hp) as (Hnd & Hr & Hl & Hg).
  destruct (fill_cells_spec variation shuffled Hnd Hr) as (w & Hw & Hown & Hgr).
  exists (mkHourglass w 0 false). unfold init. rewrite fill_top_eq, Hw.
  split; [done|]. split; [done|]. split; [done|]. cbn [hworld].
  change SAND_COUNT with 20%nat in Hgr.
  split; [rewrite Hgr, length_imap, length_take; lia|].
  assert (Hcell : forall k c, take 20 shuffled !! k = Some c ->
            grains w !! k = Some (filled variation k c)).
  { intros k c Hk. rewrite Hgr, list_lookup_imap, Hk. done. }
  destruct Hown as (Hshape & Hgrains & Hrefs). split.
  - intros k c Hk. split; [by apply Hcell|].
    destruct (Hgrains k _ (Hcell k c Hk)) as [Hin Hslot]. cbn [filled gx gy] in Hin, Hslot.
    split; [by apply Hslot|].
    apply list_elem_of_lookup_2, subseteq_take in Hk.
    apply (proj1 (Forall_forall _ _) Hg) in Hk as [? ?]. done.
  - intros x y Hxy Hnot.
    destruct (get8 (grid w) x y Hshape Hxy) as [[i|] Hc]; [|done].
    exfalso. destruct (Hrefs x y i Hxy Hc) as [g Hi].
    assert (is_Some (take 20 shuffled !! i)) as [c Hk].
    { apply lookup_lt_is_Some. apply lookup_lt_Some in Hi.
      by rewrite Hgr, length_imap in Hi. }
    pose proof (Hcell i c Hk) as Hi'. rewrite Hi in Hi'. injection Hi' as ->.
    destruct (Hgrains i _ Hi) as [_ Hslot]. cbn [filled gx gy] in Hslot.
    destruct (proj1 (Hslot x y Hxy) Hc) as [Hx Hy].
    apply Hnot. destruct c as [cx cy]. simpl in Hx, Hy. subst x y.
    by eapply list_elem_of_lookup_2.
Qed.

Lemma hourglass_init_spec_witness :
  get_top_chamber ≡ₚ get_top_chamber
  /\ exists h, init (fun k => Z.of_nat k - 20) get_top_chamber = Some h
    /\ frame h = 0 /\ flipped h = false
    /\ length (grains (hworld h)) = 20%nat
    /\ (forall k c, take 20 get_top_chamber !! k = Some c ->
          grains (hworld h) !! k = Some (filled (fun k => Z.of_nat k - 20) k c)
          /\ grid_get (grid (hworld h)) c.1 c.2 = Some (Some k)
          /\ c.2 < 3 /\ in_hourglass c.1 c.2 = true)
    /\ (forall x y, in_range x y -> (x, y) ∉ take 20 get_top_chamber ->
          grid_get (grid (hworld h)) x y = Some None).
Proof.
  assert (get_top_chamber ≡ₚ get_top_chamber) as Hp by reflexivity.
  exact (conj Hp (hourglass_init_spec (fun k => Z.of_nat k - 20) get_top_chamber Hp)).
Defined.

(** ** The sand stays in the glass *)

Lemma fill_in_glass (variation : nat -> Z) (cells : list (Z * Z)) (w : world) :
  length cells = 22%nat -> Forall (fun c => in_hourglass c.1 c.2 = true) cells ->
  fill_cells variation cells = Some w -> in_glass w.
Proof.
  intros Hl Hg Hw. unfold fill_cells in Hw. apply fill_fold_grains in Hw.
  cbn [grains empty_world app] in Hw. change SAND_COUNT with 20%nat in *.
  split.
  - rewrite Hw, length_imap, length_take. change SAND_COUNT with 20%nat. lia.
  - intros i g Hi. rewrite Hw, list_lookup_imap in Hi.
    destruct (take 20 cells !! i) as [c|] eqn:Hc; [|done]. injection Hi as <-.
    cbn [filled gx gy]. apply list_elem_of_lookup_2, subseteq_take in Hc.
    by apply (proj1 (Forall_forall _ _) Hg) in Hc.
Qed.

Lemma reachable_in_glass (h : Hourglass) : reachable h -> in_glass (hworld h).
Proof.
  induction 1 as [variation shuffled h Hp Hinit
                 |variation shuffled h h' _ _ Hp Hfill
                 |variation h h' _ _ Hfill
                 |h _ IH
                 |h coins h' moved _ IH Hup].
  - unfold init in Hinit. rewrite fill_top_eq in Hinit.
    apply bind_Some in Hinit as (w & Hw & [= <-]).
    destruct (shuffled_cells shuffled Hp) as (_ & _ & Hl & Hg).
    apply (fill_in_glass variation shuffled w Hl); [|exact Hw].
    eapply Forall_impl; [exact Hg|]. by intros c [? _].
  - rewrite fill_top_eq in Hfill.
    apply bind_Some in Hfill as (w & Hw & [= <-]).
    destruct (shuffled_cells shuffled Hp) as (_ & _ & Hl & Hg).
    apply (fill_in_glass variation shuffled w Hl); [|exact Hw].
    eapply Forall_impl; [exact Hg|]. by intros c [? _].
  - rewrite fill_bottom_eq in Hfill.
    apply bind_Some in Hfill as (w & Hw & [= <-]).
    destruct bottom_chamber_facts as [Hl Hg].
    apply (fill_in_glass variation get_bottom_chamber w Hl); [|exact Hw].
    eapply Forall_impl; [exact Hg|]. by intros c [? _].
  - destruct IH as [Hlen Hall]. split.
    + cbn [flip hworld grains]. by rewrite length_map.
    + intros i g Hi. cbn [flip hworld grains] in Hi. rewrite list_lookup_fmap in Hi.
      destruct (grains (hworld h) !! i) as [g0|] eqn:Hg0; [|done].
      injection Hi as <-. cbn [gx gy]. by eapply Hall.
  - destruct IH as [Hlen Hall].
    apply hourglass_update_rel in Hup as (_ & _ & Hlen' & Hrel & _).
    split; [congruence|]. intros i g' Hi.
    assert (is_Some (grains (hworld h) !! i)) as [g Hg].
    { apply lookup_lt_is_Some. rewrite <- Hlen'. by eapply lookup_lt_Some. }
    destruct (Hrel i g Hg) as (g'' & Hg'' & _ & Hcase).
    rewrite Hi in Hg''. injection Hg'' as <-.
    destruct Hcase as [(Hx & Hy & _)|(_ & _ & _ & _ & Hglass)]; [|done].
    rewrite Hx, Hy. by eapply Hall.
Qed.

(** X19. In every state that [Hourglass] reaches through its methods
    there are exactly 20 grains, and each one is on a cell of the grid
    that is inside the glass. *)
Theorem sand_stays_in_glass (h : Hourglass) :
  reachable h ->
  length (grains (hworld h)) = 20%nat
  /\ forall i g, grains (hworld h) !! i = Some g ->
       in_range (gx g) (gy g) /\ in_hourglass (gx g) (gy g) = true.
Proof.
  intros Hreach.
  destruct (reachable_in_glass h Hreach) as [Hlen Hall].
  split; [exact Hlen|]. intros i g Hg. split; [|by eapply Hall].
  destruct (hourglass_reachable_ownership h Hreach) as (_ & Hgr & _).
  by destruct (Hgr i g Hg).
Qed.

Lemma sand_stays_in_glass_witness :
  reachable (flip fresh_hourglass)
  /\ length (grains (hworld (flip fresh_hourglass))) = 20%nat
  /\ forall i g, grains (hworld (flip fresh_hourglass)) !! i = Some g ->
       in_range (gx g) (gy g) /\ in_hourglass (gx g) (gy g) = true.
Proof.
  assert (reachable (flip fresh_hourglass)) as Hreach
    by exact (reach_flip fresh_hourglass fresh_hourglass_reachable).
  exact (conj Hreach (sand_stays_in_glass (flip fresh_hourglass) Hreach)).
Defined.
End HourglassMore.

(* ===================================================================== *)
(** * Water ripples: drops, still water, superposition, totals *)
(* ===================================================================== *)

Module WaterMore.
Import Water WaterFacts LifeFacts.


(** ** Still water *)

Lemma at_get {A} (g : list (list A)) (x y : Z) (v d : A) :
  grid_get g x y = Some v -> default d (grid_get g x y) = v.
Proof. by intros ->. Qed.





(** ** Superposition *)




(** ** The totals after [n] ticks *)




(** ** The largest height *)

Lemma py_max_spec (a b : Q) :
  (a <= py_max a b)%Q /\ (b <= py_max a b)%Q /\ (py_max a b = a \/ py_max a b = b).
Proof.
  unfold py_max. destruct (Qlt_le_dec a b) as [Hlt|Hle].
  - split; [by apply Qlt_le_weak|]. split; [apply Qle_refl|by right].
  - split; [apply Qle_refl|]. split; [done|by left].
Qed.

Lemma max_fold (g : list (list Q)) (cells : list (Z * Z)) :
  shape8 g -> Forall (fun c => in_range c.1 c.2) cells ->
  forall m0, exists m,
    foldl (fun acc (c : Z * Z) =>
             max_h ← acc;
             h ← grid_get g c.1 c.2;
             Some (py_max max_h (Qabs h)))
          (Some m0) cells = Some m
    /\ (m0 <= m)%Q
    /\ (forall c, c ∈ cells -> Qabs (default 0 (grid_get g c.1 c.2)) <= m)%Q
    /\ (m = m0 \/ exists c, c ∈ cells /\ m = Qabs (default 0%Q (grid_get g c.1 c.2))).
Proof.
  intros Hg. induction 1 as [|[x y] cells Hc _ IH]; intros m0.
  - exists m0. split; [done|]. split; [apply Qle_refl|]. split; [|by left].
    intros c Hin. by apply elem_of_nil in Hin.
  - rewrite foldl_step. cbn [mbind option_bind fst snd]. simpl in Hc.
    destruct (get8 g x y Hg Hc) as [h Hh]. rewrite Hh. cbn [mbind option_bind].
    destruct (IH (py_max m0 (Qabs h))) as (m & Hfold & Hle & Hall & Hex).
    destruct (py_max_spec m0 (Qabs h)) as (Hm0 & Hmh & Hcase).
    exists m. split; [exact Hfold|]. split; [by eapply Qle_trans|]. split.
    + intros c [->|Hin]%elem_of_cons; [|by apply Hall].
      cbn [fst snd]. rewrite Hh. cbn [default from_option id]. by eapply Qle_trans.
    + destruct Hex as [->|(c & Hin & ->)].
      * destruct Hcase as [->| ->]; [by left|]. right. exists (x, y).
        split; [apply list_elem_of_here|]. cbn [fst snd]. by rewrite Hh.
      * right. exists c. split; [by apply list_elem_of_further|done].
Qed.

(** X24. [get_max_height] on an 8x8 field returns a number m that is not
    negative and not below the absolute height of any cell; m is 0 or the
    absolute height of some cell. *)
Theorem get_max_height_spec (s : WaterSimulation Q) :
  shape8 (height s) ->
  exists m, get_max_height s = Some m
    /\ (0 <= m)%Q
    /\ (forall x y, in_range x y -> Qabs (height_at s x y) <= m)%Q
    /\ (m = 0%Q \/ exists x y, in_range x y /\ m = Qabs (height_at s x y)).
Proof.
  intros Hh.
  assert (Forall (fun c : Z * Z => in_range c.1 c.2) all_cells) as Hall
    by (apply perm_all_in_range; reflexivity).
  destruct (max_fold (height s) all_cells Hh Hall 0%Q) as (m & Hfold & Hle & Hmax & Hex).
  exists m. split; [exact Hfold|]. split; [exact Hle|]. split.
  - intros x y Hr. apply (Hmax (x, y)). by apply all_cells_elem.
  - destruct Hex as [->|([x y] & Hin & ->)]; [by left|].
    right. exists x, y. split; [by apply all_cells_elem|done].
Qed.

Lemma get_max_height_spec_witness :
  shape8 (height trough)
  /\ exists m, get_max_height trough = Some m
    /\ (0 <= m)%Q
    /\ (forall x y, in_range x y -> Qabs (height_at trough x y) <= m)%Q
    /\ (m = 0%Q \/ exists x y, in_range x y /\ m = Qabs (height_at trough x y)).
Proof.
  assert (shape8 (height trough)) as H1 by apply grid_make_shape.
  exact (conj H1 (get_max_height_spec trough H1)).
Defined.

(** ** Drops *)

Lemma set_set8 {A} (g g1 g2 : list (list A)) (x1 y1 x2 y2 : Z) (a b : A) :
  shape8 g -> in_range x1 y1 -> in_range x2 y2 ->
  grid_set g x1 y1 a = Some g1 -> grid_set g1 x2 y2 b = Some g2 ->
  shape8 g1 /\ shape8 g2
  /\ forall x y, in_range x y ->
       grid_get g2 x y = if decide (x = x2 /\ y = y2) then Some b
                         else if decide (x = x1 /\ y = y1) then Some a
                         else grid_get g x y.
Proof.
  intros Hg H1 H2 Hs1 Hs2.
  destruct (set8 g x1 y1 a Hg H1) as (g1' & Hs1' & Hg1).
  rewrite Hs1 in Hs1'. injection Hs1' as <-.
  destruct (set8 g1 x2 y2 b Hg1 H2) as (g2' & Hs2' & Hg2).
  rewrite Hs2 in Hs2'. injection Hs2' as <-.
  split; [done|]. split; [done|]. intros x y Hr.
  rewrite (get_set8 g1 g2 x2 y2 x y b Hg1 H2 Hr Hs2).
  case_decide; [done|]. apply (get_set8 g g1 x1 y1 x y a Hg H1 Hr Hs1).
Qed.

(** X20. Two calls of [drop] on an 8x8 field: on two different cells they
    give the same state in either order; on the same cell the second
    call alone decides (the first drop is overwritten, not added to). *)
Theorem drop_compose {T : Type} `{Arith T} (s : WaterSimulation T)
        (x1 y1 x2 y2 : Z) (a b : T) :
  shape8 (height s) ->
  ((x1, y1) <> (x2, y2) ->
   (s1 ← drop x1 y1 a s; drop x2 y2 b s1) = (s2 ← drop x2 y2 b s; drop x1 y1 a s2))
  /\ (s1 ← drop x1 y1 a s; drop x1 y1 b s1) = drop x1 y1 b s.
Proof.
  intros Hg. split.
  - intros Hne. unfold drop.
    destruct (decide (in_range x1 y1)) as [H1|H1];
      destruct (decide (in_range x2 y2)) as [H2|H2]; cbn [mbind option_bind].
    + destruct (set8 (height s) x1 y1 a Hg H1) as (g1 & Hs1 & Hg1).
      destruct (set8 (height s) x2 y2 b Hg H2) as (g2 & Hs2 & Hg2).
      rewrite Hs1, Hs2. cbn [mbind option_bind height velocity].
      destruct (set8 g1 x2 y2 b Hg1 H2) as (g12 & Hs12 & Hg12).
      destruct (set8 g2 x1 y1 a Hg2 H1) as (g21 & Hs21 & Hg21).
      rewrite Hs12, Hs21. cbn [mbind option_bind height velocity].
      do 2 f_equal. apply (grid_ext 8 8); [done|done|].
      intros x y Hx Hy. assert (in_range x y) as Hr by (unfold in_range, WIDTH, HEIGHT; lia).
      destruct (set_set8 _ _ _ _ _ _ _ _ _ Hg H1 H2 Hs1 Hs12) as (_ & _ & ->); [|done].
      destruct (set_set8 _ _ _ _ _ _ _ _ _ Hg H2 H1 Hs2 Hs21) as (_ & _ & ->); [|done].
      repeat case_decide; try done. exfalso. apply Hne.
      destruct_and!. congruence.
    + by destruct (grid_set (height s) x1 y1 a) as [g1|].
    + by destruct (grid_set (height s) x2 y2 b) as [g2|].
    + done.
  - unfold drop. destruct (decide (in_range x1 y1)) as [H1|H1]; cbn [mbind option_bind].
    + destruct (set8 (height s) x1 y1 a Hg H1) as (g1 & Hs1 & Hg1).
      destruct (set8 (height s) x1 y1 b Hg H1) as (g2 & Hs2 & Hg2).
      rewrite Hs1, Hs2. cbn [mbind option_bind height velocity].
      destruct (set8 g1 x1 y1 b Hg1 H1) as (g12 & Hs12 & Hg12).
      rewrite Hs12. cbn [mbind option_bind height velocity].
      do 2 f_equal. apply (grid_ext 8 8); [done|done|].
      intros x y Hx Hy. assert (in_range x y) as Hr by (unfold in_range, WIDTH, HEIGHT; lia).
      destruct (set_set8 _ _ _ _ _ _ _ _ _ Hg H1 H1 Hs1 Hs12) as (_ & _ & ->); [|done].
      rewrite (get_set8 _ _ _ _ x y b Hg H1 Hr Hs2).
      repeat case_decide; done.
    + done.
Qed.

Lemma drop_compose_witness :
  shape8 (height pond) /\ (1, 4) <> (6, 4)
  /\ (s1 ← drop 1 4 40%Q pond; drop 6 4 40%Q s1)
     = (s2 ← drop 6 4 40%Q pond; drop 1 4 40%Q s2)
  /\ (s1 ← drop 1 4 40%Q pond; drop 1 4 60%Q s1) = drop 1 4 60%Q pond.
Proof.
  assert (shape8 (height pond)) as Hh by apply grid_make_shape.
  assert ((1, 4) <> (6, 4)) as Hne by discriminate.
  destruct (drop_compose pond 1 4 6 4 40%Q 40%Q Hh) as [Hcomm _].
  destruct (drop_compose pond 1 4 6 4 40%Q 60%Q Hh) as [_ Hover].
  exact (conj Hh (conj Hne (conj (Hcomm Hne) Hover))).
Defined.
End WaterMore.

(* ===================================================================== *)
(** * The hourglass: the sand comes to rest *)
(* ===================================================================== *)

Module HourglassLoop.
Import Grains Hourglass GrainFacts HourglassFacts LifeFacts GrainClaims HourglassMore.

Lemma sum_rel (f : SandGrain -> Z) (l : list SandGrain) :
  forall l', length l' = length l ->
    (forall i g g', l !! i = Some g -> l' !! i = Some g' -> f g' <= f g) ->
    foldr (fun g acc => f g + acc) 0 l' <= foldr (fun g acc => f g + acc) 0 l
    /\ ((exists i g g', l !! i = Some g /\ l' !! i = Some g' /\ f g' < f g) ->
        foldr (fun g acc => f g + acc) 0 l' < foldr (fun g acc => f g + acc) 0 l).
Proof.
  induction l as [|a l IH]; intros [|a' l'] Hlen Hall; try discriminate Hlen.
  - split; [done|]. intros (i & g & g' & Hi & _). by rewrite lookup_nil in Hi.
  - simpl in Hlen. injection Hlen as Hlen.
    destruct (IH l' Hlen) as [Hle Hlt].
    { intros i g g' Hg Hg'. exact (Hall (S i) g g' Hg Hg'). }
    pose proof (Hall 0%nat a a' eq_refl eq_refl) as Ha.
    cbn [foldr]. split; [lia|].
    intros ([|i] & g & g' & Hg & Hg' & Hs).
    + simpl in Hg, Hg'. injection Hg as <-. injection Hg' as <-. lia.
    + assert (foldr (fun g acc => f g + acc) 0 l' < foldr (fun g acc => f g + acc) 0 l)
        by (apply Hlt; by exists i, g, g').
      lia.
Qed.

Lemma potential_bounds (h : Hourglass) :
  ownership (hworld h) ->
  0 <= potential h <= 7 * Z.of_nat (length (grains (hworld h))).
Proof.
  intros (_ & Hgr & _). unfold potential.
  assert (Forall (fun g => 0 <= remaining (flipped h) g <= 7) (grains (hworld h))) as Hall.
  { apply Forall_lookup. intros i g Hg. destruct (Hgr i g Hg) as [[_ Hy] _].
    unfold remaining, HEIGHT in *. destruct (flipped h); lia. }
  clear Hgr. induction Hall as [|g l Hg _ IH]; cbn [foldr length]; [lia|].
  rewrite Nat2Z.inj_succ. lia.
Qed.

Lemma glass_rel_remaining (fl : bool) (g g' : SandGrain) :
  glass_rel fl g g' ->
  remaining fl g' <= remaining fl g
  /\ (settled g' = false -> remaining fl g' < remaining fl g).
Proof.
  intros (_ & [(_ & Hy & Hs)|(_ & Hy & Hs & _)]); unfold remaining; destruct fl; split;
    try lia; congruence.
Qed.

Lemma update_potential (c : list bool) (h h' : Hourglass) (moved : bool) :
  update c h = Some (h', moved) ->
  flipped h' = flipped h
  /\ length (grains (hworld h')) = length (grains (hworld h))
  /\ potential h' <= potential h - (if moved then 1 else 0)
  /\ (moved = false -> at_rest h').
Proof.
  intros Hup. apply hourglass_update_rel in Hup as (_ & Hfl & Hlen & Hrel & Hmoved).
  split; [exact Hfl|]. split; [exact Hlen|].
  unfold potential. rewrite Hfl.
  destruct (sum_rel (remaining (flipped h)) (grains (hworld h)) (grains (hworld h')) Hlen)
    as [Hle Hlt].
  { intros i g g' Hg Hg'. destruct (Hrel i g Hg) as (g'' & Hg'' & Hr).
    rewrite Hg' in Hg''. injection Hg'' as <-. by apply glass_rel_remaining. }
  split.
  - destruct moved; [|lia].
    destruct (proj1 Hmoved eq_refl) as (i & g' & Hg' & Hs).
    assert (is_Some (grains (hworld h) !! i)) as [g Hg].
    { apply lookup_lt_is_Some. rewrite <- Hlen. by eapply lookup_lt_Some. }
    assert (remaining (flipped h) g' < remaining (flipped h) g) as Hdrop.
    { destruct (Hrel i g Hg) as (g'' & Hg'' & Hr).
      rewrite Hg' in Hg''. injection Hg'' as <-. by apply glass_rel_remaining. }
    assert (foldr (fun g acc => remaining (flipped h) g + acc) 0 (grains (hworld h'))
            < foldr (fun g acc => remaining (flipped h) g + acc) 0 (grains (hworld h)))
      by (apply Hlt; by exists i, g, g').
    lia.
  - intros -> i g' Hg'. destruct (settled g') eqn:Hs; [done|].
    assert (false = true) as Habs by (apply Hmoved; by exists i, g'). discriminate Habs.
Qed.

Lemma settle_loop_eq (coins : list (list bool)) (stable_frames : Z) (h : Hourglass) :
  settle_loop coins stable_frames h
  = if decide (stable_frames < 20) then
      match coins with
      | [] => Some (Running h stable_frames)
      | c :: rest =>
          '(h', moved) ← update c h;
          settle_loop rest (if (moved : bool) then 0 else stable_frames + 1) h'
      end
    else Some (Finished h).
Proof. by destruct coins. Qed.

Lemma settle_loop_ends (coins : list (list bool)) :
  forall stable h,
    reachable h -> 0 <= stable -> (0 < stable -> at_rest h) ->
    20 * potential h + (20 - stable) <= Z.of_nat (length coins) ->
    exists h', settle_loop coins stable h = Some (Finished h')
      /\ reachable h' /\ flipped h' = flipped h /\ at_rest h'
      /\ (20 <= stable -> h' = h)
      /\ (stable < 20 ->
          frame h < frame h' <= frame h + 20 * potential h + (20 - stable)).
Proof.
  induction coins as [|c rest IH]; intros stable h Hreach Hst Hrest Hlen.
  - pose proof (potential_bounds h (hourglass_reachable_ownership h Hreach)) as Hp.
    simpl in Hlen. rewrite settle_loop_eq, decide_False by lia.
    exists h. split; [done|]. split; [done|]. split; [done|].
    split; [apply Hrest; lia|]. split; [done|lia].
  - rewrite settle_loop_eq. case_decide as Hlt.
    2:{ exists h. split; [done|]. split; [done|]. split; [done|].
        split; [apply Hrest; lia|]. split; [done|lia]. }
    pose proof (hourglass_reachable_ownership h Hreach) as Hown.
    destruct (hourglass_update_ownership c h Hown) as (h1 & moved & Hup & _ & _).
    rewrite Hup. cbn [mbind option_bind].
    pose proof (reach_update h c h1 moved Hreach Hup) as Hreach1.
    pose proof (potential_bounds h1 (hourglass_reachable_ownership h1 Hreach1)) as Hp1.
    assert (frame h1 = frame h + 1) as Hframe
      by (apply hourglass_update_rel in Hup as (Hf & _); exact Hf).
    apply update_potential in Hup as (Hfl & _ & Hpot & Hquiet).
    destruct (IH (if moved then 0 else stable + 1) h1)
      as (h' & Hloop & Hr' & Hfl' & Hrest' & Hsame & Hfr).
    + exact Hreach1.
    + destruct moved; lia.
    + destruct moved; [lia|]. intros _. by apply Hquiet.
    + simpl length in Hlen. destruct moved; lia.
    + exists h'. split; [exact Hloop|]. split; [exact Hr'|]. split; [congruence|].
      split; [exact Hrest'|]. split; [lia|]. intros _.
      destruct (decide ((if moved then 0 else stable + 1) < 20)) as [Hs|Hs].
      * specialize (Hfr Hs). destruct moved; lia.
      * rewrite (Hsame ltac:(lia)). destruct moved; lia.
Qed.

(** X25. The loop [while stable_frames < 20] of [run_hourglass] ends:
    from every reachable state, whatever the coins, no tick raises and
    after at least one and at most 2820 ticks the loop has seen 20 ticks
    in a row in which nothing moved; every grain is then settled. (Each
    tick that moves a grain takes one of the at most 7 x 20 rows that the
    grains can still go.) *)
Theorem run_hourglass_settles (coins : list (list bool)) (h : Hourglass) :
  reachable h -> (2820 <= length coins)%nat ->
  exists h', settle_loop coins 0 h = Some (Finished h')
    /\ reachable h' /\ flipped h' = flipped h
    /\ (forall i g, grains (hworld h') !! i = Some g -> settled g = true)
    /\ frame h < frame h' <= frame h + 2820.
Proof.
  intros Hreach Hlen.
  pose proof (potential_bounds h (hourglass_reachable_ownership h Hreach)) as Hp.
  destruct (reachable_in_glass h Hreach) as [Hcount _].
  rewrite Hcount in Hp. change (Z.of_nat SAND_COUNT) with 20 in Hp.
  destruct (settle_loop_ends coins 0 h Hreach) as (h' & Hloop & Hr' & Hfl & Hrest & _ & Hfr);
    [lia|lia|lia|].
  exists h'. split; [exact Hloop|]. split; [exact Hr'|]. split; [exact Hfl|].
  split; [exact Hrest|]. specialize (Hfr ltac:(lia)). lia.
Qed.

Lemma run_hourglass_settles_witness :
  reachable fresh_hourglass /\ (2820 <= length (replicate 2820 [true; false]))%nat
  /\ exists h', settle_loop (replicate 2820 [true; false]) 0 fresh_hourglass
                = Some (Finished h')
    /\ reachable h' /\ flipped h' = flipped fresh_hourglass
    /\ (forall i g, grains (hworld h') !! i = Some g -> settled g = true)
    /\ frame fresh_hourglass < frame h' <= frame fresh_hourglass + 2820.
Proof.
  assert (2820 <= length (replicate 2820 [true; false]))%nat as Hlen
    by (rewrite length_replicate; apply le_n).
  exact (conj fresh_hourglass_reachable
           (conj Hlen (run_hourglass_settles _ fresh_hourglass
                         fresh_hourglass_reachable Hlen))).
Defined.
End HourglassLoop.

(* ===================================================================== *)
(** * Falling sand: the reachable states *)
(* ===================================================================== *)

Module SandReach.
Import Grains Sand GrainFacts SandFacts LifeFacts GrainClaims SandMore.

Lemma spawn_grain_count (pick : nat) (s s' : SandSimulation) :
  spawn_grain pick s = Some s' ->
  grain_count s = Z.of_nat (length (grains (sworld s))) ->
  grain_count s' = Z.of_nat (length (grains (sworld s'))).
Proof.
  unfold spawn_grain. intros H Hc.
  apply bind_Some in H as (spots & _ & H).
  destruct spots as [|x0 spots]; [by injection H as <-|].
  apply bind_Some in H as (x & _ & H).
  apply bind_Some in H as (color & _ & H).
  apply bind_Some in H as (w & Hadd & [= <-]).
  unfold add_grain in Hadd. apply bind_Some in Hadd as (g1 & _ & [= <-]).
  cbn [grain_count sworld grains]. rewrite length_app. simpl. lia.
Qed.

(** X26. In every state that [SandSimulation] reaches through its
    methods, [grain_count] is the number of grains, and [update] returns
    (it never raises), whatever the coins. *)
Theorem sand_reachable_safe (s : SandSimulation) :
  reachable s ->
  grain_count s = Z.of_nat (length (grains (sworld s)))
  /\ (forall coins, exists s', update coins s = Some s').
Proof.
  intros Hreach. pose proof (sand_reachable_ownership s Hreach) as Hown.
  split.
  - clear Hown. induction Hreach as [|s _ _|s pick s' _ IH Hspawn|s coins s' _ IH Hup].
    + reflexivity.
    + reflexivity.
    + exact (spawn_grain_count pick s s' Hspawn IH).
    + apply update_rel in Hup as (Hc & _ & Hlen & _). rewrite Hc, Hlen. exact IH.
  - intros coins. by apply sand_update_total.
Qed.

Lemma sand_reachable_safe_witness :
  reachable tower_state
  /\ grain_count tower_state = Z.of_nat (length (grains (sworld tower_state)))
  /\ (forall coins, exists s', update coins tower_state = Some s').
Proof.
  exact (conj tower_reachable (sand_reachable_safe tower_state tower_reachable)).
Defined.
End SandReach.

(* ===================================================================== *)
(** * Water ripples: the colours *)
(* ===================================================================== *)

Module ColourFacts.
Import Water Colours.

Lemma trunc_bounds (q : Q) (a b : Z) :
  0 <= a -> (inject_Z a <= q)%Q -> (q <= inject_Z b)%Q -> a <= trunc q <= b.
Proof.
  destruct q as [n d]. unfold trunc, Qle, inject_Z. simpl. intros Ha Hl Hu.
  rewrite Z.quot_div_nonneg by nia.
  split.
  - apply Z.div_le_lower_bound; lia.
  - apply Z.div_le_upper_bound; lia.
Qed.


Lemma clamp_cases (height : Q) :
  (clamp_height height = inject_Z (-1) /\ (height <= -50)%Q)
  \/ (clamp_height height = (height / inject_Z 50)%Q /\ (-50 < height < 50)%Q)
  \/ (clamp_height height = inject_Z 1 /\ (50 <= height)%Q).
Proof.
  unfold clamp_height, max2, min2. cbn [lt Q_order num div Q_arith].
  assert (height / inject_Z 50 == height * (1 # 50))%Q as Hdiv by (unfold inject_Z; field).
  destruct (Qlt_le_dec (height / inject_Z 50) (inject_Z 1)) as [H1|H1].
  - destruct (Qlt_le_dec (inject_Z (-1)) (height / inject_Z 50)) as [H2|H2].
    + right; left. split; [reflexivity|]. rewrite Hdiv in H1, H2. unfold inject_Z in *. lra.
    + left. split; [reflexivity|]. rewrite Hdiv in H2. unfold inject_Z in *. lra.
  - destruct (Qlt_le_dec (inject_Z (-1)) (inject_Z 1)) as [H2|H2].
    + right; right. split; [reflexivity|]. rewrite Hdiv in H1. unfold inject_Z in *. lra.
    + exfalso. unfold inject_Z in H2. lra.
Qed.

Lemma clamp_value (height : Q) :
  exists h, clamp_height height = h /\ (-1 <= h <= 1)%Q
    /\ ((h < 0)%Q <-> (height < 0)%Q)
    /\ ((h < -3 # 10)%Q <-> (height < -15)%Q)
    /\ ((h < 3 # 10)%Q <-> (height < 15)%Q)
    /\ ((7 # 25 <= h)%Q <-> (14 <= height)%Q).
Proof.
  exists (clamp_height height). split; [reflexivity|].
  assert (height / inject_Z 50 == height * (1 # 50))%Q as Hdiv by (unfold inject_Z; field).
  destruct (clamp_cases height) as [[-> Hh]|[[-> Hh]| [-> Hh]]];
    rewrite ?Hdiv; unfold inject_Z; split_and!; try (split; intros); lra.
Qed.

Ltac bound e lo hi :=
  let Hb := fresh "Hb" in
  assert (lo <= trunc e <= hi) as Hb
    by (apply trunc_bounds; [lia|unfold inject_Z; lra|unfold inject_Z; lra]).

(** X27. In exact arithmetic, [water_color] and [sunset_water_color]
    return for every height three channels between 0 and 255. *)
Theorem water_colours_valid (height : Q) :
  exists c1 c2,
    water_color height = Some c1 /\ sunset_water_color height = Some c2
    /\ valid_colour c1 /\ valid_colour c2.
Proof.
  destruct (clamp_value height) as (h & Hh & Hb & Hneg & _).
  unfold water_color, sunset_water_color. rewrite Hh.
  cbn [lt Q_order to_int num add sub mul div Q_arith mbind option_bind].
  repeat match goal with
         | |- context [Z.quot (Qnum ?e) (Z.pos (Qden ?e))] => fold (trunc e)
         end.
  destruct (Qlt_le_dec h (inject_Z 0)) as [Hlt|Hge];
    unfold inject_Z in Hlt || unfold inject_Z in Hge.
  - bound (inject_Z 0 * (inject_Z 1 + h))%Q 0 0.
    bound (inject_Z 50 * (inject_Z 1 + h))%Q 0 50.
    bound (inject_Z 150 + inject_Z 50 * (inject_Z 1 + h))%Q 150 200.
    bound (inject_Z 100 + inject_Z 50 * (inject_Z 1 + h))%Q 100 150.
    eexists _, _. split; [reflexivity|]. split; [reflexivity|].
    unfold valid_colour. cbn [fst snd]. lia.
  - bound (inject_Z 100 * h)%Q 0 100.
    bound (inject_Z 150 + inject_Z 100 * h)%Q 150 250.
    bound (inject_Z 200 + inject_Z 55 * h)%Q 200 255.
    bound (inject_Z 150 + inject_Z 105 * h)%Q 150 255.
    bound (inject_Z 80 + inject_Z 80 * h)%Q 80 160.
    bound (inject_Z 50 * (inject_Z 1 - h))%Q 0 50.
    eexists _, _. split; [reflexivity|]. split; [reflexivity|].
    unfold valid_colour. cbn [fst snd]. lia.
Qed.





(** X29. [dim] of a colour whose channels are between 0 and 259 gives
    for each channel c the integer part of 2c/5, at most 103: the colour
    written to the strip is valid. This holds in exact arithmetic and, for
    each of the 260 values of a channel, in binary64. *)
Theorem dim_spec :
  (forall r g b : Z,
     0 <= r <= 259 -> 0 <= g <= 259 -> 0 <= b <= 259 ->
     dim (T := Q) (r, g, b) = Some (2 * r / 5, 2 * g / 5, 2 * b / 5)
     /\ valid_colour (2 * r / 5, 2 * g / 5, 2 * b / 5)
     /\ 2 * r / 5 <= 103 /\ 2 * g / 5 <= 103 /\ 2 * b / 5 <= 103)
  /\ Forall (fun c => to_int (mul (num c) (BRIGHTNESS (T := float))) = Some (2 * c / 5))
            (Z.of_nat <$> seq 0 260).
Proof.
  split.
  - intros r g b Hr Hg Hb.
    assert (forall c, 0 <= c ->
              to_int (mul (num c) (BRIGHTNESS (T := Q))) = Some (2 * c / 5)) as Hc.
    { intros c Hc0. cbn. f_equal. rewrite Z.quot_div_nonneg by lia.
      Z.to_euclidean_division_equations. lia. }
    unfold dim. rewrite !Hc by lia. cbn [mbind option_bind].
    split; [reflexivity|]. unfold valid_colour. cbn [fst snd].
    Z.to_euclidean_division_equations. lia.
  - apply (bool_decide_unpack _). by vm_compute.
Qed.

Lemma dim_spec_witness :
  0 <= 0 <= 259 /\ 0 <= 258 <= 259 /\ 0 <= 106 <= 259
  /\ dim (T := Q) (0, 258, 106) = Some (2 * 0 / 5, 2 * 258 / 5, 2 * 106 / 5)
  /\ valid_colour (2 * 0 / 5, 2 * 258 / 5, 2 * 106 / 5)
  /\ 2 * 0 / 5 <= 103 /\ 2 * 258 / 5 <= 103 /\ 2 * 106 / 5 <= 103.
Proof.
  assert (0 <= 0 <= 259) as H1 by lia.
  assert (0 <= 258 <= 259) as H2 by lia.
  assert (0 <= 106 <= 259) as H3 by lia.
  exact (conj H1 (conj H2 (conj H3 (proj1 dim_spec 0 258 106 H1 H2 H3)))).
Defined.
End ColourFacts.
